(** * CDT-FEEDBACK: the feedback server (server/index.js), embedded and verified

    The development follows the layout of the server:

    - [JS]: the fragment of the JavaScript run time the route handlers rely
      on (numbers, JSON values, the conversions [ToString], [ToNumber] and
      [parseInt], truthiness, strict equality, [Array.prototype.sort],
      property enumeration order of plain objects, the word regular
      expression of the analytics route).
    - [Sha256]: the digest behind [hashIdentifier].
    - [Server]: the two JSON files, the route handlers and the transition
      system they induce.
    - the theorems, one group per property of the specification.

    Modelling conventions.
    - Strings are Rocq strings of 8-bit characters and stand for ASCII text:
      [toLowerCase] maps A-Z to a-z and leaves every other character alone,
      a string hashed as UTF-8 is its own byte sequence, and the length of a
      string is its number of characters.
    - A number is NaN, an infinity, or an exact decimal [m * 10^e]; a JSON
      literal denotes exactly its decimal value.  Rounding to binary64 is not
      part of the model: a literal that the source rounds is taken unrounded,
      and a literal beyond the range of binary64, such as [1e400], which the
      source reads as an infinity, is to be given as that infinity.
    - A request body is a JSON object whose fields are arbitrary JSON values
      ([VUndefined] for a field that is absent); query parameters and route
      parameters are strings.
    - [req.session.isAdmin] is an input of each request; the routes that only
      touch the session (login, logout, check) are not represented.
    - The clock and the UUID generator are inputs of each request ([Env]).
    - The ISO-8601 [timestamp] of an entry is represented by the instant it
      denotes, in milliseconds since the epoch: [toISOString] followed by
      [new Date(...)] is the identity on instants.
    - The files start as the server creates them and change by requests
      only; the normalisation of older files at start-up is not represented.
    - A handler is a function from the files to its response and the list of
      its calls to [writeFeedback] and [writeCategories]; an exception caught
      by the handler's [try] is the 500 response. *)

From Stdlib Require Import ZArith String Ascii List Lia.
From Stdlib Require Import Sorting.Sorted Sorting.Permutation.
From stdpp Require Import base list strings pretty sorting.

Local Open Scope string_scope.
Local Open Scope Z_scope.

(* ================================================================= *)
(** * The JavaScript fragment *)

Module JS.

(** ** Characters and strings *)

Definition code (c : ascii) : Z := Z.of_nat (nat_of_ascii c).

Definition is_digit (c : ascii) : bool := (48 <=? code c) && (code c <=? 57).
Definition is_upper (c : ascii) : bool := (65 <=? code c) && (code c <=? 90).
Definition is_lower (c : ascii) : bool := (97 <=? code c) && (code c <=? 122).

(** [\w] of a regular expression without the [u] or [i] flag: [A-Za-z0-9_]. *)
Definition is_word_char (c : ascii) : bool :=
  is_digit c || is_upper c || is_lower c || (code c =? 95).

(** WhiteSpace and LineTerminator, in the ASCII range: TAB, LF, VT, FF, CR, SP. *)
Definition is_space (c : ascii) : bool :=
  ((9 <=? code c) && (code c <=? 13)) || (code c =? 32).

Definition lower_char (c : ascii) : ascii :=
  if is_upper c then ascii_of_nat (nat_of_ascii c + 32) else c.

(** [String.prototype.toLowerCase]. *)
Fixpoint toLowerCase (s : string) : string :=
  match s with
  | EmptyString => EmptyString
  | String c r => String (lower_char c) (toLowerCase r)
  end.

Fixpoint starts_with (p s : string) : bool :=
  match p, s with
  | EmptyString, _ => true
  | String a p', String b s' => Ascii.eqb a b && starts_with p' s'
  | String _ _, EmptyString => false
  end.

(** [String.prototype.includes]: [q] occurs in [s] at some position. *)
Fixpoint includes (s q : string) : bool :=
  starts_with q s ||
  match s with
  | EmptyString => false
  | String _ r => includes r q
  end.

Fixpoint trim_start (s : string) : string :=
  match s with
  | String c r => if is_space c then trim_start r else s
  | EmptyString => EmptyString
  end.

Definition trim_end (s : string) : string :=
  String.rev (trim_start (String.rev s)).

Definition trim (s : string) : string := trim_end (trim_start s).

Fixpoint take_while (p : ascii -> bool) (s : string) : string :=
  match s with
  | String c r => if p c then String c (take_while p r) else EmptyString
  | EmptyString => EmptyString
  end.

Fixpoint drop_while (p : ascii -> bool) (s : string) : string :=
  match s with
  | String c r => if p c then drop_while p r else s
  | EmptyString => EmptyString
  end.

Fixpoint string_take (n : nat) (s : string) : string :=
  match n, s with
  | S n', String c r => String c (string_take n' r)
  | _, _ => EmptyString
  end.

Fixpoint string_drop (n : nat) (s : string) : string :=
  match n, s with
  | S n', String _ r => string_drop n' r
  | _, _ => s
  end.

Fixpoint repeat_char (c : ascii) (n : nat) : string :=
  match n with
  | O => EmptyString
  | S n' => String c (repeat_char c n')
  end.

(** The value of a digit in the given radix, if it is one. *)
Definition digit_value (radix : Z) (c : ascii) : option Z :=
  let v :=
    if is_digit c then code c - 48
    else if is_lower c then code c - 87
    else if is_upper c then code c - 55
    else radix in
  if v <? radix then Some v else None.

Definition is_radix_digit (radix : Z) (c : ascii) : bool :=
  match digit_value radix c with Some _ => true | None => false end.

(** The integer written by a string of digits, most significant first. *)
Fixpoint digits_value_from (radix acc : Z) (s : string) : Z :=
  match s with
  | EmptyString => acc
  | String c r =>
      match digit_value radix c with
      | Some v => digits_value_from radix (acc * radix + v) r
      | None => acc
      end
  end.

Definition digits_value (radix : Z) (s : string) : Z :=
  digits_value_from radix 0 s.

(** ** Numbers *)

Inductive number : Type :=
| NaN
| Infinity (negative : bool)
| Dec (m e : Z).  (* the finite number m * 10^e *)

Definition int (z : Z) : number := Dec z 0.

Definition scaled (m e e0 : Z) : Z := m * 10 ^ (e - e0).

Definition num_compare (x y : number) : option comparison :=
  match x, y with
  | NaN, _ | _, NaN => None
  | Infinity a, Infinity b =>
      Some (if a then (if b then Eq else Lt) else (if b then Gt else Eq))
  | Infinity a, Dec _ _ => Some (if a then Lt else Gt)
  | Dec _ _, Infinity b => Some (if b then Gt else Lt)
  | Dec m1 e1, Dec m2 e2 =>
      let e0 := Z.min e1 e2 in
      Some (scaled m1 e1 e0 ?= scaled m2 e2 e0)
  end.

(** The comparisons [x < y], [x > y], [x <= y], [x >= y] and [x === y] on
    numbers: each is false as soon as an operand is NaN. *)
Definition num_lt (x y : number) : bool :=
  match num_compare x y with Some Lt => true | _ => false end.
Definition num_gt (x y : number) : bool := num_lt y x.
Definition num_le (x y : number) : bool :=
  match num_compare x y with Some Lt | Some Eq => true | _ => false end.
Definition num_ge (x y : number) : bool := num_le y x.
Definition num_eq (x y : number) : bool :=
  match num_compare x y with Some Eq => true | _ => false end.

Definition num_add (x y : number) : number :=
  match x, y with
  | NaN, _ | _, NaN => NaN
  | Infinity a, Infinity b => if Bool.eqb a b then Infinity a else NaN
  | Infinity a, Dec _ _ => Infinity a
  | Dec _ _, Infinity b => Infinity b
  | Dec m1 e1, Dec m2 e2 =>
      let e0 := Z.min e1 e2 in
      Dec (scaled m1 e1 e0 + scaled m2 e2 e0) e0
  end.

Definition num_neg (x : number) : number :=
  match x with
  | NaN => NaN
  | Infinity a => Infinity (negb a)
  | Dec m e => Dec (- m) e
  end.

Definition num_sub (x y : number) : number := num_add x (num_neg y).

Fixpoint strip_leading (c : ascii) (s : string) : string :=
  match s with
  | String d r => if Ascii.eqb c d then strip_leading c r else s
  | EmptyString => EmptyString
  end.

Definition strip_trailing_zeros (s : string) : string :=
  String.rev (strip_leading "0"%char (String.rev s)).

Definition zeros (n : Z) : string := repeat_char "0"%char (Z.to_nat n).

(** Number::toString for radix 10 (ECMA-262, 6.1.6.1.20), on the decimal
    digits of the number itself. *)
Definition number_to_string (x : number) : string :=
  match x with
  | NaN => "NaN"
  | Infinity neg => if neg then "-Infinity" else "Infinity"
  | Dec m e =>
      if m =? 0 then "0" else
      let all := pretty (Z.abs_N m) in
      let s := strip_trailing_zeros all in
      let k := Z.of_nat (String.length s) in
      let n := Z.of_nat (String.length all) + e in
      let body :=
        if (k <=? n) && (n <=? 21) then s +:+ zeros (n - k)
        else if (0 <? n) && (n <=? 21) then
          string_take (Z.to_nat n) s +:+ "." +:+ string_drop (Z.to_nat n) s
        else if (-6 <? n) && (n <=? 0) then "0." +:+ zeros (- n) +:+ s
        else
          let x := n - 1 in
          let es := (if x <? 0 then "-" else "+") +:+ pretty (Z.abs_N x) in
          match s with
          | EmptyString => EmptyString
          | String c EmptyString => String c ("e" +:+ es)
          | String c r => String c ("." +:+ r +:+ "e" +:+ es)
          end in
      if m <? 0 then "-" +:+ body else body
  end.

(** An optional sign in front of a numeric literal. *)
Definition strip_sign (s : string) : bool * string :=
  match s with
  | String "-" r => (true, r)
  | String "+" r => (false, r)
  | _ => (false, s)
  end.

Definition signed (neg : bool) (z : Z) : Z := if neg then - z else z.

(** The numeric value of the non-decimal integer literals [0x..], [0o..]
    and [0b..]. *)
Definition radix_literal (s : string) : option number :=
  match s with
  | String "0" (String p r) =>
      let radix :=
        if Ascii.eqb p "x" || Ascii.eqb p "X" then 16
        else if Ascii.eqb p "o" || Ascii.eqb p "O" then 8
        else if Ascii.eqb p "b" || Ascii.eqb p "B" then 2
        else 0 in
      if radix =? 0 then None
      else
        match r with
        | EmptyString => Some NaN
        | _ =>
            if String.eqb (drop_while (is_radix_digit radix) r) "" then
              Some (int (digits_value radix r))
            else Some NaN
        end
  | _ => None
  end.

(** StrDecimalLiteral: an optional sign, then [Infinity] or decimal digits
    with an optional fraction and an optional exponent. *)
Definition decimal_literal (s : string) : number :=
  let (neg, s1) := strip_sign s in
  if String.eqb s1 "Infinity" then Infinity neg else
  let ip := take_while is_digit s1 in
  let r1 := drop_while is_digit s1 in
  let (fp, r2) :=
    match r1 with
    | String "." r => (take_while is_digit r, drop_while is_digit r)
    | _ => (EmptyString, r1)
    end in
  if String.eqb (ip +:+ fp) "" then NaN else
  let mant := signed neg (digits_value 10 (ip +:+ fp)) in
  let frac := Z.of_nat (String.length fp) in
  match r2 with
  | EmptyString => Dec mant (- frac)
  | String c r =>
      if Ascii.eqb c "e" || Ascii.eqb c "E" then
        let (eneg, r') := strip_sign r in
        if String.eqb r' "" then NaN
        else if String.eqb (drop_while is_digit r') "" then
          Dec mant (signed eneg (digits_value 10 r') - frac)
        else NaN
      else NaN
  end.

(** StringToNumber (ECMA-262, 7.1.4.1.1). *)
Definition string_to_number (s : string) : number :=
  let t := trim s in
  if String.eqb t "" then int 0
  else match radix_literal t with
       | Some n => n
       | None => decimal_literal t
       end.

(** [parseInt(string)] with no radix argument (ECMA-262, 19.2.5). *)
Definition parseInt_string (s : string) : number :=
  let (neg, s1) := strip_sign (trim_start s) in
  let (radix, s2) :=
    if starts_with "0x" s1 || starts_with "0X" s1
    then (16, string_drop 2 s1) else (10, s1) in
  let ds := take_while (is_radix_digit radix) s2 in
  if String.eqb ds "" then NaN
  else int (signed neg (digits_value radix ds)).


(** ** Values *)

Set Warnings "-register-all".

(** The values the handlers see: JSON values, [undefined], and the built-in
    function objects a plain object inherits from [Object.prototype]. *)
Inductive value : Type :=
| VUndefined
| VNull
| VBool (b : bool)
| VNum (n : number)
| VStr (s : string)
| VArr (items : list value)
| VObj (props : list (string * value))
| VFunction (name : string).

(** The outcome of evaluating an expression that may throw. *)
Inductive completion (A : Type) : Type :=
| Normal (a : A)
| Throw (error : string).
Arguments Normal {A} a.
Arguments Throw {A} error.

Definition bind {A B : Type} (c : completion A) (k : A -> completion B) : completion B :=
  match c with
  | Normal a => k a
  | Throw e => Throw e
  end.

(** ToString (7.1.17); an array prints as [join(",")], where [null] and
    [undefined] elements print as the empty string. *)
Fixpoint ToString (v : value) : string :=
  match v with
  | VUndefined => "undefined"
  | VNull => "null"
  | VBool b => if b then "true" else "false"
  | VNum n => number_to_string n
  | VStr s => s
  | VArr items =>
      (fix join (l : list value) : string :=
         match l with
         | [] => ""
         | x :: r =>
             let sx := match x with
                       | VUndefined | VNull => ""
                       | _ => ToString x
                       end in
             match r with
             | [] => sx
             | _ :: _ => sx +:+ "," +:+ join r
             end
         end) items
  | VObj _ => "[object Object]"
  | VFunction name => "function " +:+ name +:+ "() { [native code] }"
  end.

(** The element-to-string step of [Array.prototype.join]. *)
Definition join_element (v : value) : string :=
  match v with
  | VUndefined | VNull => ""
  | _ => ToString v
  end.

(** [Array.prototype.join(sep)]. *)
Fixpoint join (sep : string) (l : list value) : string :=
  match l with
  | [] => ""
  | [x] => join_element x
  | x :: r => join_element x +:+ sep +:+ join sep r
  end.

(** ToNumber (7.1.4); an object converts through its string form. *)
Definition ToNumber (v : value) : number :=
  match v with
  | VUndefined => NaN
  | VNull => int 0
  | VBool b => if b then int 1 else int 0
  | VNum n => n
  | VStr s => string_to_number s
  | VArr _ | VObj _ | VFunction _ => string_to_number (ToString v)
  end.

(** ToBoolean (7.1.2). *)
Definition truthy (v : value) : bool :=
  match v with
  | VUndefined | VNull => false
  | VBool b => b
  | VNum NaN => false
  | VNum (Infinity _) => true
  | VNum (Dec m _) => negb (m =? 0)
  | VStr s => negb (String.eqb s "")
  | VArr _ | VObj _ | VFunction _ => true
  end.

(** [x < n] and [x > n] where [n] is a number: the other operand is
    converted with ToNumber (IsLessThan, 7.2.13). *)
Definition lt_number (x : value) (n : number) : bool := num_lt (ToNumber x) n.
Definition gt_number (x : value) (n : number) : bool := num_gt (ToNumber x) n.

(** [x === y] (IsStrictlyEqual, 7.2.15).  Arrays and objects are equal only
    when they are the same object; the operands compared by the handlers come
    from different JSON documents, so two of them never are. *)
Definition strict_equal (x y : value) : bool :=
  match x, y with
  | VUndefined, VUndefined => true
  | VNull, VNull => true
  | VBool a, VBool b => Bool.eqb a b
  | VNum a, VNum b => num_eq a b
  | VStr a, VStr b => String.eqb a b
  | _, _ => false
  end.

(** SameValueZero (7.2.11), the equality of [Array.prototype.includes] and
    of [Set]: strict equality, except that NaN equals NaN. *)
Definition same_value_zero (x y : value) : bool :=
  match x, y with
  | VNum NaN, VNum NaN => true
  | _, _ => strict_equal x y
  end.

(** [arr.includes(x)] and [new Set(arr).has(x)]. *)
Definition array_includes (arr : list value) (x : value) : bool :=
  existsb (same_value_zero x) arr.

(** [parseInt(v)]: the argument is converted with ToString first. *)
Definition parseInt (v : value) : number := parseInt_string (ToString v).

Fixpoint assoc {A : Type} (k : string) (l : list (string * A)) : option A :=
  match l with
  | [] => None
  | (k', a) :: r => if String.eqb k k' then Some a else assoc k r
  end.

(** [v.length]: the length of a string or an array, the own property of a
    JSON object, [undefined] on numbers and booleans; reading a property of
    [null] or [undefined] throws a TypeError. *)
Definition get_length (v : value) : completion value :=
  match v with
  | VUndefined | VNull => Throw "TypeError"
  | VStr s => Normal (VNum (int (Z.of_nat (String.length s))))
  | VArr items => Normal (VNum (int (Z.of_nat (List.length items))))
  | VObj props =>
      Normal (match assoc "length" props with Some x => x | None => VUndefined end)
  | VFunction _ => Normal (VNum (int 1))
  | VBool _ | VNum _ => Normal VUndefined
  end.

(** [v.toLowerCase()]: defined on strings; on any other JSON value the method
    is missing and the call throws a TypeError. *)
Definition call_toLowerCase (v : value) : completion string :=
  match v with
  | VStr s => Normal (toLowerCase s)
  | _ => Throw "TypeError"
  end.

(** What [JSON.stringify] followed by [JSON.parse] makes of a number:
    NaN and the infinities are written as [null]. *)
Definition json_number (n : number) : value :=
  match n with
  | Dec _ _ => VNum n
  | _ => VNull
  end.

(** What [JSON.stringify] followed by [JSON.parse] makes of a value, at any
    depth: a number that is not finite is written as [null]; a property
    whose value is [undefined] or a function is left out, and such an
    element of an array is written as [null].  A value left out is
    [VUndefined]. *)
Fixpoint json_value (v : value) : value :=
  match v with
  | VNum n => json_number n
  | VFunction _ => VUndefined
  | VArr items =>
      VArr (map (fun x => match json_value x with
                          | VUndefined => VNull
                          | y => y
                          end) items)
  | VObj props =>
      VObj ((fix kept (l : list (string * value)) : list (string * value) :=
               match l with
               | [] => []
               | (k, x) :: r =>
                   match json_value x with
                   | VUndefined => kept r
                   | y => (k, y) :: kept r
                   end
               end) props)
  | _ => v
  end.

(** ** Array.prototype.sort *)

(** The sign test [sort] applies to the result of the comparator: [a] stays
    in front of [b] unless [cmp a b > 0]; NaN counts as 0. *)
Definition comes_after (c : number) : bool := num_gt c (int 0).

Section Sort.
Context {A : Type} (cmp : A -> A -> number).

Fixpoint sort_insert (x : A) (l : list A) : list A :=
  match l with
  | [] => [x]
  | y :: r => if comes_after (cmp x y) then y :: sort_insert x r else x :: y :: r
  end.

(** [arr.sort(cmp)]: the sort is stable (ECMAScript 2019), so for a
    comparator that is a consistent ordering the result is the stable
    insertion sort of the array. *)
Fixpoint sort (l : list A) : list A :=
  match l with
  | [] => []
  | x :: r => sort_insert x (sort r)
  end.
End Sort.

(** ** Plain objects used as dictionaries *)

(** The properties a plain object [{}] inherits from [Object.prototype]:
    methods, and the [__proto__] accessor, which reads as the prototype
    object. *)
Definition object_prototype_methods : list string :=
  ["constructor"; "__defineGetter__"; "__defineSetter__"; "hasOwnProperty";
   "__lookupGetter__"; "__lookupSetter__"; "isPrototypeOf";
   "propertyIsEnumerable"; "toString"; "valueOf"; "toLocaleString"].

Definition is_in (k : string) (l : list string) : bool :=
  existsb (String.eqb k) l.

Definition function_name (k : string) : string :=
  if String.eqb k "constructor" then "Object" else k.

(** [obj[k]] on a plain object with own properties [own]. *)
Definition object_get (own : list (string * value)) (k : string) : value :=
  if String.eqb k "__proto__" then VObj []
  else match assoc k own with
       | Some v => v
       | None =>
           if is_in k object_prototype_methods then VFunction (function_name k)
           else VUndefined
       end.

Fixpoint assoc_set {A : Type} (k : string) (a : A) (l : list (string * A)) : list (string * A) :=
  match l with
  | [] => [(k, a)]
  | (k', a') :: r => if String.eqb k k' then (k, a) :: r else (k', a') :: assoc_set k a r
  end.

(** [obj[k] = v]: an own property is created at the end of the insertion
    order or updated in place; assigning to [__proto__] runs the inherited
    setter, which ignores anything that is not an object or [null]. *)
Definition object_set (own : list (string * value)) (k : string) (v : value)
  : list (string * value) :=
  if String.eqb k "__proto__" then own else assoc_set k v own.

(** A canonical array index: the decimal form of an integer below 2^32 - 1. *)
Definition is_array_index (k : string) : bool :=
  negb (String.eqb k "") &&
  String.eqb (drop_while is_digit k) "" &&
  String.eqb (pretty (Z.to_N (digits_value 10 k))) k &&
  (digits_value 10 k <? 2 ^ 32 - 1).

Definition index_order (x y : string * value) : number :=
  num_sub (int (digits_value 10 (fst x))) (int (digits_value 10 (fst y))).

(** [Object.entries(obj)]: array-index keys first, in increasing numeric
    order, then the other keys in insertion order (OrdinaryOwnPropertyKeys,
    10.1.11.1). *)
Definition object_entries (own : list (string * value)) : list (string * value) :=
  sort index_order (List.filter (fun kv => is_array_index (fst kv)) own)
  ++ List.filter (fun kv => negb (is_array_index (fst kv))) own.

(** [a + b] (13.15.3): string concatenation as soon as one operand is a
    string after ToPrimitive, numeric addition otherwise. *)
Definition is_stringish (v : value) : bool :=
  match v with
  | VStr _ | VArr _ | VObj _ | VFunction _ => true
  | _ => false
  end.

Definition js_add (a b : value) : value :=
  if is_stringish a || is_stringish b then VStr (ToString a +:+ ToString b)
  else VNum (num_add (ToNumber a) (ToNumber b)).

(** [a - b]. *)
Definition js_sub (a b : value) : number := num_sub (ToNumber a) (ToNumber b).

(** [a || b]. *)
Definition js_or (a b : value) : value := if truthy a then a else b.

(** ** The regular expression [/\b\w{4,}\b/g] *)

(** [words_from cur s]: the matches in [s], where [cur] is the run of word
    characters read so far, in reverse.  [\b] lets a match begin only where a
    run of word characters begins and end only where it ends, and the greedy
    [\w{4,}] takes the whole run; a run shorter than 4 yields no match. *)
Definition flush_run (cur : string) : list string :=
  if (4 <=? String.length cur)%nat then [String.rev cur] else [].

Fixpoint words_from (cur : string) (s : string) : list string :=
  match s with
  | EmptyString => flush_run cur
  | String c r =>
      if is_word_char c then words_from (String c cur) r
      else flush_run cur ++ words_from EmptyString r
  end.

(** [s.match(/\b\w{4,}\b/g) || []]. *)
Definition match_words (s : string) : list string := words_from EmptyString s.

End JS.

(* ================================================================= *)
(** * SHA-256 (FIPS 180-4), as [crypto.createHash('sha256')] computes it *)

Module Sha256.

Definition w32 (x : Z) : Z := x mod 2 ^ 32.
Definition add32 (x y : Z) : Z := w32 (x + y).
Definition not32 (x : Z) : Z := Z.lxor x (2 ^ 32 - 1).
Definition rotr (n x : Z) : Z :=
  w32 (Z.lor (Z.shiftr x n) (Z.shiftl x (32 - n))).
Definition shr (n x : Z) : Z := Z.shiftr x n.
Definition xor3 (x y z : Z) : Z := Z.lxor (Z.lxor x y) z.

Definition Ch (x y z : Z) : Z := Z.lxor (Z.land x y) (Z.land (not32 x) z).
Definition Maj (x y z : Z) : Z := xor3 (Z.land x y) (Z.land x z) (Z.land y z).
Definition Sigma0 (x : Z) : Z := xor3 (rotr 2 x) (rotr 13 x) (rotr 22 x).
Definition Sigma1 (x : Z) : Z := xor3 (rotr 6 x) (rotr 11 x) (rotr 25 x).
Definition sigma0 (x : Z) : Z := xor3 (rotr 7 x) (rotr 18 x) (shr 3 x).
Definition sigma1 (x : Z) : Z := xor3 (rotr 17 x) (rotr 19 x) (shr 10 x).

Definition primes : list Z :=
  [2; 3; 5; 7; 11; 13; 17; 19; 23; 29; 31; 37; 41; 43; 47; 53;
   59; 61; 67; 71; 73; 79; 83; 89; 97; 101; 103; 107; 109; 113; 127; 131;
   137; 139; 149; 151; 157; 163; 167; 173; 179; 181; 191; 193; 197; 199; 211; 223;
   227; 229; 233; 239; 241; 251; 257; 263; 269; 271; 277; 281; 283; 293; 307; 311].

(** The integer cube root, one bit at a time from bit [k - 1] down. *)
Fixpoint cbrt_bits (k : nat) (n r : Z) : Z :=
  match k with
  | O => r
  | S k' =>
      let r' := r + 2 ^ Z.of_nat k' in
      cbrt_bits k' n (if r' * r' * r' <=? n then r' else r)
  end.

(** The round constants: the first 32 bits of the fractional parts of the
    cube roots of the first 64 primes. *)
Definition K : list Z :=
  Eval vm_compute in map (fun p => w32 (cbrt_bits 40 (p * 2 ^ 96) 0)) primes.

(** The initial hash value: the first 32 bits of the fractional parts of the
    square roots of the first 8 primes. *)
Definition H0 : list Z :=
  Eval vm_compute in map (fun p => w32 (Z.sqrt (p * 2 ^ 64))) (firstn 8 primes).

Definition bytes_of_string (s : string) : list Z :=
  map JS.code (list_ascii_of_string s).

(** [n] as [k] bytes, most significant first. *)
Fixpoint be_bytes (k : nat) (n : Z) : list Z :=
  match k with
  | O => []
  | S k' => (Z.shiftr n (8 * Z.of_nat k')) mod 256 :: be_bytes k' n
  end.

Definition pad (msg : list Z) : list Z :=
  let len := Z.of_nat (List.length msg) in
  msg ++ [128] ++ repeat 0 (Z.to_nat ((55 - len) mod 64)) ++ be_bytes 8 (8 * len).

Fixpoint be_words (fuel : nat) (bs : list Z) : list Z :=
  match fuel, bs with
  | S fuel', b0 :: b1 :: b2 :: b3 :: r =>
      (((b0 * 256 + b1) * 256 + b2) * 256 + b3) :: be_words fuel' r
  | _, _ => []
  end.

(** The message schedule, newest word first: [extend n (rev [W0..W15])]
    is [rev [W0..W(15+n)]]. *)
Fixpoint extend (n : nat) (w : list Z) : list Z :=
  match n with
  | O => w
  | S n' =>
      let wt := add32 (add32 (sigma1 (nth 1 w 0)) (nth 6 w 0))
                      (add32 (sigma0 (nth 14 w 0)) (nth 15 w 0)) in
      extend n' (wt :: w)
  end.

Definition schedule (block : list Z) : list Z :=
  rev (extend 48 (rev (be_words 16 block))).

Record regs := Regs { ra : Z; rb : Z; rc : Z; rd : Z; re : Z; rf : Z; rg : Z; rh : Z }.

Definition round (r : regs) (kw : Z * Z) : regs :=
  let t1 := add32 (add32 (add32 (rh r) (Sigma1 (re r))) (Ch (re r) (rf r) (rg r)))
                  (add32 (fst kw) (snd kw)) in
  let t2 := add32 (Sigma0 (ra r)) (Maj (ra r) (rb r) (rc r)) in
  Regs (add32 t1 t2) (ra r) (rb r) (rc r) (add32 (rd r) t1) (re r) (rf r) (rg r).

Definition regs_of (h : list Z) : regs :=
  Regs (nth 0 h 0) (nth 1 h 0) (nth 2 h 0) (nth 3 h 0)
       (nth 4 h 0) (nth 5 h 0) (nth 6 h 0) (nth 7 h 0).

Definition list_of (r : regs) : list Z :=
  [ra r; rb r; rc r; rd r; re r; rf r; rg r; rh r].

Definition compress (h : list Z) (block : list Z) : list Z :=
  let r := fold_left round (combine K (schedule block)) (regs_of h) in
  map (fun p => add32 (fst p) (snd p)) (combine h (list_of r)).

Fixpoint blocks (fuel : nat) (bs : list Z) : list (list Z) :=
  match fuel, bs with
  | S fuel', _ :: _ => firstn 64 bs :: blocks fuel' (skipn 64 bs)
  | _, _ => []
  end.

Definition digest (msg : list Z) : list Z :=
  let p := pad msg in
  fold_left compress (blocks (List.length p) p) H0.

Definition hex_digit (n : Z) : ascii :=
  ascii_of_nat (Z.to_nat (if n <? 10 then 48 + n else 87 + n)).

Fixpoint hex_of_bytes (bs : list Z) : string :=
  match bs with
  | [] => EmptyString
  | b :: r => String (hex_digit (b / 16)) (String (hex_digit (b mod 16)) (hex_of_bytes r))
  end.

(** [crypto.createHash('sha256').update(s).digest('hex')]. *)
Definition sha256_hex (s : string) : string :=
  hex_of_bytes (flat_map (be_bytes 4) (digest (bytes_of_string s))).

End Sha256.

(* ================================================================= *)
(** * The server *)

Module Category.
(** An element of categories.json. [name] and [description] hold whatever
    JSON value the admin routes were given. *)
Record t : Type := mk { id : string; name : JS.value; description : JS.value }.
End Category.

Module Feedback.
(** An element of feedback.json, as the [newFeedback] literal of
    [POST /api/feedback] builds it and [PUT /api/admin/feedback/:id]
    updates it. *)
Record t : Type := mk {
  feedback_id : string;
  category : JS.value;
  rating : JS.value;
  comment : JS.value;
  status : JS.value;
  admin_note : string;
  timestamp : Z;
  hash : string
}.

Definition set_status (v : JS.value) (f : t) : t :=
  mk (feedback_id f) (category f) (rating f) (comment f) v (admin_note f)
     (timestamp f) (hash f).
Definition set_admin_note (s : string) (f : t) : t :=
  mk (feedback_id f) (category f) (rating f) (comment f) (status f) s
     (timestamp f) (hash f).
Definition set_category (v : JS.value) (f : t) : t :=
  mk (feedback_id f) v (rating f) (comment f) (status f) (admin_note f)
     (timestamp f) (hash f).
End Feedback.

Module Server.
Import JS.

(** The two files under server/data. *)
Record store : Type := {
  feedbackFile : list Feedback.t;
  categoriesFile : list Category.t
}.

(** The files as the server creates them when they do not exist. *)
Definition initial : store := {|
  feedbackFile := [];
  categoriesFile := [Category.mk "general" (VStr "General") (VStr "General feedback")]
|}.

(** What a request draws from its environment: the result of
    [crypto.randomUUID()], the instant read by [new Date()] for the
    timestamp, and the instant read by [Date.now()] in [hashIdentifier]. *)
Record Env : Type := {
  randomUUID : string;
  new_Date : Z;
  Date_now : Z
}.

(** The JSON bodies of the responses. Of the analytics body only
    [totalFeedback] and [commonWords] are represented. *)
Inductive body : Type :=
| Error (error : string)
| Success
| Deleted (deleted : Z)
| Submitted (message : string) (feedback_id : string)
| Categories (l : list Category.t)
| OneCategory (c : Category.t)
| FeedbackList (l : list Feedback.t)
| OneFeedback (f : Feedback.t)
| Analytics (totalFeedback : Z) (commonWords : list (string * value)).

Inductive effect : Type :=
| WriteFeedback (l : list Feedback.t)
| WriteCategories (l : list Category.t).

(** What a handler does: the calls to [writeFeedback] and [writeCategories]
    it makes, in order, and the response it sends. *)
Record outcome : Type := {
  status : Z;
  json : body;
  effects : list effect
}.

Definition reply (code : Z) (b : body) : outcome :=
  {| status := code; json := b; effects := [] |}.

Definition reply_after (e : effect) (code : Z) (b : body) : outcome :=
  {| status := code; json := b; effects := [e] |}.

(** [try { ... } catch (error) { res.status(500)... }] *)
Definition try_catch (c : completion outcome) : outcome :=
  match c with
  | Normal o => o
  | Throw _ => reply 500 (Error "Internal server error")
  end.

Notation "'let*' x := c 'in' k" := (bind c (fun x => k))
  (at level 10, x name, c at level 200, k at level 200).

(** [arr.find(p)] and [arr.filter(p)] for a callback that may throw. *)
Fixpoint find_c {A : Type} (p : A -> completion bool) (l : list A) : completion (option A) :=
  match l with
  | [] => Normal None
  | x :: r => let* b := p x in if (b : bool) then Normal (Some x) else find_c p r
  end.

Fixpoint filter_c {A : Type} (p : A -> completion bool) (l : list A) : completion (list A) :=
  match l with
  | [] => Normal []
  | x :: r =>
      let* b := p x in
      let* r2 := filter_c p r in
      Normal (if (b : bool) then x :: r2 else r2)
  end.

(** [arr.findIndex(p)], with [None] for -1. *)
Fixpoint findIndex {A : Type} (p : A -> bool) (l : list A) : option nat :=
  match l with
  | [] => None
  | x :: r => if p x then Some O else option_map S (findIndex p r)
  end.

(** [hashIdentifier(req)] *)
Definition hashIdentifier (env : Env) (user_agent : option string) : string :=
  let userAgent := match user_agent with
                   | Some s => if String.eqb s "" then "" else s
                   | None => ""
                   end in
  let timestamp := number_to_string (int (Date_now env)) in
  Sha256.sha256_hex (userAgent +:+ timestamp).

(** ** Categories *)

(** [GET /api/categories] *)
Definition get_categories (st : store) : outcome :=
  reply 200 (Categories (categoriesFile st)).

(** [GET /api/admin/categories] *)
Definition get_admin_categories (isAdmin : bool) (st : store) : outcome :=
  if negb isAdmin then reply 401 (Error "Unauthorized")
  else reply 200 (Categories (categoriesFile st)).

(** [POST /api/admin/categories].  The new category is given as
    [writeCategories] puts it into the file and as [res.json] sends it. *)
Definition post_admin_categories (env : Env) (isAdmin : bool)
    (name description : value) (st : store) : outcome :=
  if negb isAdmin then reply 401 (Error "Unauthorized")
  else if negb (truthy name) then reply 400 (Error "Name is required")
  else
    let categories := categoriesFile st in
    let newCategory :=
      Category.mk (randomUUID env) (json_value name)
                  (json_value (js_or description (VStr ""))) in
    reply_after (WriteCategories (categories ++ [newCategory])) 201 (OneCategory newCategory).

Definition is_undefined (v : value) : bool :=
  match v with VUndefined => true | _ => false end.

(** [PUT /api/admin/categories/:id].  The values assigned are given as
    [writeCategories] puts them into the file. *)
Definition put_admin_categories (isAdmin : bool) (id : string)
    (name description : value) (st : store) : outcome :=
  if negb isAdmin then reply 401 (Error "Unauthorized")
  else
    let categories := categoriesFile st in
    match findIndex (fun c => String.eqb (Category.id c) id) categories with
    | None => reply 404 (Error "Category not found")
    | Some idx =>
        match categories !! idx with
        | None => reply 500 (Error "Internal server error") (* no such index *)
        | Some c0 =>
            let c1 := if truthy name
                      then Category.mk (Category.id c0) (json_value name)
                                       (Category.description c0)
                      else c0 in
            let c2 := if negb (is_undefined description)
                      then Category.mk (Category.id c1) (Category.name c1)
                                       (json_value description)
                      else c1 in
            reply_after (WriteCategories (<[idx := c2]> categories)) 200 (OneCategory c2)
        end
    end.

(** [DELETE /api/admin/categories/:id] *)
Definition delete_admin_categories (isAdmin : bool) (id : string) (st : store) : outcome :=
  if negb isAdmin then reply 401 (Error "Unauthorized")
  else
    let categories := categoriesFile st in
    let exists_ := existsb (fun c => String.eqb (Category.id c) id) categories in
    if negb exists_ then reply 404 (Error "Category not found")
    else
      let feedback := feedbackFile st in
      let inUse := existsb (fun f => strict_equal (Feedback.category f) (VStr id)) feedback in
      if inUse then reply 400 (Error "Cannot delete category in use by feedback")
      else
        let updated := List.filter (fun c => negb (String.eqb (Category.id c) id)) categories in
        reply_after (WriteCategories updated) 200 Success.

(** ** Feedback *)

(** The category lookup of [POST /api/feedback]: by id first, then by
    lower-cased name; [None] is the [null] the variable starts with. *)
Definition resolve_category (categories : list Category.t) (category : value)
  : completion (option string) :=
  match List.find (fun c => strict_equal (VStr (Category.id c)) category) categories with
  | Some byId => Normal (Some (Category.id byId))
  | None =>
      let* byName :=
        find_c (fun c =>
                  let* lc := call_toLowerCase (Category.name c) in
                  Normal (String.eqb lc (toLowerCase (ToString category))))
               categories in
      Normal (option_map Category.id byName)
  end.

(** The [newFeedback] literal of [POST /api/feedback], as [writeFeedback]
    puts it into the file: [JSON.stringify] writes a rating that is NaN, and
    every number of the comment that is not finite, as [null]. *)
Definition newFeedback (env : Env) (user_agent : option string)
    (categoryId : string) (rating comment : value) : Feedback.t := {|
  Feedback.feedback_id := randomUUID env;
  Feedback.category := VStr categoryId;
  Feedback.rating := json_number (parseInt rating);
  Feedback.comment := json_value comment;
  Feedback.status := VStr "open";
  Feedback.admin_note := "";
  Feedback.timestamp := new_Date env;
  Feedback.hash := hashIdentifier env user_agent
|}.

(** [POST /api/feedback] *)
Definition post_feedback (env : Env) (user_agent : option string)
    (category rating comment : value) (st : store) : outcome :=
  try_catch (
    if negb (truthy category) || negb (truthy rating) || negb (truthy comment)
    then Normal (reply 400 (Error "All fields are required"))
    else
      let* len := get_length comment in
      if lt_number len (int 5)
      then Normal (reply 400 (Error "Comment must be at least 5 characters long"))
      else if lt_number rating (int 1) || gt_number rating (int 5)
      then Normal (reply 400 (Error "Rating must be between 1 and 5"))
      else
        let categories := categoriesFile st in
        let* categoryId := resolve_category categories category in
        match categoryId with
        | None => Normal (reply 400 (Error "Invalid category"))
        | Some cid =>
            if String.eqb cid ""
            then Normal (reply 400 (Error "Invalid category"))
            else
              let feedback := feedbackFile st in
              let entry := newFeedback env user_agent cid rating comment in
              Normal (reply_after (WriteFeedback (feedback ++ [entry])) 201
                        (Submitted "Feedback submitted successfully"
                                   (Feedback.feedback_id entry)))
        end).

(** The query string of [GET /api/admin/feedback]; [None] is a parameter
    that is absent. *)
Record query : Type := {
  q_category : option string;
  q_rating : option string;
  q_search : option string;
  q_startDate : option string;
  q_endDate : option string;
  q_status : option string
}.

(** [if (p)] on a query parameter: present and not empty. *)
Definition given (p : option string) : option string :=
  match p with
  | Some s => if String.eqb s "" then None else Some s
  | None => None
  end.

(** [if (p && p !== 'all')] *)
Definition given_not_all (p : option string) : option string :=
  match given p with
  | Some s => if String.eqb s "all" then None else Some s
  | None => None
  end.

(** [arr.filter(p)] when the parameter [param] selects, [arr] otherwise. *)
Definition filter_when {A : Type} (param : option string) (p : string -> A -> bool)
    (l : list A) : list A :=
  match param with
  | Some s => List.filter (p s) l
  | None => l
  end.

(** The callback of the search filter, for the lower-cased query [q]. *)
Definition matches_search (q : string) (f : Feedback.t) : completion bool :=
  let* in_comment :=
    if truthy (Feedback.comment f)
    then let* lc := call_toLowerCase (Feedback.comment f) in Normal (includes lc q)
    else Normal false in
  if (in_comment : bool) then Normal true
  else Normal (negb (String.eqb (Feedback.admin_note f) "")
               && includes (toLowerCase (Feedback.admin_note f)) q).

(** The comparator of the final sort: [new Date(b.timestamp) - new Date(a.timestamp)]. *)
Definition newest_first (a b : Feedback.t) : number :=
  num_sub (int (Feedback.timestamp b)) (int (Feedback.timestamp a)).

Section DateParsing.
(** [new Date(s).getTime()] for a string [s]: the instant, or NaN for an
    invalid date.  Which strings beyond the ISO format parse is left to the
    engine (ECMA-262, 21.4.3.2), so the handler is given over any parser. *)
Variable Date_parse : string -> number.

(** [GET /api/admin/feedback] *)
Definition get_admin_feedback (isAdmin : bool) (q : query) (st : store) : outcome :=
  try_catch (
    if negb isAdmin then Normal (reply 401 (Error "Unauthorized"))
    else
      let feedback := feedbackFile st in
      let f1 := filter_when (given_not_all (q_category q))
                  (fun c f => strict_equal (Feedback.category f) (VStr c)) feedback in
      let f2 := filter_when (given_not_all (q_rating q))
                  (fun r f => strict_equal (Feedback.rating f) (VNum (parseInt_string r))) f1 in
      let f3 := filter_when (given_not_all (q_status q))
                  (fun s f => strict_equal (js_or (Feedback.status f) (VStr "open")) (VStr s)) f2 in
      let f4 := filter_when (given (q_startDate q))
                  (fun d f => num_ge (int (Feedback.timestamp f)) (Date_parse d)) f3 in
      let f5 := filter_when (given (q_endDate q))
                  (fun d f => num_le (int (Feedback.timestamp f)) (Date_parse d)) f4 in
      let* f6 := match given (q_search q) with
            | Some search => filter_c (matches_search (toLowerCase search)) f5
            | None => Normal f5
            end in
      Normal (reply 200 (FeedbackList (sort newest_first f6)))).
End DateParsing.

(** [GET /api/admin/feedback/:id] *)
Definition get_admin_feedback_by_id (isAdmin : bool) (id : string) (st : store) : outcome :=
  if negb isAdmin then reply 401 (Error "Unauthorized")
  else
    match List.find (fun f => String.eqb (Feedback.feedback_id f) id) (feedbackFile st) with
    | None => reply 404 (Error "Feedback not found")
    | Some item => reply 200 (OneFeedback item)
    end.

Definition allowed : list value := [VStr "open"; VStr "in_progress"; VStr "completed"].

(** [PUT /api/admin/feedback/:id] *)
Definition put_admin_feedback (isAdmin : bool) (id : string)
    (status admin_note category : value) (st : store) : outcome :=
  if negb isAdmin then reply 401 (Error "Unauthorized")
  else
    let feedback := feedbackFile st in
    match findIndex (fun f => String.eqb (Feedback.feedback_id f) id) feedback with
    | None => reply 404 (Error "Feedback not found")
    | Some idx =>
        match feedback !! idx with
        | None => reply 500 (Error "Internal server error") (* no such index *)
        | Some f0 =>
            if negb (is_undefined status) && negb (array_includes allowed status)
            then reply 400 (Error "Invalid status")
            else
              let f1 := if negb (is_undefined status)
                        then Feedback.set_status status f0 else f0 in
              let f2 := if negb (is_undefined admin_note)
                        then Feedback.set_admin_note (ToString admin_note) f1 else f1 in
              if negb (is_undefined category)
                 && negb (existsb (fun c => strict_equal (VStr (Category.id c)) category)
                                  (categoriesFile st))
              then reply 400 (Error "Invalid category")
              else
                let f3 := if negb (is_undefined category)
                          then Feedback.set_category category f2 else f2 in
                reply_after (WriteFeedback (<[idx := f3]> feedback)) 200 (OneFeedback f3)
        end
    end.

(** [DELETE /api/admin/feedback/:id] *)
Definition delete_admin_feedback (isAdmin : bool) (id : string) (st : store) : outcome :=
  if negb isAdmin then reply 401 (Error "Unauthorized")
  else
    let feedback := feedbackFile st in
    let exists_ := existsb (fun f => String.eqb (Feedback.feedback_id f) id) feedback in
    if negb exists_ then reply 404 (Error "Feedback not found")
    else
      let updated := List.filter (fun f => negb (String.eqb (Feedback.feedback_id f) id)) feedback in
      reply_after (WriteFeedback updated) 200 (Deleted 1).

(** [POST /api/admin/feedback/bulk-delete] *)
Definition bulk_delete (isAdmin : bool) (ids : value) (st : store) : outcome :=
  if negb isAdmin then reply 401 (Error "Unauthorized")
  else
    match ids with
    | VArr ((_ :: _) as set) =>
        let feedback := feedbackFile st in
        let before := Z.of_nat (List.length feedback) in
        let updated :=
          List.filter (fun f => negb (array_includes set (VStr (Feedback.feedback_id f))))
                      feedback in
        let deleted := before - Z.of_nat (List.length updated) in
        reply_after (WriteFeedback updated) 200 (Deleted deleted)
    | _ => reply 400 (Error "ids array is required")
    end.

(** ** Analytics *)

(** The reducer of [wordCount]: [acc[word] = (acc[word] || 0) + 1]. *)
Definition count_word (acc : list (string * value)) (word : string) : list (string * value) :=
  object_set acc word (js_add (js_or (object_get acc word) (VNum (int 0))) (VNum (int 1))).

(** The comparator [([,a], [,b]) => b - a]. *)
Definition by_count (x y : string * value) : number := js_sub (snd y) (snd x).

Definition commonWords (feedback : list Feedback.t) : list (string * value) :=
  let allComments := toLowerCase (join " " (map Feedback.comment feedback)) in
  let words := match_words allComments in
  let wordCount := fold_left count_word words [] in
  firstn 10 (sort by_count (object_entries wordCount)).

(** [GET /api/admin/analytics] *)
Definition get_admin_analytics (isAdmin : bool) (st : store) : outcome :=
  if negb isAdmin then reply 401 (Error "Unauthorized")
  else
    let feedback := feedbackFile st in
    reply 200 (Analytics (Z.of_nat (List.length feedback)) (commonWords feedback)).

(** ** The server as a transition system *)

Inductive request : Type :=
| GET_categories
| GET_admin_categories (isAdmin : bool)
| POST_admin_categories (isAdmin : bool) (name description : value)
| PUT_admin_categories (isAdmin : bool) (id : string) (name description : value)
| DELETE_admin_categories (isAdmin : bool) (id : string)
| POST_feedback (user_agent : option string) (category rating comment : value)
| GET_admin_feedback (isAdmin : bool) (q : query)
| GET_admin_feedback_by_id (isAdmin : bool) (id : string)
| PUT_admin_feedback (isAdmin : bool) (id : string) (status admin_note category : value)
| DELETE_admin_feedback (isAdmin : bool) (id : string)
| POST_admin_feedback_bulk_delete (isAdmin : bool) (ids : value)
| GET_admin_analytics (isAdmin : bool).

Definition handle (Date_parse : string -> number) (env : Env) (req : request)
    (st : store) : outcome :=
  match req with
  | GET_categories => get_categories st
  | GET_admin_categories a => get_admin_categories a st
  | POST_admin_categories a n d => post_admin_categories env a n d st
  | PUT_admin_categories a i n d => put_admin_categories a i n d st
  | DELETE_admin_categories a i => delete_admin_categories a i st
  | POST_feedback ua c r m => post_feedback env ua c r m st
  | GET_admin_feedback a q => get_admin_feedback Date_parse a q st
  | GET_admin_feedback_by_id a i => get_admin_feedback_by_id a i st
  | PUT_admin_feedback a i s n c => put_admin_feedback a i s n c st
  | DELETE_admin_feedback a i => delete_admin_feedback a i st
  | POST_admin_feedback_bulk_delete a ids => bulk_delete a ids st
  | GET_admin_analytics a => get_admin_analytics a st
  end.

(** The files after a call to [writeFeedback] or [writeCategories]. *)
Definition write (st : store) (e : effect) : store :=
  match e with
  | WriteFeedback l => {| feedbackFile := l; categoriesFile := categoriesFile st |}
  | WriteCategories l => {| feedbackFile := feedbackFile st; categoriesFile := l |}
  end.

Definition run (st : store) (o : outcome) : store := fold_left write (effects o) st.

(** The states of the files a run of the server passes through. *)
Inductive reachable : store -> Prop :=
| reachable_initial : reachable initial
| reachable_step parse env req st :
    reachable st -> reachable (run st (handle parse env req st)).

End Server.


(* ================================================================= *)
(** * Vocabulary of the specification *)

Import JS Server.

(** The entry [f] carries the category id [id]. *)
Definition references (id : string) (f : Feedback.t) : Prop :=
  Feedback.category f = VStr id.

Definition category_exists (id : string) (st : store) : Prop :=
  Exists (fun c => Category.id c = id) (categoriesFile st).

Definition referenced (id : string) (st : store) : Prop :=
  Exists (references id) (feedbackFile st).

(** Every entry carries the id of a category of the collection. *)
Definition referential_integrity (st : store) : Prop :=
  Forall (fun f => exists c, In c (categoriesFile st) /\ references (Category.id c) f)
         (feedbackFile st).

Definition valid_status (v : value) : Prop :=
  v = VStr "open" \/ v = VStr "in_progress" \/ v = VStr "completed".

(** The fields of an entry that [PUT /api/admin/feedback/:id] never assigns. *)
Definition same_frame (f g : Feedback.t) : Prop :=
  Feedback.feedback_id g = Feedback.feedback_id f /\
  Feedback.rating g = Feedback.rating f /\
  Feedback.comment g = Feedback.comment f /\
  Feedback.timestamp g = Feedback.timestamp f /\
  Feedback.hash g = Feedback.hash f.

(** How one request changes the two files: the seven shapes a call to
    [writeFeedback] or [writeCategories] can take, and no call at all. *)
Inductive change (st : store) : store -> Prop :=
| unchanged : change st st
| feedback_added env ua c rating comment :
    In c (categoriesFile st) ->
    change st {| feedbackFile :=
                   feedbackFile st ++ [newFeedback env ua (Category.id c) rating comment];
                 categoriesFile := categoriesFile st |}
| feedback_updated idx f g :
    feedbackFile st !! idx = Some f ->
    same_frame f g ->
    Feedback.status g = Feedback.status f \/ valid_status (Feedback.status g) ->
    Feedback.category g = Feedback.category f \/
      (exists c, In c (categoriesFile st) /\ references (Category.id c) g) ->
    change st {| feedbackFile := <[idx := g]> (feedbackFile st);
                 categoriesFile := categoriesFile st |}
| feedback_removed keep :
    change st {| feedbackFile := List.filter keep (feedbackFile st);
                 categoriesFile := categoriesFile st |}
| category_added c :
    change st {| feedbackFile := feedbackFile st;
                 categoriesFile := categoriesFile st ++ [c] |}
| category_updated idx c d :
    categoriesFile st !! idx = Some c ->
    Category.id d = Category.id c ->
    change st {| feedbackFile := feedbackFile st;
                 categoriesFile := <[idx := d]> (categoriesFile st) |}
| category_removed id :
    Forall (fun f => ~ references id f) (feedbackFile st) ->
    change st {| feedbackFile := feedbackFile st;
                 categoriesFile :=
                   List.filter (fun c => negb (String.eqb (Category.id c) id))
                               (categoriesFile st) |}.

(** The text of a comment that is a string. *)
Definition comment_text (f : Feedback.t) : string :=
  match Feedback.comment f with
  | VStr s => s
  | _ => ""
  end.

(** The search string occurs, up to case, in the comment or in the admin
    note. *)
Definition contains_text (search : string) (f : Feedback.t) : bool :=
  includes (toLowerCase (comment_text f)) (toLowerCase search)
  || includes (toLowerCase (Feedback.admin_note f)) (toLowerCase search).

Definition when {A : Type} (param : option A) (test : A -> bool) : bool :=
  match param with
  | Some a => test a
  | None => true
  end.

(** The conjunction of the filters of a query, over the values of its
    parameters [c], [r], [s], [from], [to] and [search] that count. *)
Definition conjunction (parse : string -> number)
    (c r s from to search : option string) (f : Feedback.t) : bool :=
  when c (fun c => strict_equal (Feedback.category f) (VStr c))
  && when r (fun r => strict_equal (Feedback.rating f) (VNum (parseInt_string r)))
  && when s (fun s => strict_equal (js_or (Feedback.status f) (VStr "open")) (VStr s))
  && when from (fun d => num_ge (int (Feedback.timestamp f)) (parse d))
  && when to (fun d => num_le (int (Feedback.timestamp f)) (parse d))
  && when search (fun s => contains_text s f).

(** The selection as the handler makes it: a parameter that is empty does
    not count, and neither does the value [all] of [category], [rating] and
    [status]. *)
Definition selects (parse : string -> number) (q : query) (f : Feedback.t) : bool :=
  conjunction parse
    (given_not_all (q_category q)) (given_not_all (q_rating q))
    (given_not_all (q_status q)) (given (q_startDate q)) (given (q_endDate q))
    (given (q_search q)) f.

(** The selection as the specification words it: every parameter that is
    supplied counts. *)
Definition spec_selects (parse : string -> number) (q : query) (f : Feedback.t) : bool :=
  conjunction parse
    (q_category q) (q_rating q) (q_status q) (q_startDate q) (q_endDate q)
    (q_search q) f.

(** Every character of [s] satisfies [p]. *)
Fixpoint all_chars (p : ascii -> bool) (s : string) : Prop :=
  match s with
  | EmptyString => True
  | String c r => p c = true /\ all_chars p r
  end.

(** The keys a plain object answers for without having them. *)
Definition inherited (w : string) : bool :=
  String.eqb w "__proto__" || is_in w object_prototype_methods.

(** How often [w] occurs in [ws]. *)
Definition occurrences (w : string) (ws : list string) : Z :=
  Z.of_nat (count_occ string_dec ws w).

(** The own properties [acc] hold the number of occurrences of each word of
    [ws], and nothing else. *)
Definition counted (acc : list (string * value)) (ws : list string) : Prop :=
  NoDup (map fst acc) /\
  forall w, assoc w acc =
            if 0 <? occurrences w ws then Some (VNum (int (occurrences w ws))) else None.

(** The count of an entry of [commonWords] when it is an integer. *)
Definition count_of (e : string * value) : Z :=
  match snd e with
  | VNum (Dec m 0) => m
  | _ => 0
  end.

(** The words the analytics route counts. *)
Definition words_of (feedback : list Feedback.t) : list string :=
  match_words (toLowerCase (join " " (map Feedback.comment feedback))).

(** Newest first. *)
Definition not_older (a b : Feedback.t) : Prop :=
  Feedback.timestamp a >= Feedback.timestamp b.

(** ** Sample data *)

Definition no_dates (s : string) : number := NaN.

Definition env1 : Env :=
  {| randomUUID := "3f1c7a52-9b1e-4c0d-8a66-0d2f5e9b7c11";
     new_Date := 1700000000000; Date_now := 1700000000000 |}.

Definition env2 : Env :=
  {| randomUUID := "a8d4e0b3-57c2-4f19-b3a1-6c9e2d7f4e20";
     new_Date := 1700000000000; Date_now := 1700000000000 |}.

Definition agent : option string := Some "Mozilla/5.0".

(** The files after one submission to the fresh server. *)
Definition store1 : store :=
  run initial (post_feedback env1 agent (VStr "general") (VNum (int 4))
                 (VStr "Great course") initial).


(** A query that asks for the category [all], the value the category
    filter of the dashboard has by default. *)
Definition all_categories : query :=
  {| q_category := Some "all"; q_rating := None; q_search := None;
     q_startDate := None; q_endDate := None; q_status := None |}.

(** A query with every kind of filter but the dates. *)
Definition open_general_great : query :=
  {| q_category := Some "general"; q_rating := Some "4"; q_search := Some "GREAT";
     q_startDate := Some ""; q_endDate := None; q_status := Some "open" |}.

(** The files after a submission whose comment uses the word constructor. *)
Definition store2 : store :=
  run initial (post_feedback env1 agent (VStr "general") (VNum (int 2))
                 (VStr "The constructor bug") initial).

(* ================================================================= *)
(** * Further vocabulary *)

(** A digit of a lower-case hexadecimal numeral. *)
Definition is_hex (c : ascii) : bool :=
  is_digit c || ((97 <=? code c) && (code c <=? 102)).

(** What the handlers guarantee of an entry they have written: the rating is
    an integer or [null], and a comment that is a string has at least 5
    characters. *)
Definition checked_entry (f : Feedback.t) : Prop :=
  (Feedback.rating f = VNull \/ exists z, Feedback.rating f = VNum (int z)) /\
  (forall s, Feedback.comment f = VStr s -> (5 <= String.length s)%nat).

(** The ids of a collection of categories, in order. *)
Definition category_ids (l : list Category.t) : list string := map Category.id l.

(** The request writes to feedback.json only, to categories.json only, or
    to neither. *)
Definition writes_feedback_only (o : outcome) : Prop :=
  effects o = [] \/ exists l, effects o = [WriteFeedback l].
Definition writes_categories_only (o : outcome) : Prop :=
  effects o = [] \/ exists l, effects o = [WriteCategories l].

(* ================================================================= *)
(** * The admin session *)

Module Session.

(** The two variables of [process.env] the credentials are read from. *)
Record environment : Type := {
  env_ADMIN_USERNAME : option string;
  env_ADMIN_PASSWORD : option string
}.

(** [process.env.X || d] *)
Definition or_default (variable : option string) (d : string) : string :=
  match variable with
  | Some s => if String.eqb s "" then d else s
  | None => d
  end.

Definition ADMIN_USERNAME (e : environment) : string :=
  or_default (env_ADMIN_USERNAME e) "admin".
Definition ADMIN_PASSWORD (e : environment) : string :=
  or_default (env_ADMIN_PASSWORD e) "admin123".

(** [req.session]: the [isAdmin] flag is [true] or absent. *)
Record session : Type := { isAdmin : bool }.

(** The session of a client that has none yet, or whose session was
    destroyed or has expired. *)
Definition fresh : session := {| isAdmin := false |}.

Inductive body : Type :=
| LoginSuccessful
| InvalidCredentials
| LoggedOut
| IsAdmin (isAdmin : bool).

Record outcome : Type := {
  status : Z;
  json : body;
  after : session
}.

(** [POST /api/admin/login] *)
Definition post_admin_login (e : environment) (username password : value)
    (s : session) : outcome :=
  if strict_equal username (VStr (ADMIN_USERNAME e))
     && strict_equal password (VStr (ADMIN_PASSWORD e))
  then {| status := 200; json := LoginSuccessful; after := {| isAdmin := true |} |}
  else {| status := 401; json := InvalidCredentials; after := s |}.

(** [POST /api/admin/logout] *)
Definition post_admin_logout (s : session) : outcome :=
  {| status := 200; json := LoggedOut; after := fresh |}.

(** [GET /api/admin/check] *)
Definition get_admin_check (s : session) : outcome :=
  {| status := 200; json := IsAdmin (isAdmin s); after := s |}.

(** What happens to the session of one client: its requests to the three
    session routes, and the loss of the session when its cookie expires or
    the server's memory store is emptied. *)
Inductive event : Type :=
| Login (username password : value)
| Logout
| Check
| Expired.

Definition step (e : environment) (s : session) (ev : event) : session :=
  match ev with
  | Login username password => after (post_admin_login e username password s)
  | Logout => after (post_admin_logout s)
  | Check => after (get_admin_check s)
  | Expired => fresh
  end.

Definition session_after (e : environment) (events : list event) : session :=
  fold_left (step e) events fresh.

(** A login with the configured credentials. *)
Definition good_login (e : environment) (ev : event) : Prop :=
  ev = Login (VStr (ADMIN_USERNAME e)) (VStr (ADMIN_PASSWORD e)).

(** An event that ends an admin session. *)
Definition ends_session (ev : event) : Prop := ev = Logout \/ ev = Expired.

End Session.

(** The [isAdmin] flag a request to one of the ten admin routes for
    categories, feedback and analytics is handled with; [None] for the two
    public routes.  The three session routes under [/api/admin] are those
    of [Session]. *)
Definition admin_flag (req : request) : option bool :=
  match req with
  | GET_categories | POST_feedback _ _ _ _ => None
  | GET_admin_categories a | POST_admin_categories a _ _ | PUT_admin_categories a _ _ _
  | DELETE_admin_categories a _ | GET_admin_feedback a _ | GET_admin_feedback_by_id a _
  | PUT_admin_feedback a _ _ _ _ | DELETE_admin_feedback a _
  | POST_admin_feedback_bulk_delete a _ | GET_admin_analytics a => Some a
  end.

(** The credentials when the environment sets none. *)
Definition no_environment : Session.environment :=
  {| Session.env_ADMIN_USERNAME := None; Session.env_ADMIN_PASSWORD := None |}.

(* ================================================================= *)
(** * Objects built from entries *)

(** What a plain object answers for a key it does not have itself. *)
Definition inherited_value (k : string) : value :=
  if String.eqb k "__proto__" then VObj []
  else if is_in k object_prototype_methods then VFunction (function_name k)
  else VUndefined.

(** [obj[k]] on a plain object built by [Object.fromEntries] or by
    [JSON.parse], which define every key, [__proto__] included, as an own
    property. *)
Definition property_get (own : list (string * value)) (k : string) : value :=
  match assoc k own with
  | Some v => v
  | None => inherited_value k
  end.

(** [Object.fromEntries(entries)]: a later entry replaces the value of an
    earlier one with the same key. *)
Definition fromEntries (entries : list (string * value)) : list (string * value) :=
  fold_left (fun obj kv => assoc_set (fst kv) (snd kv) obj) entries [].

(* ================================================================= *)
(** * The normalisation at start-up *)

Module Startup.

(** [categories.map(c => [c.name.toLowerCase(), c.id])] *)
Fixpoint name_entries (categories : list Category.t) : completion (list (string * value)) :=
  match categories with
  | [] => Normal []
  | c :: r =>
      bind (call_toLowerCase (Category.name c)) (fun lc =>
      bind (name_entries r) (fun rest =>
      Normal ((lc, VStr (Category.id c)) :: rest)))
  end.

(** [typeof v === 'string'] *)
Definition is_string (v : value) : bool :=
  match v with VStr _ => true | _ => false end.

(** What the file holds for a property that was assigned [v]:
    [JSON.stringify] leaves out a property whose value is a function. *)
Definition json_property (v : value) : value :=
  match v with
  | VFunction _ => VUndefined
  | _ => v
  end.

(** The first test of the loop: a category that is not an id but, as a
    string, names a category is replaced by what [byName] holds for it.  The
    second component tells whether the entry was changed. *)
Definition normalize_category (byName : list (string * value)) (byId : list value)
    (f : Feedback.t) : Feedback.t * bool :=
  if negb (array_includes byId (Feedback.category f)) && is_string (Feedback.category f)
  then
    let id := property_get byName (toLowerCase (ToString (Feedback.category f))) in
    if truthy id then (Feedback.set_category (json_property id) f, true) else (f, false)
  else (f, false).

(** The second test: a falsy status becomes open. *)
Definition normalize_status (f : Feedback.t) : Feedback.t * bool :=
  if negb (truthy (Feedback.status f))
  then (Feedback.set_status (VStr "open") f, true)
  else (f, false).

Definition normalize_entry (byName : list (string * value)) (byId : list value)
    (f : Feedback.t) : Feedback.t * bool :=
  let (f1, c1) := normalize_category byName byId f in
  let (f2, c2) := normalize_status f1 in
  (f2, c1 || c2).

(** [normalizeData()], on entries that carry an admin note, as every entry
    of the model does: the third test of the loop, for a missing note, never
    applies to them.  An exception is caught and logged, and nothing is
    written. *)
Definition normalizeData (st : store) : list effect :=
  match name_entries (categoriesFile st) with
  | Throw _ => []
  | Normal entries =>
      let byName := fromEntries entries in
      let byId := map (fun c => VStr (Category.id c)) (categoriesFile st) in
      let result := map (normalize_entry byName byId) (feedbackFile st) in
      if existsb snd result then [WriteFeedback (map fst result)] else []
  end.

(** The key under which [byName] files a category whose name is a string. *)
Definition name_key (c : Category.t) : string :=
  match Category.name c with
  | VStr n => toLowerCase n
  | _ => ""
  end.

(** The files after the server has started on them. *)
Definition restart (st : store) : store := fold_left write (normalizeData st) st.

End Startup.

(** The files of a server that was upgraded from the version that stored
    the name of the category: two categories share a name up to case. *)
Definition legacy_store : store := {|
  feedbackFile :=
    [Feedback.mk "f-1" (VStr "Course Content") (VNum (int 5)) (VStr "Very clear")
       VUndefined "" 1690000000000 "00";
     Feedback.mk "f-2" (VStr "c-1") (VNum (int 3)) (VStr "It was fine")
       (VStr "completed") "seen" 1690000000001 "01"];
  categoriesFile :=
    [Category.mk "c-1" (VStr "Course content") (VStr "");
     Category.mk "c-2" (VStr "COURSE CONTENT") (VStr "")]
|}.

(* ================================================================= *)
(** * The distributions of the analytics route *)

(** The reducer [(acc, f) => { acc[k] = (acc[k] || 0) + 1; return acc; }]
    run over the entries from [{}], where [k] is a property of the entry:
    the key of the property is its ToString. *)
Definition tally (key : Feedback.t -> value) (feedback : list Feedback.t)
  : list (string * value) :=
  fold_left (fun acc f => count_word acc (ToString (key f))) feedback [].

Definition categoryStats : list Feedback.t -> list (string * value) :=
  tally Feedback.category.

Definition ratingStats : list Feedback.t -> list (string * value) :=
  tally Feedback.rating.

Definition statusStats : list Feedback.t -> list (string * value) :=
  tally (fun f => js_or (Feedback.status f) (VStr "open")).

(** [Object.fromEntries(categories.map(c => [c.id, c.name]))] *)
Definition categoryMap (categories : list Category.t) : list (string * value) :=
  fromEntries (map (fun c => (Category.id c, Category.name c)) categories).

(** The sum of the counts of a distribution. *)
Definition sum_counts (acc : list (string * value)) : Z :=
  fold_right (fun e s => count_of e + s) 0 acc.

(** The number of entries whose status is [s]. *)
Definition with_status (s : string) (feedback : list Feedback.t) : Z :=
  Z.of_nat (List.length
              (List.filter (fun f => strict_equal (Feedback.status f) (VStr s)) feedback)).

(* ================================================================= *)
(** * The feedback form of the home page *)

Module HomePage.

(** The options of the category select. *)
Definition categories : list string :=
  ["Trainer Quality"; "Course Content"; "Placement Tips"; "Others"].

Record formData : Type := { category : string; rating : Z; comment : string }.

(** The form as it starts, and as it is reset after a submission. *)
Definition empty : formData := {| category := ""; rating := 0; comment := "" |}.

(** What a visitor does to the form: choose an option of the select, whose
    placeholder has the empty value, click one of the five stars, or edit
    the comment. *)
Inductive action : Type :=
| Select (option_value : string)
| ClickStar (star : Z)
| Edit (text : string).

Definition offered (a : action) : bool :=
  match a with
  | Select v => is_in v ("" :: categories)
  | ClickStar star => existsb (Z.eqb star) [1; 2; 3; 4; 5]
  | Edit _ => true
  end.

(** The [onChange] handlers and [handleRatingClick]. *)
Definition update (d : formData) (a : action) : formData :=
  match a with
  | Select v => {| category := v; rating := rating d; comment := comment d |}
  | ClickStar star => {| category := category d; rating := star; comment := comment d |}
  | Edit text => {| category := category d; rating := rating d; comment := text |}
  end.

Definition filled (actions : list action) : formData := fold_left update actions empty.

(** What [handleSubmit] comes to: an error shown to the visitor, or the
    fields of the body of the POST to /api/feedback. *)
Inductive submission : Type :=
| ShowError (message : string)
| Post (category rating comment : value).

Definition handleSubmit (d : formData) : submission :=
  if negb (truthy (VStr (category d))) || negb (truthy (VNum (int (rating d))))
     || negb (truthy (VStr (comment d)))
  then ShowError "Please fill in all fields"
  else if Z.of_nat (String.length (comment d)) <? 5
  then ShowError "Comment must be at least 5 characters long"
  else Post (VStr (category d)) (VNum (int (rating d))) (VStr (comment d)).

End HomePage.

(* ================================================================= *)
(** * The analytics tab of the dashboard *)

(** [a > b] (IsLessThan, 7.2.13): two operands that are strings after
    ToPrimitive are compared as strings, by their characters; any others as
    numbers. *)
Definition js_gt (a b : value) : bool :=
  if is_stringish a && is_stringish b then String.ltb (ToString b) (ToString a)
  else num_gt (ToNumber a) (ToNumber b).

Module Dashboard.

(** The callback of the [reduce] under Most Common Rating:
    [(a, b) => (stats[a[0]] || 0) > (stats[b[0]] || 0) ? a : b]. *)
Definition pick (stats : list (string * value)) (a b : string * value) : string * value :=
  if js_gt (js_or (property_get stats (fst a)) (VNum (int 0)))
           (js_or (property_get stats (fst b)) (VNum (int 0)))
  then a else b.

(** [Object.entries(stats).reduce(pick, ['0', 0])[0] || 'N/A'], where
    [stats] is the [ratingStats] of the response. *)
Definition mostCommonRating (stats : list (string * value)) : value :=
  js_or (VStr (fst (fold_left (pick stats) (object_entries stats) ("0", VNum (int 0)))))
        (VStr "N/A").

End Dashboard.
(* ================================================================= *)
(** * Properties *)

#[local] Arguments Sha256.sha256_hex : simpl never.
#[local] Arguments number_to_string : simpl never.
#[local] Arguments parseInt : simpl never.
#[local] Arguments toLowerCase : simpl never.
#[local] Arguments ToString : simpl never.

(** ** Equality tests against a string *)

Lemma strict_equal_str_l (a : string) (v : value) :
  strict_equal (VStr a) v = true <-> v = VStr a.
Proof.
  destruct v; simpl; try (split; [discriminate | congruence]).
  rewrite String.eqb_eq. split; congruence.
Qed.

Lemma strict_equal_str_r (v : value) (a : string) :
  strict_equal v (VStr a) = true <-> v = VStr a.
Proof.
  destruct v; simpl; try (split; [discriminate | congruence]).
  rewrite String.eqb_eq. split; congruence.
Qed.

Lemma same_value_zero_str (a : string) (v : value) :
  same_value_zero (VStr a) v = true <-> v = VStr a.
Proof. apply strict_equal_str_l. Qed.

Lemma array_includes_str (l : list value) (a : string) :
  array_includes l (VStr a) = true <-> In (VStr a) l.
Proof.
  unfold array_includes. rewrite existsb_exists. split.
  - intros (v & Hin & Hv). apply same_value_zero_str in Hv. now subst.
  - intros Hin. exists (VStr a). split; [assumption | now apply same_value_zero_str].
Qed.

Lemma allowed_spec (v : value) :
  array_includes allowed v = true <->
  v = VStr "open" \/ v = VStr "in_progress" \/ v = VStr "completed".
Proof.
  unfold array_includes, allowed. simpl.
  destruct v as [| | b | n | s | l | l | f]; simpl;
    try (split; [discriminate | intros [H | [H | H]]; discriminate]).
  - destruct n; simpl; split; try discriminate; intros [H | [H | H]]; discriminate.
  - cbn [existsb same_value_zero strict_equal].
    rewrite !Bool.orb_true_iff, !String.eqb_eq.
    split.
    + intros [H | [H | [H | H]]]; subst; auto. discriminate.
    + intros [H | [H | H]]; inversion H; auto.
Qed.

(** ** [findIndex] *)

Lemma findIndex_Some {A : Type} (p : A -> bool) (l : list A) (i : nat) :
  findIndex p l = Some i -> exists x, l !! i = Some x /\ p x = true.
Proof.
  revert i. induction l as [| y r IH]; simpl; intros i H; [discriminate |].
  destruct (p y) eqn:Hp.
  - inversion H; subst. exists y. auto.
  - destruct (findIndex p r) as [j |]; simpl in H; [| discriminate].
    inversion H; subst. destruct (IH j eq_refl) as (x & Hx & Hpx). eauto.
Qed.

Lemma findIndex_None {A : Type} (p : A -> bool) (l : list A) :
  findIndex p l = None -> forall x, In x l -> p x = false.
Proof.
  induction l as [| y r IH]; simpl; intros H x Hin; [contradiction |].
  destruct (p y) eqn:Hp; [discriminate |].
  destruct (findIndex p r) eqn:Hr; simpl in H; [discriminate |].
  destruct Hin as [-> | Hin]; auto.
Qed.

(** ** Errors write nothing *)

(** A handler calls [writeFeedback] or [writeCategories] only on the path
    that ends in a 200 or 201 response. *)
Lemma effects_only_on_success parse env req st :
  effects (handle parse env req st) <> [] ->
  status (handle parse env req st) = 200 \/ status (handle parse env req st) = 201.
Proof.
  destruct req; simpl;
    unfold get_categories, get_admin_categories, post_admin_categories,
      put_admin_categories, delete_admin_categories, post_feedback,
      get_admin_feedback, get_admin_feedback_by_id, put_admin_feedback,
      delete_admin_feedback, bulk_delete, get_admin_analytics,
      try_catch, bind, reply, reply_after;
    repeat case_match; simpl; intros Hne; auto; try congruence;
    repeat match goal with
    | E : Normal _ = Normal _ |- _ => inversion E; subst; clear E
    | E : context [match ?x with _ => _ end] |- _ => destruct x; try discriminate
    end; simpl in *; auto; try congruence.
Qed.

(** ** What the handlers of the mutating routes do *)

Lemma find_c_Some {A : Type} (p : A -> completion bool) (l : list A) (x : A) :
  find_c p l = Normal (Some x) -> In x l /\ p x = Normal true.
Proof.
  induction l as [| y r IH]; simpl; [discriminate |].
  unfold bind. destruct (p y) as [[|] | e] eqn:Hp; try discriminate.
  - intros H; inversion H; subst. auto.
  - intros H. destruct (IH H). auto.
Qed.

(** The category the lookup of [POST /api/feedback] settles on is in the
    collection; it was named by its id, or by its name up to case. *)
Lemma resolve_category_Some categories category cid :
  resolve_category categories category = Normal (Some cid) ->
  exists c, In c categories /\ Category.id c = cid /\
    (category = VStr cid \/
     exists n, Category.name c = VStr n /\
               toLowerCase n = toLowerCase (ToString category)).
Proof.
  unfold resolve_category.
  destruct (List.find _ categories) as [byId |] eqn:Hid.
  - intros H; inversion H; subst. apply find_some in Hid as [Hin Heq].
    apply strict_equal_str_l in Heq. eauto 6.
  - unfold bind. destruct (find_c _ categories) as [[byName |] | e] eqn:Hn;
      simpl; try discriminate.
    intros H; inversion H; subst. apply find_c_Some in Hn as [Hin Hp].
    unfold bind, call_toLowerCase in Hp.
    destruct (Category.name byName) as [| | | | n | | |] eqn:En; try discriminate.
    inversion Hp as [Heq]. apply String.eqb_eq in Heq. eauto 8.
Qed.

(** [POST /api/feedback] either writes nothing, or appends the new entry
    built for the category the lookup settled on and answers 201. *)
Lemma post_feedback_cases env ua category rating comment st :
  (effects (post_feedback env ua category rating comment st) = [] /\
   status (post_feedback env ua category rating comment st) <> 201) \/
  exists cid,
    resolve_category (categoriesFile st) category = Normal (Some cid) /\
    cid <> "" /\
    post_feedback env ua category rating comment st =
      reply_after
        (WriteFeedback (feedbackFile st ++ [newFeedback env ua cid rating comment]))
        201 (Submitted "Feedback submitted successfully" (randomUUID env)).
Proof.
  unfold post_feedback, try_catch, bind.
  repeat case_match; simpl; auto;
    repeat match goal with
    | E : Normal _ = Normal _ |- _ => inversion E; subst; clear E
    | E : Normal _ = Throw _ |- _ => discriminate E
    | E : Throw _ = Normal _ |- _ => discriminate E
    | E : context [match ?x with _ => _ end] |- _ => destruct x eqn:?; try discriminate
    | E : context [if ?x then _ else _] |- _ => destruct x eqn:?; try discriminate
    end; simpl; try (left; split; [reflexivity | discriminate]).
  right. eexists. repeat split; eauto.
  intros ->. discriminate.
Qed.

(** [PUT /api/admin/feedback/:id] either writes nothing, or replaces the
    first entry with the given id by one that differs from it in the assigned
    fields only, and answers 200. *)
Lemma put_admin_feedback_cases isAdmin id status note category st :
  (effects (put_admin_feedback isAdmin id status note category st) = [] /\
   Server.status (put_admin_feedback isAdmin id status note category st) <> 200) \/
  exists idx f g,
    isAdmin = true /\
    findIndex (fun f => String.eqb (Feedback.feedback_id f) id) (feedbackFile st) = Some idx /\
    feedbackFile st !! idx = Some f /\
    same_frame f g /\
    Feedback.status g = (if is_undefined status then Feedback.status f else status) /\
    (is_undefined status = false -> valid_status status) /\
    Feedback.admin_note g =
      (if is_undefined note then Feedback.admin_note f else ToString note) /\
    Feedback.category g =
      (if is_undefined category then Feedback.category f else category) /\
    (is_undefined category = false ->
     exists c, In c (categoriesFile st) /\ category = VStr (Category.id c)) /\
    put_admin_feedback isAdmin id status note category st =
      reply_after (WriteFeedback (<[idx := g]> (feedbackFile st))) 200 (OneFeedback g).
Proof.
  unfold put_admin_feedback.
  destruct isAdmin; [| left; split; [reflexivity | discriminate]].
  destruct (findIndex _ (feedbackFile st)) as [idx |] eqn:Hidx;
    [| left; split; [reflexivity | discriminate]].
  destruct (feedbackFile st !! idx) as [f |] eqn:Hf;
    [| left; split; [reflexivity | discriminate]].
  destruct (negb (is_undefined status) && negb (array_includes allowed status)) eqn:Hs;
    [left; split; [reflexivity | discriminate] |].
  destruct (negb (is_undefined category) && negb (existsb _ (categoriesFile st))) eqn:Hc;
    [left; split; [reflexivity | discriminate] |].
  right. exists idx, f. eexists.
  repeat match goal with |- _ /\ _ => split end.
  10: reflexivity.
  all: try reflexivity; try assumption.
  all: try (destruct (is_undefined status), (is_undefined note), (is_undefined category);
            repeat split; reflexivity).
  - intros Hu. rewrite Hu in Hs. simpl in Hs.
    apply Bool.negb_false_iff in Hs. now apply allowed_spec.
  - intros Hu. rewrite Hu in Hc. simpl in Hc.
    apply Bool.negb_false_iff, existsb_exists in Hc as (c & Hin & Heq).
    apply strict_equal_str_l in Heq. eauto.
Qed.

Lemma existsb_false_Forall {A : Type} (p : A -> bool) (l : list A) :
  existsb p l = false -> Forall (fun x => p x = false) l.
Proof.
  induction l as [| x r IH]; simpl; intros H; constructor;
    apply Bool.orb_false_iff in H as [Hx Hr]; auto.
Qed.

(** Every request changes the files in one of the shapes of [change]. *)
Lemma handle_change parse env req st :
  change st (run st (handle parse env req st)).
Proof.
  destruct st as [fb cats].
  destruct req as [| a | a n d | a i n d | a i | ua c r m | a q | a i
                   | a i s n c | a i | a ids | a]; simpl.
  - constructor.
  - unfold get_admin_categories. destruct a; constructor.
  - unfold post_admin_categories. destruct a; simpl; [| constructor].
    destruct (truthy n); simpl; [| constructor].
    apply (category_added {| feedbackFile := fb; categoriesFile := cats |}).
  - unfold put_admin_categories. destruct a; simpl; [| constructor].
    destruct (findIndex _ cats) as [idx |] eqn:Hidx; simpl; [| constructor].
    destruct (cats !! idx) as [c |] eqn:Hc; simpl; [| constructor].
    apply (category_updated {| feedbackFile := fb; categoriesFile := cats |} idx c);
      [assumption |].
    destruct (truthy n), (negb (is_undefined d)); reflexivity.
  - unfold delete_admin_categories. destruct a; simpl; [| constructor].
    destruct (existsb _ cats); simpl; [| constructor].
    destruct (existsb _ fb) eqn:Huse; simpl; [constructor |].
    apply (category_removed {| feedbackFile := fb; categoriesFile := cats |} i).
    simpl. apply existsb_false_Forall in Huse.
    eapply Forall_impl; [exact Huse |]. simpl. intros f Hf Href.
    apply strict_equal_str_r in Href. congruence.
  - destruct (post_feedback_cases env ua c r m
                {| feedbackFile := fb; categoriesFile := cats |})
      as [[Hnil _] | (cid & Hres & Hne & Heq)].
    + unfold run. rewrite Hnil. constructor.
    + rewrite Heq. simpl in *.
      apply resolve_category_Some in Hres as (c0 & Hin & <- & _).
      apply (feedback_added {| feedbackFile := fb; categoriesFile := cats |}
               env ua c0 r m Hin).
  - assert (Hnil : effects (get_admin_feedback parse a q
                              {| feedbackFile := fb; categoriesFile := cats |}) = []).
    { unfold get_admin_feedback, try_catch, bind.
      destruct (negb a); [reflexivity |].
      destruct (given (q_search q)); [destruct (filter_c _ _) |]; reflexivity. }
    unfold run. rewrite Hnil. constructor.
  - unfold get_admin_feedback_by_id. destruct a; simpl; [| constructor].
    destruct (List.find _ fb); constructor.
  - destruct (put_admin_feedback_cases a i s n c
                {| feedbackFile := fb; categoriesFile := cats |})
      as [[Hnil _] | (idx & f & g & _ & _ & Hf & Hframe & Hs & Hsv & _ & Hc & Hcv & Heq)].
    + unfold run. rewrite Hnil. constructor.
    + rewrite Heq. simpl in *.
      apply (feedback_updated {| feedbackFile := fb; categoriesFile := cats |} idx f g);
        auto.
      * destruct (is_undefined s); [left; assumption | right].
        rewrite Hs. auto.
      * destruct (is_undefined c); [left; assumption | right].
        destruct (Hcv eq_refl) as (c0 & Hin & Hcat).
        exists c0. split; [assumption |]. unfold references. congruence.
  - unfold delete_admin_feedback. destruct a; simpl; [| constructor].
    destruct (existsb _ fb); simpl; [| constructor].
    apply (feedback_removed {| feedbackFile := fb; categoriesFile := cats |}).
  - unfold bulk_delete. destruct a; simpl; [| constructor].
    destruct ids as [| | | | | [| x set] | |]; simpl; constructor.
  - unfold get_admin_analytics. destruct a; constructor.
Qed.

(** ** Invariants of the files *)

Lemma Forall_filter_keep {A : Type} (P : A -> Prop) (keep : A -> bool) (l : list A) :
  Forall P l -> Forall P (List.filter keep l).
Proof.
  rewrite !Forall_forall. intros H x Hx. apply H.
  apply list_elem_of_In. apply list_elem_of_In in Hx.
  apply filter_In in Hx. tauto.
Qed.

Lemma insert_keeps_ids (l : list Category.t) idx c d c0 :
  l !! idx = Some c -> Category.id d = Category.id c -> In c0 l ->
  exists c1, In c1 (<[idx := d]> l) /\ Category.id c1 = Category.id c0.
Proof.
  intros Hc Hid Hin. apply list_elem_of_In, list_elem_of_lookup in Hin as [j Hj].
  destruct (decide (j = idx)) as [-> | Hne].
  - exists d. split.
    + apply list_elem_of_In, list_elem_of_lookup. exists idx.
      apply list_lookup_insert_eq. eapply lookup_lt_Some; eassumption.
    + congruence.
  - exists c0. split; [| reflexivity].
    apply list_elem_of_In, list_elem_of_lookup. exists j.
    rewrite list_lookup_insert_ne; auto.
Qed.

Lemma change_integrity st st' :
  change st st' -> referential_integrity st -> referential_integrity st'.
Proof.
  unfold referential_integrity.
  intros [| env ua c r m Hin | idx f g Hf Hframe Hs Hc | keep | c
          | idx c d Hc Hid | id Hfree]; simpl; intros Hinv.
  - assumption.
  - apply Forall_app. split; [assumption |].
    constructor; [| constructor]. exists c. split; [assumption | reflexivity].
  - apply Forall_insert; [assumption |].
    destruct Hc as [Hc | Hc]; [| assumption].
    rewrite Forall_forall in Hinv.
    destruct (Hinv f) as (c & Hin & Href).
    { apply list_elem_of_lookup. eauto. }
    exists c. split; [assumption |]. unfold references in *. congruence.
  - now apply Forall_filter_keep.
  - eapply Forall_impl; [exact Hinv |]. simpl. intros f (c0 & Hin & Href).
    exists c0. split; [| assumption]. apply in_or_app. now left.
  - eapply Forall_impl; [exact Hinv |]. simpl. intros f (c0 & Hin & Href).
    destruct (insert_keeps_ids _ idx c d c0 Hc Hid Hin) as (c1 & Hin1 & Hid1).
    exists c1. split; [assumption |]. unfold references in *. congruence.
  - rewrite Forall_forall in *. intros f Hf.
    destruct (Hinv f Hf) as (c0 & Hin & Href).
    exists c0. split; [| assumption].
    apply filter_In. split; [assumption |].
    apply Bool.negb_true_iff, String.eqb_neq. intros Heq.
    apply (Hfree f Hf). unfold references in *. congruence.
Qed.

Lemma change_status st st' :
  change st st' ->
  Forall (fun f => valid_status (Feedback.status f)) (feedbackFile st) ->
  Forall (fun f => valid_status (Feedback.status f)) (feedbackFile st').
Proof.
  intros [| env ua c r m Hin | idx f g Hf Hframe Hs Hc | keep | c
          | idx c d Hc Hid | id Hfree]; simpl; intros Hinv; try assumption.
  - apply Forall_app. split; [assumption |].
    constructor; [| constructor]. left. reflexivity.
  - apply Forall_insert; [assumption |].
    destruct Hs as [Hs | Hs]; [| assumption].
    rewrite Hs. rewrite Forall_forall in Hinv. apply Hinv.
    apply list_elem_of_lookup. eauto.
  - now apply Forall_filter_keep.
Qed.

Lemma reachable_integrity st : reachable st -> referential_integrity st.
Proof.
  induction 1 as [| parse env req st Hreach IH].
  - constructor.
  - eapply change_integrity; [apply handle_change | assumption].
Qed.

Lemma reachable_status st :
  reachable st -> Forall (fun f => valid_status (Feedback.status f)) (feedbackFile st).
Proof.
  induction 1 as [| parse env req st Hreach IH].
  - constructor.
  - eapply change_status; [apply handle_change | assumption].
Qed.

Lemma reachable_store1 : reachable store1.
Proof.
  apply (reachable_step no_dates env1
           (POST_feedback agent (VStr "general") (VNum (int 4)) (VStr "Great course"))
           initial reachable_initial).
Qed.

(** C9. Every handler is atomic with respect to errors: when it answers 401,
    400 or 404 it has called neither [writeFeedback] nor [writeCategories],
    and the two files are as they were. *)
Theorem errors_write_nothing parse env req st :
  status (handle parse env req st) = 401 \/
  status (handle parse env req st) = 400 \/
  status (handle parse env req st) = 404 ->
  effects (handle parse env req st) = [] /\ run st (handle parse env req st) = st.
Proof.
  intros Herr.
  assert (Hnil : effects (handle parse env req st) = []).
  { destruct (effects (handle parse env req st)) eqn:E; [reflexivity |].
    destruct (effects_only_on_success parse env req st) as [H | H];
      [rewrite E; discriminate | |]; rewrite H in Herr;
      destruct Herr as [? | [? | ?]]; discriminate. }
  split; [assumption |]. unfold run. rewrite Hnil. reflexivity.
Qed.

Lemma errors_write_nothing_witness :
  status (handle no_dates env2
            (PUT_admin_feedback true (randomUUID env1) (VStr "closed") VUndefined VUndefined)
            store1) = 400 /\
  effects (handle no_dates env2
            (PUT_admin_feedback true (randomUUID env1) (VStr "closed") VUndefined VUndefined)
            store1) = [] /\
  run store1 (handle no_dates env2
            (PUT_admin_feedback true (randomUUID env1) (VStr "closed") VUndefined VUndefined)
            store1) = store1.
Proof.
  split; [vm_compute; reflexivity |].
  apply (errors_write_nothing no_dates env2
           (PUT_admin_feedback true (randomUUID env1) (VStr "closed") VUndefined VUndefined)
           store1).
  right; left. vm_compute. reflexivity.
Defined.

(** ** Deleting a category *)

Lemma exists_category_iff id st :
  existsb (fun c => String.eqb (Category.id c) id) (categoriesFile st) = true <->
  category_exists id st.
Proof.
  unfold category_exists. rewrite existsb_exists, Exists_exists. split.
  - intros (c & Hin & Heq). apply String.eqb_eq in Heq.
    exists c. split; [now apply list_elem_of_In | assumption].
  - intros (c & Hin & Heq). exists c.
    split; [now apply list_elem_of_In | now apply String.eqb_eq].
Qed.

Lemma in_use_iff id st :
  existsb (fun f => strict_equal (Feedback.category f) (VStr id)) (feedbackFile st) = true <->
  referenced id st.
Proof.
  unfold referenced, references. rewrite existsb_exists, Exists_exists. split.
  - intros (f & Hin & Heq). apply strict_equal_str_r in Heq.
    exists f. split; [now apply list_elem_of_In | assumption].
  - intros (f & Hin & Heq). exists f.
    split; [now apply list_elem_of_In | now apply strict_equal_str_r].
Qed.

Lemma referenced_exists id st :
  referential_integrity st -> referenced id st -> category_exists id st.
Proof.
  unfold referential_integrity, referenced, category_exists, references.
  rewrite Forall_forall, !Exists_exists.
  intros Hinv (f & Hin & Hcat). destruct (Hinv f Hin) as (c & Hc & Hf).
  exists c. split; [now apply list_elem_of_In | congruence].
Qed.

(** C2. For an authenticated admin and any state of the files the server
    can reach: if some entry references the category id, [DELETE
    /api/admin/categories/:id] answers 400 and leaves categories.json as it
    is; an id that no category has is answered with 404; and the handler
    writes the collection only when the category exists and no entry
    references it, the written collection being the old one without that
    category. *)
Theorem delete_category_guarded st id :
  reachable st ->
  (referenced id st ->
     status (delete_admin_categories true id st) = 400 /\
     effects (delete_admin_categories true id st) = [] /\
     categoriesFile (run st (delete_admin_categories true id st)) = categoriesFile st) /\
  (~ category_exists id st ->
     status (delete_admin_categories true id st) = 404 /\
     effects (delete_admin_categories true id st) = []) /\
  (effects (delete_admin_categories true id st) <> [] ->
     category_exists id st /\ ~ referenced id st /\
     status (delete_admin_categories true id st) = 200 /\
     effects (delete_admin_categories true id st) =
       [WriteCategories
          (List.filter (fun c => negb (String.eqb (Category.id c) id)) (categoriesFile st))]).
Proof.
  intros Hreach. apply reachable_integrity in Hreach.
  pose proof (exists_category_iff id st) as Hex.
  pose proof (in_use_iff id st) as Huse.
  pose proof (referenced_exists id st Hreach) as Hdangling.
  unfold delete_admin_categories, run. cbn [negb].
  destruct (existsb _ (categoriesFile st)) eqn:E1; cbn [negb].
  - destruct (existsb _ (feedbackFile st)) eqn:E2.
    + split; [| split].
      * intros _. cbn. auto.
      * intros Hno. exfalso. apply Hno, Hex. reflexivity.
      * cbn. intros Hno. contradiction.
    + split; [| split].
      * intros Hr. apply Huse in Hr. discriminate.
      * intros Hno. exfalso. apply Hno, Hex. reflexivity.
      * cbn. intros _. split; [apply Hex; reflexivity |].
        split; [intros Hr; apply Huse in Hr; discriminate |]. auto.
  - split; [| split].
    + intros Hr. apply Hdangling, Hex in Hr. discriminate.
    + intros _. cbn. auto.
    + cbn. intros Hno. contradiction.
Qed.

Lemma delete_category_guarded_witness :
  reachable store1 /\ referenced "general" store1 /\
  status (delete_admin_categories true "general" store1) = 400 /\
  effects (delete_admin_categories true "general" store1) = [] /\
  categoriesFile (run store1 (delete_admin_categories true "general" store1))
  = categoriesFile store1.
Proof.
  split; [exact reachable_store1 |].
  assert (Href : referenced "general" store1).
  { vm_compute. constructor. reflexivity. }
  split; [exact Href |].
  exact (proj1 (delete_category_guarded store1 "general" reachable_store1) Href).
Defined.

(** ** The status of an entry *)

Lemma findIndex_existsb {A : Type} (p : A -> bool) (l : list A) :
  findIndex p l = None <-> existsb p l = false.
Proof.
  induction l as [| x r IH]; simpl; [tauto |].
  destruct (p x); simpl; [split; discriminate |].
  destruct (findIndex p r); simpl.
  - split; [discriminate |]. intros H. apply IH in H. discriminate.
  - split; [| reflexivity]. intros _. now apply IH.
Qed.

Lemma closed_is_no_status : ~ valid_status (VStr "closed").
Proof. intros [H | [H | H]]; discriminate. Qed.

(** The claim reads as if every PUT that carries a status outside the three
    values were answered 400; the session check comes first. *)
Lemma put_invalid_status_unauthenticated :
  ~ valid_status (VStr "closed") /\
  status (put_admin_feedback false (randomUUID env1) (VStr "closed") VUndefined VUndefined
            store1) = 401.
Proof. split; [exact closed_is_no_status | reflexivity]. Qed.

(** C6, amended. In every state of the files the server can reach, the
    status of every entry is one of open, in_progress and completed: [POST
    /api/feedback] writes the new entry with status open, and [PUT
    /api/admin/feedback/:id] never writes when it is given a status outside
    the three values; it answers 401 without an admin session, 404 when no
    entry has the id, and 400 otherwise. *)
Theorem status_invariant :
  (forall st, reachable st ->
     Forall (fun f => valid_status (Feedback.status f)) (feedbackFile st)) /\
  (forall env ua c r m st l,
     effects (post_feedback env ua c r m st) = [WriteFeedback l] ->
     exists f, l = (feedbackFile st ++ [f])%list /\ Feedback.status f = VStr "open") /\
  (forall isAdmin id s n c st,
     is_undefined s = false -> ~ valid_status s ->
     effects (put_admin_feedback isAdmin id s n c st) = [] /\
     status (put_admin_feedback isAdmin id s n c st) =
       if isAdmin
       then if existsb (fun f => String.eqb (Feedback.feedback_id f) id) (feedbackFile st)
            then 400 else 404
       else 401).
Proof.
  split; [exact reachable_status | split].
  - intros env ua c r m st l Heff.
    destruct (post_feedback_cases env ua c r m st) as [[Hnil _] | (cid & _ & _ & Heq)].
    + rewrite Hnil in Heff. discriminate.
    + rewrite Heq in Heff. inversion Heff; subst. eexists. split; reflexivity.
  - intros isAdmin id s n c st Hdef Hbad.
    unfold put_admin_feedback. destruct isAdmin; cbn [negb]; [| auto].
    destruct (findIndex _ (feedbackFile st)) as [idx |] eqn:Hidx.
    + assert (Hex : existsb (fun f => String.eqb (Feedback.feedback_id f) id)
                      (feedbackFile st) = true).
      { destruct (existsb _ (feedbackFile st)) eqn:E; [reflexivity |].
        apply findIndex_existsb in E. congruence. }
      rewrite Hex.
      destruct (findIndex_Some _ _ _ Hidx) as (f & Hf & _). rewrite Hf.
      assert (Hs : array_includes allowed s = false).
      { destruct (array_includes allowed s) eqn:E; [| reflexivity].
        apply allowed_spec in E. contradiction. }
      rewrite Hdef, Hs. auto.
    + apply findIndex_existsb in Hidx. rewrite Hidx. auto.
Qed.

Lemma status_invariant_witness :
  reachable store1 /\
  Forall (fun f => valid_status (Feedback.status f)) (feedbackFile store1) /\
  is_undefined (VStr "closed") = false /\ ~ valid_status (VStr "closed") /\
  effects (put_admin_feedback true (randomUUID env1) (VStr "closed") VUndefined VUndefined
             store1) = [] /\
  status (put_admin_feedback true (randomUUID env1) (VStr "closed") VUndefined VUndefined
            store1) = 400.
Proof.
  destruct status_invariant as (Hinv & _ & Hput).
  split; [exact reachable_store1 |].
  split; [exact (Hinv store1 reachable_store1) |].
  split; [reflexivity |].
  split; [exact closed_is_no_status |].
  exact (Hput true (randomUUID env1) (VStr "closed") VUndefined VUndefined store1
           eq_refl closed_is_no_status).
Defined.

(** ** The frame of an update *)

(** C7. A successful [PUT /api/admin/feedback/:id] writes the collection it
    read with one entry replaced, the first one that has the id: every other
    position holds the entry it held, and the replacement has the same
    feedback_id, rating, comment, timestamp and hash; its status, admin_note
    and category are the old ones unless the body supplies them. *)
Theorem put_feedback_frame isAdmin id s n c st :
  status (put_admin_feedback isAdmin id s n c st) = 200 ->
  exists idx f g,
    findIndex (fun f => String.eqb (Feedback.feedback_id f) id) (feedbackFile st) = Some idx /\
    feedbackFile st !! idx = Some f /\
    effects (put_admin_feedback isAdmin id s n c st)
      = [WriteFeedback (<[idx := g]> (feedbackFile st))] /\
    List.length (<[idx := g]> (feedbackFile st)) = List.length (feedbackFile st) /\
    (forall j, j <> idx -> <[idx := g]> (feedbackFile st) !! j = feedbackFile st !! j) /\
    <[idx := g]> (feedbackFile st) !! idx = Some g /\
    same_frame f g /\
    Feedback.status g = (if is_undefined s then Feedback.status f else s) /\
    Feedback.admin_note g = (if is_undefined n then Feedback.admin_note f else ToString n) /\
    Feedback.category g = (if is_undefined c then Feedback.category f else c).
Proof.
  intros Hok.
  destruct (put_admin_feedback_cases isAdmin id s n c st)
    as [[_ Hno] | (idx & f & g & _ & Hidx & Hf & Hframe & Hs & _ & Hn & Hc & _ & Heq)];
    [contradiction |].
  exists idx, f, g. rewrite Heq. cbn [effects reply_after].
  repeat match goal with |- _ /\ _ => split end; auto.
  - apply length_insert.
  - intros j Hj. apply list_lookup_insert_ne. congruence.
  - apply list_lookup_insert_eq. eapply lookup_lt_Some; eassumption.
Qed.

Lemma put_feedback_frame_witness :
  status (put_admin_feedback true (randomUUID env1) (VStr "completed") VUndefined VUndefined
            store1) = 200 /\
  exists idx f g,
    findIndex (fun f => String.eqb (Feedback.feedback_id f) (randomUUID env1))
      (feedbackFile store1) = Some idx /\
    feedbackFile store1 !! idx = Some f /\
    effects (put_admin_feedback true (randomUUID env1) (VStr "completed") VUndefined
               VUndefined store1)
      = [WriteFeedback (<[idx := g]> (feedbackFile store1))] /\
    List.length (<[idx := g]> (feedbackFile store1)) = List.length (feedbackFile store1) /\
    (forall j, j <> idx -> <[idx := g]> (feedbackFile store1) !! j = feedbackFile store1 !! j) /\
    <[idx := g]> (feedbackFile store1) !! idx = Some g /\
    same_frame f g /\
    Feedback.status g = VStr "completed" /\
    Feedback.admin_note g = Feedback.admin_note f /\
    Feedback.category g = Feedback.category f.
Proof.
  split; [vm_compute; reflexivity |].
  apply (put_feedback_frame true (randomUUID env1) (VStr "completed") VUndefined VUndefined
           store1).
  vm_compute. reflexivity.
Defined.

(** ** Bulk deletion *)

(** Without an admin session the answer is 401, whatever [ids] is. *)
Lemma bulk_delete_unauthenticated :
  status (bulk_delete false VUndefined store1) = 401 /\
  status (bulk_delete false (VArr [VStr (randomUUID env1)]) store1) = 401 /\
  effects (bulk_delete false (VArr [VStr (randomUUID env1)]) store1) = [].
Proof. repeat split; reflexivity. Qed.

(** C10, amended. For a request with an admin session, [POST
    /api/admin/feedback/bulk-delete] answers 400 and writes nothing when
    [ids] is missing, not an array, or empty; otherwise it answers 200 and
    writes the collection without the entries whose feedback_id is an element
    of [ids], the others kept in their order whether or not every id matched
    an entry, and reports as [deleted] the length before minus the length
    after.  Without an admin session it answers 401, whatever [ids] is, and
    removes nothing. *)
Theorem bulk_delete_admin ids st :
  (status (bulk_delete false ids st) = 401 /\
   effects (bulk_delete false ids st) = [] /\
   run st (bulk_delete false ids st) = st) /\
  ((forall x items, ids <> VArr (x :: items)) ->
     status (bulk_delete true ids st) = 400 /\ effects (bulk_delete true ids st) = []) /\
  (forall x items, ids = VArr (x :: items) ->
     exists updated,
       updated = List.filter
                   (fun f => negb (array_includes (x :: items) (VStr (Feedback.feedback_id f))))
                   (feedbackFile st) /\
       (forall f, In f updated <->
                  In f (feedbackFile st) /\ ~ In (VStr (Feedback.feedback_id f)) (x :: items)) /\
       status (bulk_delete true ids st) = 200 /\
       effects (bulk_delete true ids st) = [WriteFeedback updated] /\
       json (bulk_delete true ids st)
         = Deleted (Z.of_nat (List.length (feedbackFile st)) - Z.of_nat (List.length updated)) /\
       0 <= Z.of_nat (List.length (feedbackFile st)) - Z.of_nat (List.length updated)).
Proof.
  split; [| split].
  - repeat split.
  - intros Hno. unfold bulk_delete. cbn [negb].
    destruct ids as [| | | | | [| x items] | |]; auto.
    exfalso. apply (Hno x items). reflexivity.
  - intros x items ->. eexists. split; [reflexivity |].
    repeat match goal with |- _ /\ _ => split end; try reflexivity.
    + intros f. rewrite filter_In, Bool.negb_true_iff.
      rewrite <- Bool.not_true_iff_false, array_includes_str. tauto.
    + pose proof (filter_length_le
                    (fun f => negb (array_includes (x :: items)
                                      (VStr (Feedback.feedback_id f))))
                    (feedbackFile st)). lia.
Qed.

Lemma bulk_delete_admin_witness :
  VArr [VStr (randomUUID env1); VStr "no-such-id"]
    = VArr [VStr (randomUUID env1); VStr "no-such-id"] /\
  status (bulk_delete true (VArr [VStr (randomUUID env1); VStr "no-such-id"]) store1) = 200 /\
  effects (bulk_delete true (VArr [VStr (randomUUID env1); VStr "no-such-id"]) store1)
    = [WriteFeedback []] /\
  json (bulk_delete true (VArr [VStr (randomUUID env1); VStr "no-such-id"]) store1)
    = Deleted 1 /\
  (forall x items, VNull <> VArr (x :: items)) /\
  status (bulk_delete true VNull store1) = 400 /\
  status (bulk_delete false (VArr [VStr (randomUUID env1)]) store1) = 401.
Proof.
  split; [reflexivity |].
  destruct (proj2 (proj2 (bulk_delete_admin
                            (VArr [VStr (randomUUID env1); VStr "no-such-id"]) store1))
              (VStr (randomUUID env1)) [VStr "no-such-id"] eq_refl)
    as (updated & Hupd & _ & Hstatus & Heff & Hjson & _).
  assert (Hnil : updated = []) by (rewrite Hupd; vm_compute; reflexivity).
  rewrite Hnil in Heff, Hjson.
  split; [exact Hstatus |]. split; [exact Heff |]. split; [exact Hjson |].
  assert (Hno : forall x items, VNull <> VArr (x :: items)) by (intros; discriminate).
  split; [exact Hno |].
  split; [exact (proj1 (proj1 (proj2 (bulk_delete_admin VNull store1)) Hno)) |].
  exact (proj1 (proj1 (bulk_delete_admin (VArr [VStr (randomUUID env1)]) store1))).
Defined.

(** ** Submitting feedback *)

Lemma num_lt_int (a b : Z) : num_lt (int a) (int b) = (a <? b).
Proof.
  unfold num_lt, int, num_compare, scaled. cbn. rewrite !Z.mul_1_r.
  unfold Z.ltb. reflexivity.
Qed.


Lemma find_exists {A : Type} (q : A -> bool) (l : list A) (x : A) :
  In x l -> q x = true -> exists y, List.find q l = Some y.
Proof.
  intros Hin Hq. destruct (List.find q l) as [y |] eqn:E; [eauto |].
  pose proof (find_none q l E x Hin). congruence.
Qed.

Lemma length_nonempty (s : string) : (5 <= String.length s)%nat -> String.eqb s "" = false.
Proof. destruct s; simpl; [lia | reflexivity]. Qed.

(** A request that passes the validation of rating and comment is accepted as
    soon as its category resolves. *)
Lemma post_feedback_accepts env ua category k s st cid :
  truthy category = true -> 1 <= k <= 5 -> (5 <= String.length s)%nat ->
  resolve_category (categoriesFile st) category = Normal (Some cid) -> cid <> "" ->
  post_feedback env ua category (VNum (int k)) (VStr s) st =
    reply_after
      (WriteFeedback (feedbackFile st ++ [newFeedback env ua cid (VNum (int k)) (VStr s)]))
      201 (Submitted "Feedback submitted successfully" (randomUUID env)).
Proof.
  intros Hc Hk Hs Hres Hcid. unfold post_feedback.
  rewrite Hc. cbn [truthy int negb orb].
  replace (k =? 0) with false by lia.
  rewrite (length_nonempty s Hs). cbn [negb get_length bind].
  unfold lt_number, gt_number, num_gt. cbn [ToNumber].
  rewrite !num_lt_int.
  replace (Z.of_nat (String.length s) <? 5) with false by lia.
  replace (k <? 1) with false by lia. replace (5 <? k) with false by lia.
  cbn [orb]. rewrite Hres. cbn [bind].
  apply String.eqb_neq in Hcid. rewrite Hcid. reflexivity.
Qed.

Lemma find_nothing {A : Type} (p : A -> bool) (l : list A) :
  Forall (fun x => p x = false) l -> List.find p l = None.
Proof. induction 1 as [| x r Hx Hr IH]; [reflexivity |]. cbn. now rewrite Hx. Qed.






Lemma parseInt_rating (k : Z) : 1 <= k <= 5 -> parseInt (VNum (int k)) = int k.
Proof.
  intros Hk.
  assert (Hcases : k = 1 \/ k = 2 \/ k = 3 \/ k = 4 \/ k = 5) by lia.
  destruct Hcases as [-> | [-> | [-> | [-> | ->]]]]; vm_compute; reflexivity.
Qed.

(** What holds of the entries added for requests of the shape the form
    sends: an integer rating between 1 and 5 and a comment that is a string
    of at least 5 characters.  The entry has that rating and that comment,
    and its category is the id of a category of the collection. *)
Lemma post_feedback_typed env ua category k s st l :
  1 <= k <= 5 -> (5 <= String.length s)%nat ->
  effects (post_feedback env ua category (VNum (int k)) (VStr s) st) = [WriteFeedback l] ->
  exists f c,
    l = (feedbackFile st ++ [f])%list /\
    In c (categoriesFile st) /\ Feedback.category f = VStr (Category.id c) /\
    Feedback.rating f = VNum (int k) /\ Feedback.comment f = VStr s.
Proof.
  intros Hk Hs Heff.
  destruct (post_feedback_cases env ua category (VNum (int k)) (VStr s) st)
    as [[Hnil _] | (cid & Hres & _ & Heq)]; [rewrite Hnil in Heff; discriminate |].
  rewrite Heq in Heff. inversion Heff; subst.
  apply resolve_category_Some in Hres as (c & Hin & <- & _).
  eexists _, c. split; [reflexivity |]. split; [assumption |].
  cbn [newFeedback Feedback.category Feedback.rating Feedback.comment].
  rewrite (parseInt_rating k Hk). repeat split; reflexivity.
Qed.

(** C1. The validation of [POST /api/feedback] compares the rating as it
    arrives, and the entry stores [parseInt] of it.  On the fresh server the
    body [{"category": "general", "rating": "12abc", "comment": "Great
    course"}] is accepted with rating 12, the rating ["abc"] is accepted and
    stored as [null], the rating ["0.5e1"] is stored as 0, and a comment that
    is the number 12345 is accepted although it has no length. *)
Theorem post_feedback_unvalidated_rating :
  (let o := post_feedback env1 agent (VStr "general") (VStr "12abc") (VStr "Great course")
              initial in
   status o = 201 /\
   exists f, effects o = [WriteFeedback [f]] /\ Feedback.rating f = VNum (int 12)) /\
  (let o := post_feedback env1 agent (VStr "general") (VStr "abc") (VStr "Great course")
              initial in
   status o = 201 /\
   exists f, effects o = [WriteFeedback [f]] /\ Feedback.rating f = VNull) /\
  (let o := post_feedback env1 agent (VStr "general") (VStr "0.5e1") (VStr "Great course")
              initial in
   status o = 201 /\
   exists f, effects o = [WriteFeedback [f]] /\ Feedback.rating f = VNum (int 0)) /\
  (let o := post_feedback env1 agent (VStr "general") (VNum (int 3)) (VNum (int 12345))
              initial in
   status o = 201 /\
   exists f, effects o = [WriteFeedback [f]] /\ Feedback.comment f = VNum (int 12345)).
Proof.
  repeat split; try (vm_compute; reflexivity);
    eexists; split; vm_compute; reflexivity.
Qed.

(** ** Strings and decimal numerals *)

Lemma append_assoc (a b c : string) : (a +:+ b) +:+ c = a +:+ (b +:+ c).
Proof.
  induction a as [| x r IH]; [reflexivity |].
  change (String x r +:+ b) with (String x (r +:+ b)).
  change (String x (r +:+ b) +:+ c) with (String x ((r +:+ b) +:+ c)).
  now rewrite IH.
Qed.

Lemma rev_app_spec (s acc : string) : String.rev_app s acc = String.rev s +:+ acc.
Proof.
  revert acc. induction s as [| c r IH]; intros acc; [reflexivity |].
  unfold String.rev. cbn [String.rev_app].
  rewrite (IH (String c acc)), (IH (String c "")).
  now rewrite append_assoc.
Qed.

Lemma rev_app_length (s acc : string) :
  String.length (String.rev_app s acc) = (String.length s + String.length acc)%nat.
Proof.
  revert acc. induction s as [| c r IH]; simpl; intros acc; [reflexivity |].
  rewrite IH. simpl. lia.
Qed.

Lemma rev_length (s : string) : String.length (String.rev s) = String.length s.
Proof. unfold String.rev. rewrite rev_app_length. simpl. lia. Qed.

Lemma append_empty (s : string) : s +:+ "" = s.
Proof.
  induction s as [| c r IH]; [reflexivity |].
  change (String c r +:+ "") with (String c (r +:+ "")). now rewrite IH.
Qed.

Lemma append_length (a b : string) :
  String.length (a +:+ b) = (String.length a + String.length b)%nat.
Proof.
  induction a as [| c r IH]; [reflexivity |].
  change (String c r +:+ b) with (String c (r +:+ b)). cbn [String.length]. now rewrite IH.
Qed.

Lemma rev_cons (c : ascii) (r : string) :
  String.rev (String c r) = String.rev r +:+ String c "".
Proof. unfold String.rev at 1. cbn [String.rev_app]. apply rev_app_spec. Qed.

Lemma rev_append (a b : string) : String.rev (a +:+ b) = String.rev b +:+ String.rev a.
Proof.
  induction a as [| c r IH].
  - change ("" +:+ b) with b. change (String.rev "") with "". now rewrite append_empty.
  - change (String c r +:+ b) with (String c (r +:+ b)).
    now rewrite !rev_cons, IH, append_assoc.
Qed.

Lemma rev_rev (s : string) : String.rev (String.rev s) = s.
Proof.
  induction s as [| c r IH]; [reflexivity |].
  rewrite rev_cons, rev_append, IH. reflexivity.
Qed.

Lemma repeat_char_snoc (c : ascii) (n : nat) :
  repeat_char c n +:+ String c "" = String c (repeat_char c n).
Proof.
  induction n as [| n IH]; [reflexivity |]. cbn [repeat_char].
  change (String c (repeat_char c n) +:+ String c "")
    with (String c (repeat_char c n +:+ String c "")).
  now rewrite IH.
Qed.

Lemma rev_repeat_char (c : ascii) (n : nat) :
  String.rev (repeat_char c n) = repeat_char c n.
Proof.
  induction n as [| n IH]; [reflexivity |]. cbn [repeat_char].
  now rewrite rev_cons, IH, repeat_char_snoc.
Qed.

Lemma repeat_char_length (c : ascii) (n : nat) : String.length (repeat_char c n) = n.
Proof. induction n as [| n IH]; cbn; congruence. Qed.

(** A numeral is its digits without the zeros at its end, followed by
    these zeros. *)
Lemma strip_leading_spec (c : ascii) (t : string) :
  exists j, t = repeat_char c j +:+ strip_leading c t.
Proof.
  induction t as [| d r [j IH]]; [exists 0%nat; reflexivity |].
  cbn [strip_leading]. destruct (Ascii.eqb_spec c d) as [<- | _].
  - exists (S j). cbn [repeat_char].
    change (String c (repeat_char c j) +:+ strip_leading c r)
      with (String c (repeat_char c j +:+ strip_leading c r)).
    now rewrite <- IH.
  - exists 0%nat. reflexivity.
Qed.

Lemma strip_trailing_zeros_spec (s : string) :
  exists j, s = strip_trailing_zeros s +:+ repeat_char "0" j.
Proof.
  destruct (strip_leading_spec "0" (String.rev s)) as [j Hj]. exists j.
  unfold strip_trailing_zeros. rewrite <- (rev_rev s) at 1.
  rewrite Hj at 1. now rewrite rev_append, rev_repeat_char.
Qed.

Lemma pretty_go_length (k : nat) :
  forall (x : N) (s : string),
    (x < 10 ^ N.of_nat k)%N ->
    (String.length (pretty_N_go x s) <= k + String.length s)%nat.
Proof.
  induction k as [| k IH]; intros x s Hx.
  - assert (x = 0%N) as -> by (cbn in Hx; lia). rewrite pretty_N_go_0. lia.
  - destruct (N.eq_dec x 0%N) as [-> | Hpos]; [rewrite pretty_N_go_0; lia |].
    rewrite pretty_N_go_step by lia.
    etransitivity; [apply IH |].
    + apply N.Div0.div_lt_upper_bound.
      replace (N.of_nat (S k)) with (N.succ (N.of_nat k)) in Hx by lia.
      rewrite N.pow_succ_r' in Hx. exact Hx.
    + cbn [String.length]. lia.
Qed.

Lemma pretty_length (x : N) :
  (x < 10 ^ 21)%N -> (String.length (pretty x) <= 21)%nat.
Proof.
  intros Hx. unfold pretty, pretty_N. destruct (decide (x = 0%N)); [cbn; lia |].
  pose proof (pretty_go_length 21 x "" Hx) as H. cbn [String.length] in H. lia.
Qed.

(** Number::toString writes an integer from 0 to below 10^21 with all its
    digits. *)
Lemma number_to_string_int (m : Z) :
  0 <= m < 10 ^ 21 -> number_to_string (int m) = pretty (Z.to_N m).
Proof.
  intros Hm. unfold number_to_string, int.
  destruct (Z.eqb_spec m 0) as [-> | Hne]; [reflexivity |].
  replace (Z.abs_N m) with (Z.to_N m) by lia.
  assert (Hlen : (String.length (pretty (Z.to_N m)) <= 21)%nat).
  { apply pretty_length. change (10 ^ 21)%N with (Z.to_N (10 ^ 21)). lia. }
  destruct (strip_trailing_zeros_spec (pretty (Z.to_N m))) as [j Hj].
  set (all := pretty (Z.to_N m)) in *. set (s := strip_trailing_zeros all) in *.
  assert (Hall : String.length all = (String.length s + j)%nat).
  { rewrite Hj at 1. now rewrite append_length, repeat_char_length. }
  cbv zeta.
  replace (Z.of_nat (String.length s) <=? Z.of_nat (String.length all) + 0) with true by lia.
  replace (Z.of_nat (String.length all) + 0 <=? 21) with true by lia.
  cbn [andb].
  replace (m <? 0) with false by lia.
  unfold zeros.
  replace (Z.to_nat (Z.of_nat (String.length all) + 0 - Z.of_nat (String.length s)))
    with j by lia.
  now rewrite <- Hj.
Qed.

Lemma number_to_string_int_inj (a b : Z) :
  0 <= a < 10 ^ 21 -> 0 <= b < 10 ^ 21 ->
  number_to_string (int a) = number_to_string (int b) -> a = b.
Proof.
  intros Ha Hb. rewrite !number_to_string_int by assumption.
  intros H. apply (inj pretty) in H. lia.
Qed.

(** ** The hash of an entry *)

(** Two submissions with the same user-agent that read the same millisecond
    are both accepted and store the same hash. *)
Lemma same_millisecond_same_hash :
  let o1 := post_feedback env1 agent (VStr "general") (VNum (int 4)) (VStr "Great course")
              initial in
  let o2 := post_feedback env2 agent (VStr "general") (VNum (int 2)) (VStr "Too fast for me")
              (run initial o1) in
  status o1 = 201 /\ status o2 = 201 /\
  exists f1 f2,
    feedbackFile (run (run initial o1) o2) = [f1; f2] /\
    Feedback.feedback_id f1 <> Feedback.feedback_id f2 /\
    Feedback.hash f1 = Feedback.hash f2.
Proof.
  cbv zeta. split; [vm_compute; reflexivity |]. split; [vm_compute; reflexivity |].
  eexists _, _. split; [vm_compute; reflexivity |].
  split; [discriminate | reflexivity].
Qed.

(** C3, amended. The hash of an entry is computed at its submission, as the
    SHA-256 digest of the user-agent followed by the reading of the clock in
    milliseconds, written in decimal.  Two accepted submissions with the same
    user-agent store the same hash whenever they read the same millisecond.
    When their readings differ (both from 0 to below 10^21) the two digested
    texts differ, so that their hashes are distinct unless SHA-256 collides
    on these two texts. *)
Theorem hash_of_submission e1 e2 ua c1 r1 m1 c2 r2 m2 st1 st2 l1 l2 :
  effects (post_feedback e1 ua c1 r1 m1 st1) = [WriteFeedback l1] ->
  effects (post_feedback e2 ua c2 r2 m2 st2) = [WriteFeedback l2] ->
  exists f1 f2,
    l1 = (feedbackFile st1 ++ [f1])%list /\ l2 = (feedbackFile st2 ++ [f2])%list /\
    Feedback.hash f1 =
      Sha256.sha256_hex (default "" ua +:+ number_to_string (int (Date_now e1))) /\
    Feedback.hash f2 =
      Sha256.sha256_hex (default "" ua +:+ number_to_string (int (Date_now e2))) /\
    (Date_now e1 = Date_now e2 -> Feedback.hash f1 = Feedback.hash f2) /\
    (0 <= Date_now e1 < 10 ^ 21 -> 0 <= Date_now e2 < 10 ^ 21 ->
     Date_now e1 <> Date_now e2 ->
     default "" ua +:+ number_to_string (int (Date_now e1)) <>
       default "" ua +:+ number_to_string (int (Date_now e2)) /\
     (Feedback.hash f1 = Feedback.hash f2 ->
      exists x y, x <> y /\ Sha256.sha256_hex x = Sha256.sha256_hex y)).
Proof.
  intros H1 H2.
  destruct (post_feedback_cases e1 ua c1 r1 m1 st1) as [[Hnil _] | (cid1 & _ & _ & E1)];
    [rewrite Hnil in H1; discriminate |].
  destruct (post_feedback_cases e2 ua c2 r2 m2 st2) as [[Hnil _] | (cid2 & _ & _ & E2)];
    [rewrite Hnil in H2; discriminate |].
  rewrite E1 in H1. rewrite E2 in H2. inversion H1; inversion H2; subst.
  assert (Hhash : forall env, hashIdentifier env ua =
            Sha256.sha256_hex (default "" ua +:+ number_to_string (int (Date_now env)))).
  { intros env. unfold hashIdentifier. destruct ua as [s |]; [| reflexivity].
    cbn [default]. destruct (String.eqb_spec s ""); [subst |]; reflexivity. }
  eexists _, _. split; [reflexivity |]. split; [reflexivity |].
  cbn [newFeedback Feedback.hash]. rewrite !Hhash.
  split; [reflexivity |]. split; [reflexivity |].
  split; [intros H; congruence |].
  intros Ht1 Ht2 Hdiff.
  assert (Htexts : default "" ua +:+ number_to_string (int (Date_now e1)) <>
                   default "" ua +:+ number_to_string (int (Date_now e2))).
  { intros Heq. apply (inj (String.app (default "" ua))) in Heq.
    apply Hdiff. now apply number_to_string_int_inj. }
  split; [exact Htexts |]. intros Hsame. eauto.
Qed.

Lemma hash_of_submission_witness :
  exists l1 l2,
    effects (post_feedback env1 agent (VStr "general") (VNum (int 4)) (VStr "Great course")
               initial) = [WriteFeedback l1] /\
    effects (post_feedback env2 agent (VStr "general") (VNum (int 2)) (VStr "Too fast for me")
               store1) = [WriteFeedback l2] /\
    Date_now env1 = Date_now env2 /\
    exists f1 f2,
      l1 = (feedbackFile initial ++ [f1])%list /\ l2 = (feedbackFile store1 ++ [f2])%list /\
      Feedback.hash f1 = Feedback.hash f2.
Proof.
  eexists _, _.
  split; [vm_compute; reflexivity |]. split; [vm_compute; reflexivity |].
  split; [reflexivity |].
  destruct (hash_of_submission env1 env2 agent
              (VStr "general") (VNum (int 4)) (VStr "Great course")
              (VStr "general") (VNum (int 2)) (VStr "Too fast for me")
              initial store1 _ _
              ltac:(vm_compute; reflexivity) ltac:(vm_compute; reflexivity))
    as (f1 & f2 & E1 & E2 & _ & _ & Hsame & _).
  exists f1, f2. split; [exact E1 |]. split; [exact E2 |]. exact (Hsame eq_refl).
Defined.

(** ** Sorting *)

Lemma sort_insert_perm {A : Type} (cmp : A -> A -> number) (x : A) (l : list A) :
  Permutation (sort_insert cmp x l) (x :: l).
Proof.
  induction l as [| y r IH]; simpl; [reflexivity |].
  destruct (comes_after (cmp x y)); [| reflexivity].
  rewrite IH. apply perm_swap.
Qed.

Lemma sort_perm {A : Type} (cmp : A -> A -> number) (l : list A) :
  Permutation (sort cmp l) l.
Proof.
  induction l as [| x r IH]; simpl; [reflexivity |].
  rewrite sort_insert_perm. now constructor.
Qed.

Section SortByKey.
Context {A : Type} (key : A -> Z) (cmp : A -> A -> number) (P : A -> Prop).
Hypothesis cmp_key :
  forall x y, P x -> P y -> comes_after (cmp x y) = (key x <? key y).

Lemma sort_insert_sorted x l :
  P x -> Forall P l ->
  StronglySorted (fun a b => key a >= key b) l ->
  StronglySorted (fun a b => key a >= key b) (sort_insert cmp x l).
Proof.
  intros Hx Hl Hsorted. induction Hsorted as [| y r Hr IH Hy]; simpl.
  - repeat constructor.
  - apply Forall_cons in Hl as [HPy HPr].
    rewrite cmp_key by assumption.
    destruct (Z.ltb_spec (key x) (key y)) as [Hlt | Hge].
    + constructor; [now apply IH |].
      rewrite (sort_insert_perm cmp x r). constructor; [lia | assumption].
    + constructor; [now constructor |].
      constructor; [lia |].
      eapply Forall_impl; [exact Hy |]. cbn beta. intros z Hz. lia.
Qed.

Lemma sort_sorted l :
  Forall P l -> StronglySorted (fun a b => key a >= key b) (sort cmp l).
Proof.
  induction 1 as [| x r Hx Hr IH]; simpl; [constructor |].
  apply sort_insert_sorted; [assumption | | assumption].
  now rewrite (sort_perm cmp r).
Qed.
End SortByKey.

Lemma comes_after_newest_first (x y : Feedback.t) :
  comes_after (newest_first x y) = (Feedback.timestamp x <? Feedback.timestamp y).
Proof.
  unfold comes_after, newest_first, num_gt, num_lt, num_sub, num_add, num_neg, int,
    num_compare, scaled.
  cbn. rewrite !Z.mul_1_r.
  destruct (Z.compare_spec 0 (Feedback.timestamp y + - Feedback.timestamp x));
    destruct (Z.ltb_spec (Feedback.timestamp x) (Feedback.timestamp y)); lia || reflexivity.
Qed.

(** ** Querying the feedback *)

Lemma filter_all {A : Type} (l : list A) : List.filter (fun _ => true) l = l.
Proof. induction l as [| x r IH]; simpl; congruence. Qed.

Lemma filter_filter {A : Type} (p q : A -> bool) (l : list A) :
  List.filter q (List.filter p l) = List.filter (fun x => p x && q x) l.
Proof.
  induction l as [| x r IH]; simpl; [reflexivity |].
  destruct (p x); simpl; [destruct (q x) |]; congruence.
Qed.

Lemma filter_when_filter {A : Type} (param : option string) (test : string -> A -> bool)
    (l : list A) :
  filter_when param test l = List.filter (fun x => when param (fun s => test s x)) l.
Proof. destruct param; simpl; [reflexivity | now rewrite filter_all]. Qed.

Lemma filter_c_pure {A : Type} (p : A -> completion bool) (q : A -> bool) (l : list A) :
  Forall (fun x => p x = Normal (q x)) l -> filter_c p l = Normal (List.filter q l).
Proof.
  induction 1 as [| x r Hx Hr IH]; simpl; [reflexivity |].
  rewrite Hx, IH. simpl. destruct (q x); reflexivity.
Qed.

Lemma toLowerCase_nonempty (s : string) : s <> "" -> toLowerCase s <> "".
Proof. destruct s; [congruence | discriminate]. Qed.

Lemma includes_empty (q : string) : q <> "" -> includes "" q = false.
Proof. destruct q; [congruence | reflexivity]. Qed.

(** On an entry whose comment is a string the callback of the search filter
    does not throw, and tells whether the text contains the search string. *)
Lemma matches_search_text (search : string) (f : Feedback.t) :
  search <> "" -> (exists c, Feedback.comment f = VStr c) ->
  matches_search (toLowerCase search) f = Normal (contains_text search f).
Proof.
  intros Hs [c Hc]. apply toLowerCase_nonempty in Hs.
  unfold matches_search, contains_text, comment_text. rewrite Hc.
  cbn [truthy call_toLowerCase bind].
  assert (Hnote : negb (String.eqb (Feedback.admin_note f) "")
                  && includes (toLowerCase (Feedback.admin_note f)) (toLowerCase search)
                  = includes (toLowerCase (Feedback.admin_note f)) (toLowerCase search)).
  { destruct (String.eqb_spec (Feedback.admin_note f) "") as [-> | _]; [| reflexivity].
    change (toLowerCase "") with "". now rewrite includes_empty. }
  destruct (String.eqb_spec c "") as [-> | _]; cbn [negb bind].
  - change (toLowerCase "") with "". rewrite includes_empty by assumption.
    cbn [orb]. now rewrite Hnote.
  - destruct (includes (toLowerCase c) (toLowerCase search)); cbn [orb];
      [reflexivity | now rewrite Hnote].
Qed.

Lemma given_nonempty (p : option string) (s : string) : given p = Some s -> s <> "".
Proof.
  unfold given. destruct p as [t |]; [| discriminate].
  destruct (String.eqb_spec t ""); [discriminate |]. congruence.
Qed.

(** Two conjunctions of the same tests, bracketed differently. *)
Ltac same_booleans :=
  repeat match goal with
         | |- context [when ?p ?t] =>
             let b := fresh "b" in set (b := when p t); clearbody b
         | |- context [contains_text ?s ?f] =>
             let b := fresh "b" in set (b := contains_text s f); clearbody b
         end;
  repeat match goal with b : bool |- _ => destruct b end; reflexivity.

(** The query [?category=all] answers with every entry, among them one whose
    category is not [all]. *)
Lemma all_is_not_a_category :
  exists l f,
    json (get_admin_feedback no_dates true all_categories store1) = FeedbackList l /\
    In f l /\ spec_selects no_dates all_categories f = false.
Proof.
  eexists _, _. split; [vm_compute; reflexivity |].
  split; [left; reflexivity | reflexivity].
Qed.

(** C4, amended. For a request with an admin session, over a collection
    whose comments are strings, [GET /api/admin/feedback] answers 200 with
    the entries that satisfy the conjunction of the filters that count, each
    as often as the collection holds it, newest first and otherwise in the
    order of the collection.  A parameter counts when it is present and not
    empty and, for category, rating and status, is not [all].  The filters
    are: category equal to the parameter, rating equal to [parseInt] of the
    parameter, status (open when the entry has none) equal to the parameter,
    timestamp not before the start date, timestamp not after the end date,
    and the search string contained, up to case, in the comment or the
    admin note. *)
Theorem admin_feedback_query parse q st :
  (given (q_search q) <> None ->
   Forall (fun f => exists c, Feedback.comment f = VStr c) (feedbackFile st)) ->
  exists l,
    get_admin_feedback parse true q st = reply 200 (FeedbackList l) /\
    l = sort newest_first (List.filter (selects parse q) (feedbackFile st)) /\
    Permutation l (List.filter (selects parse q) (feedbackFile st)) /\
    (forall f, In f l <-> In f (feedbackFile st) /\ selects parse q f = true) /\
    StronglySorted not_older l.
Proof.
  intros Htext.
  exists (sort newest_first (List.filter (selects parse q) (feedbackFile st))).
  split; [| split; [reflexivity | split; [apply sort_perm | split]]].
  - unfold get_admin_feedback. cbn [negb].
    rewrite !filter_when_filter, !filter_filter.
    assert (Hsame : forall (l1 l2 : list Feedback.t),
              l1 = l2 ->
              reply 200 (FeedbackList (sort newest_first l1))
              = reply 200 (FeedbackList (sort newest_first l2))) by (intros; now subst).
    destruct (given (q_search q)) as [search |] eqn:Hsearch.
    + rewrite (filter_c_pure _ (contains_text search)).
      * cbn [bind try_catch]. rewrite filter_filter.
        unfold selects, conjunction. rewrite Hsearch.
        apply Hsame, filter_ext. intros f. cbn [when]. same_booleans.
      * apply Forall_filter_keep.
        eapply Forall_impl; [apply Htext; discriminate |]. cbn beta.
        intros f Hf. apply matches_search_text; [| assumption].
        now apply given_nonempty in Hsearch.
    + cbn [bind try_catch]. unfold selects, conjunction. rewrite Hsearch.
      apply Hsame, filter_ext. intros f. cbn [when]. same_booleans.
  - intros f. rewrite <- filter_In. split; apply Permutation_in.
    + apply sort_perm.
    + symmetry. apply sort_perm.
  - apply (sort_sorted Feedback.timestamp newest_first (fun _ => True)).
    + intros x y _ _. apply comes_after_newest_first.
    + apply Forall_forall. auto.
Qed.

Lemma admin_feedback_query_witness :
  (given (q_search open_general_great) <> None ->
   Forall (fun f => exists c, Feedback.comment f = VStr c) (feedbackFile store1)) /\
  exists l,
    get_admin_feedback no_dates true open_general_great store1
    = reply 200 (FeedbackList l) /\
    l = feedbackFile store1 /\
    StronglySorted not_older l.
Proof.
  assert (Htext : given (q_search open_general_great) <> None ->
                  Forall (fun f => exists c, Feedback.comment f = VStr c)
                         (feedbackFile store1)).
  { intros _. vm_compute. repeat constructor. eexists. reflexivity. }
  split; [exact Htext |].
  destruct (admin_feedback_query no_dates open_general_great store1 Htext)
    as (l & Hreply & Hl & _ & _ & Hsorted).
  exists l. split; [exact Hreply |]. split; [| exact Hsorted].
  rewrite Hl. vm_compute. reflexivity.
Defined.

(** ** The most common words *)

(** *** The words *)

Lemma all_chars_rev_app (p : ascii -> bool) (s acc : string) :
  all_chars p s -> all_chars p acc -> all_chars p (String.rev_app s acc).
Proof.
  revert acc. induction s as [| c r IH]; simpl; intros acc Hs Hacc; [assumption |].
  destruct Hs as [Hc Hr]. apply IH; [assumption |]. simpl. auto.
Qed.

Lemma all_chars_rev (p : ascii -> bool) (s : string) :
  all_chars p s -> all_chars p (String.rev s).
Proof. intros Hs. now apply all_chars_rev_app. Qed.

(** Every match of the word pattern is made of word characters and has at
    least 4 of them. *)
Lemma words_from_spec (s cur : string) :
  all_chars is_word_char cur ->
  Forall (fun w => all_chars is_word_char w /\ (4 <= String.length w)%nat)
         (words_from cur s).
Proof.
  assert (Hflush : forall cur, all_chars is_word_char cur ->
            Forall (fun w => all_chars is_word_char w /\ (4 <= String.length w)%nat)
                   (flush_run cur)).
  { intros c Hc. unfold flush_run.
    destruct (Nat.leb_spec 4 (String.length c)); [| constructor].
    constructor; [| constructor]. split; [now apply all_chars_rev |].
    now rewrite rev_length. }
  revert cur. induction s as [| c r IH]; simpl; intros cur Hcur; [now apply Hflush |].
  destruct (is_word_char c) eqn:Hc.
  - apply IH. simpl. auto.
  - apply Forall_app. split; [now apply Hflush | now apply IH].
Qed.

Lemma match_words_spec (s : string) :
  Forall (fun w => all_chars is_word_char w /\ (4 <= String.length w)%nat)
         (match_words s).
Proof. apply words_from_spec. exact I. Qed.

(** *** Counting in a plain object *)

Lemma is_in_In (k : string) (l : list string) : is_in k l = true <-> In k l.
Proof.
  unfold is_in. rewrite existsb_exists. split.
  - intros (x & Hin & Heq). apply String.eqb_eq in Heq. now subst.
  - intros Hin. exists k. split; [assumption | apply String.eqb_refl].
Qed.

Lemma assoc_assoc_set {A : Type} (k k' : string) (a : A) (l : list (string * A)) :
  assoc k (assoc_set k' a l) = if String.eqb k k' then Some a else assoc k l.
Proof.
  induction l as [| [k0 a0] r IH]; simpl.
  - destruct (String.eqb k k'); reflexivity.
  - destruct (String.eqb_spec k' k0) as [-> | Hne]; simpl.
    + destruct (String.eqb k k0); reflexivity.
    + rewrite IH. destruct (String.eqb_spec k k0) as [-> | Hk]; [| reflexivity].
      destruct (String.eqb_spec k0 k'); congruence.
Qed.

Lemma keys_assoc_set {A : Type} (k : string) (a : A) (l : list (string * A)) :
  map fst (assoc_set k a l) =
    if is_in k (map fst l) then map fst l else (map fst l ++ [k])%list.
Proof.
  induction l as [| [k0 a0] r IH]; simpl; [reflexivity |].
  destruct (String.eqb_spec k k0) as [-> | Hne]; simpl; [reflexivity |].
  rewrite IH. unfold is_in. destruct (existsb _ (map fst r)); reflexivity.
Qed.

Lemma assoc_In {A : Type} (k : string) (a : A) (l : list (string * A)) :
  assoc k l = Some a -> In (k, a) l.
Proof.
  induction l as [| [k0 a0] r IH]; simpl; [discriminate |].
  destruct (String.eqb_spec k k0) as [-> | Hne].
  - intros H; inversion H; subst. now left.
  - intros H. right. now apply IH.
Qed.

Lemma In_assoc {A : Type} (k : string) (a : A) (l : list (string * A)) :
  NoDup (map fst l) -> In (k, a) l -> assoc k l = Some a.
Proof.
  induction l as [| [k0 a0] r IH]; simpl; [contradiction |].
  intros Hnd [Heq | Hin].
  - inversion Heq; subst. now rewrite String.eqb_refl.
  - apply NoDup_cons in Hnd as [Hk0 Hnd].
    destruct (String.eqb_spec k k0) as [-> | Hne]; [| now apply IH].
    exfalso. apply Hk0. apply list_elem_of_In.
    change k0 with (fst (k0, a)). now apply in_map.
Qed.

Lemma num_add_int (a b : Z) : num_add (int a) (int b) = int (a + b).
Proof. unfold num_add, int, scaled. cbn. now rewrite !Z.mul_1_r. Qed.

Lemma occurrences_nonneg (w : string) (ws : list string) : 0 <= occurrences w ws.
Proof. unfold occurrences. lia. Qed.

Lemma occurrences_snoc (w w0 : string) (ws : list string) :
  occurrences w (ws ++ [w0]) = occurrences w ws + (if String.eqb w w0 then 1 else 0).
Proof.
  unfold occurrences. rewrite count_occ_app. simpl.
  destruct (string_dec w0 w) as [-> | Hne].
  - rewrite String.eqb_refl. lia.
  - destruct (String.eqb_spec w w0); [congruence | lia].
Qed.

Lemma occurrences_In (w : string) (ws : list string) :
  0 < occurrences w ws <-> In w ws.
Proof.
  unfold occurrences. rewrite (count_occ_In string_dec ws w). lia.
Qed.

(** On a word that is not an inherited key the reducer adds one to the count
    of the word. *)
Lemma count_word_counted (acc : list (string * value)) (ws : list string) (w0 : string) :
  inherited w0 = false -> counted acc ws -> counted (count_word acc w0) (ws ++ [w0]).
Proof.
  unfold inherited. intros Hplain [Hnd Hacc].
  apply Bool.orb_false_iff in Hplain as [Hproto Hmethod].
  assert (Hnew : count_word acc w0 =
                 assoc_set w0 (VNum (int (occurrences w0 ws + 1))) acc).
  { unfold count_word, object_set, object_get. rewrite Hproto, Hmethod, (Hacc w0).
    pose proof (occurrences_nonneg w0 ws) as Hn.
    destruct (Z.ltb_spec 0 (occurrences w0 ws)) as [Hpos | Hzero].
    - unfold js_or. cbn [truthy int].
      replace (occurrences w0 ws =? 0) with false by lia. cbn [negb].
      unfold js_add. cbn [is_stringish orb ToNumber]. now rewrite num_add_int.
    - replace (occurrences w0 ws) with 0 by lia. reflexivity. }
  rewrite Hnew. split.
  - rewrite keys_assoc_set. destruct (is_in w0 (map fst acc)) eqn:Hin; [assumption |].
    apply NoDup_app. split; [assumption |]. split; [| apply NoDup_singleton].
    intros x Hx Hx0. apply list_elem_of_singleton in Hx0. subst.
    apply list_elem_of_In, is_in_In in Hx. congruence.
  - intros w. rewrite assoc_assoc_set, occurrences_snoc, (Hacc w).
    pose proof (occurrences_nonneg w ws) as Hn.
    destruct (String.eqb_spec w w0) as [-> | Hne].
    + replace (0 <? occurrences w0 ws + 1) with true by lia. reflexivity.
    + now rewrite Z.add_0_r.
Qed.

Lemma fold_count_word (ws : list string) :
  forall acc done,
    Forall (fun w => inherited w = false) ws ->
    counted acc done -> counted (fold_left count_word ws acc) (done ++ ws).
Proof.
  induction ws as [| w0 ws IH]; simpl; intros acc done Hplain Hacc.
  - now rewrite app_nil_r.
  - apply Forall_cons in Hplain as [Hw0 Hws].
    replace (done ++ w0 :: ws)%list with ((done ++ [w0]) ++ ws)%list
      by (now rewrite <- app_assoc).
    apply IH; [assumption |]. now apply count_word_counted.
Qed.

Lemma filter_partition {A : Type} (p : A -> bool) (l : list A) :
  Permutation (List.filter p l ++ List.filter (fun x => negb (p x)) l) l.
Proof.
  induction l as [| x r IH]; simpl; [reflexivity |].
  destruct (p x); simpl.
  - now constructor.
  - rewrite <- Permutation_middle. now constructor.
Qed.

Lemma object_entries_perm (own : list (string * value)) :
  Permutation (object_entries own) own.
Proof.
  unfold object_entries. rewrite sort_perm. apply filter_partition.
Qed.

Lemma comes_after_by_count (x y : string * value) :
  (exists n, snd x = VNum (int n)) -> (exists n, snd y = VNum (int n)) ->
  comes_after (by_count x y) = (count_of x <? count_of y).
Proof.
  intros [a Ha] [b Hb]. unfold by_count, js_sub, count_of. rewrite Ha, Hb.
  unfold comes_after, num_gt, num_lt, num_sub, num_add, num_neg, int, num_compare, scaled.
  cbn. rewrite !Z.mul_1_r.
  destruct (Z.compare_spec 0 (b + - a)); destruct (Z.ltb_spec a b); lia || reflexivity.
Qed.

(** What the analytics route reports when no counted word is a key that a
    plain object inherits: at most ten words, each once and with the number
    of its occurrences, in descending order of count, and no word left out
    occurs more often than a word listed. *)
Lemma common_words_of_plain_words (feedback : list Feedback.t) :
  Forall (fun w => inherited w = false) (words_of feedback) ->
  (List.length (commonWords feedback) <= 10)%nat /\
  NoDup (map fst (commonWords feedback)) /\
  (forall w v, In (w, v) (commonWords feedback) ->
     In w (words_of feedback) /\ v = VNum (int (occurrences w (words_of feedback)))) /\
  StronglySorted (fun a b => count_of a >= count_of b) (commonWords feedback) /\
  (forall w, In w (words_of feedback) ->
     In w (map fst (commonWords feedback)) \/
     (List.length (commonWords feedback) = 10%nat /\
      forall e, In e (commonWords feedback) ->
                count_of e >= occurrences w (words_of feedback))).
Proof.
  intros Hplain.
  set (ws := words_of feedback) in *.
  set (wc := fold_left count_word ws []).
  assert (Hwc : counted wc ws).
  { apply (fold_count_word ws [] [] Hplain). split; [constructor | reflexivity]. }
  destruct Hwc as [Hnd Hassoc].
  set (sorted := sort by_count (object_entries wc)).
  assert (Hperm : Permutation sorted wc).
  { unfold sorted. rewrite sort_perm. apply object_entries_perm. }
  assert (Hentry : forall w v, In (w, v) wc <->
                     In w ws /\ v = VNum (int (occurrences w ws))).
  { intros w v. split.
    - intros Hin. apply (In_assoc _ _ _ Hnd) in Hin. rewrite Hassoc in Hin.
      destruct (Z.ltb_spec 0 (occurrences w ws)) as [Hpos | _]; [| discriminate].
      inversion Hin. split; [now apply occurrences_In | reflexivity].
    - intros [Hin ->]. apply assoc_In. rewrite Hassoc.
      apply occurrences_In in Hin. now replace (0 <? occurrences w ws) with true by lia. }
  assert (Hnum : Forall (fun e => exists n, snd e = VNum (int n)) (object_entries wc)).
  { rewrite object_entries_perm. apply Forall_forall. intros [w v] Hin.
    apply list_elem_of_In, Hentry in Hin as [_ ->]. eexists. reflexivity. }
  assert (Hsorted : StronglySorted (fun a b => count_of a >= count_of b) sorted).
  { apply (sort_sorted count_of by_count (fun e => exists n, snd e = VNum (int n)));
      [apply comes_after_by_count | exact Hnum]. }
  change (commonWords feedback) with (firstn 10 sorted).
  rewrite <- (firstn_skipn 10 sorted) in Hsorted, Hperm.
  apply StronglySorted_app in Hsorted as (Hcross & Hfirst & _).
  split; [apply firstn_le_length |].
  split.
  { assert (Hkeys : NoDup (map fst (firstn 10 sorted ++ skipn 10 sorted))).
    { rewrite (Permutation_map fst Hperm). exact Hnd. }
    rewrite map_app in Hkeys. now apply NoDup_app in Hkeys as [Hk _]. }
  split.
  { intros w v Hin. apply Hentry. eapply Permutation_in; [exact Hperm |].
    apply in_or_app. now left. }
  split; [exact Hfirst |].
  intros w Hin.
  assert (Hw : In (w, VNum (int (occurrences w ws))) (firstn 10 sorted ++ skipn 10 sorted)).
  { eapply Permutation_in; [symmetry; exact Hperm |]. apply Hentry. auto. }
  apply in_app_or in Hw as [Hw | Hw].
  - left. change w with (fst (w, VNum (int (occurrences w ws)))). now apply in_map.
  - right. split.
    + rewrite length_firstn. apply Nat.min_l.
      destruct (le_lt_dec 10 (List.length sorted)) as [Hle | Hlt]; [assumption |].
      rewrite skipn_all2 in Hw by lia. contradiction.
    + intros e He.
      change (occurrences w ws) with (count_of (w, VNum (int (occurrences w ws)))).
      apply Hcross; now apply list_elem_of_In.
Qed.

(** C5. The word counts are kept in a plain object, which inherits
    [constructor] from [Object.prototype]: after a submission with the
    comment "The constructor bug", whose only word of four characters or
    more is constructor, the analytics route reports that word with the
    count ["function Object() { [native code] }1"], a string, where the word
    occurs once. *)
Theorem common_words_inherited_property :
  words_of (feedbackFile store2) = ["constructor"] /\
  status (get_admin_analytics true store2) = 200 /\
  json (get_admin_analytics true store2) =
    Analytics 1 [("constructor", VStr "function Object() { [native code] }1")].
Proof. repeat split; vm_compute; reflexivity. Qed.

(* ================================================================= *)
(** * The JavaScript fragment on sample inputs *)

Example number_to_string_samples :
  map number_to_string
    [Dec 12345 0; Dec 15 (-1); Dec (-5) (-7); Dec 1 21; Dec 123 20; Dec 5 (-3);
     Dec 1500 (-2); Dec 0 7; NaN]
  = ["12345"; "1.5"; "-5e-7"; "1e+21"; "1.23e+22"; "0.005"; "15"; "0"; "NaN"].
Proof. vm_compute. reflexivity. Qed.

Example string_to_number_samples :
  map string_to_number
    [" 42 "; "0.5e1"; "12abc"; ""; "0x1f"; "-7.25"; ".5"; "5."; "abc"; "1e";
     "-Infinity"; "+"]
  = [Dec 42 0; Dec 5 0; NaN; Dec 0 0; Dec 31 0; Dec (-725) (-2); Dec 5 (-1); Dec 5 0;
     NaN; NaN; Infinity true; NaN].
Proof. vm_compute. reflexivity. Qed.

Example parseInt_samples :
  map parseInt
    [VStr " 42px"; VStr "0.5e1"; VStr "12abc"; VStr ""; VStr "0x1f"; VStr "-7.25";
     VStr "abc"; VBool true; VNum (Dec 45 (-1)); VArr [VNum (int 3)]; VNull]
  = [int 42; int 0; int 12; NaN; int 31; int (-7); NaN; NaN; int 4; int 3; NaN].
Proof. vm_compute. reflexivity. Qed.

Example comparison_samples :
  map (fun v => (truthy v, lt_number v (int 1), gt_number v (int 5)))
    [VStr "12abc"; VStr "3"; VStr "7"; VNum (int 0); VBool true; VArr []; VObj []]
  = [(true, false, false); (true, false, false); (true, false, true);
     (false, true, false); (true, false, false); (true, true, false);
     (true, false, false)].
Proof. vm_compute. reflexivity. Qed.

Example ToString_samples :
  map ToString
    [VNull; VBool false; VNum (int 7); VArr [VNum (int 1); VNull; VStr "a"]; VObj [];
     VFunction "Object"]
  = ["null"; "false"; "7"; "1,,a"; "[object Object]"; "function Object() { [native code] }"].
Proof. vm_compute. reflexivity. Qed.

Example match_words_sample :
  match_words "the quick brown_fox 2024 abc abcd, don't constructor"
  = ["quick"; "brown_fox"; "2024"; "abcd"; "constructor"].
Proof. vm_compute. reflexivity. Qed.

Example object_entries_sample :
  map fst (object_entries
             [("zebra", VNum (int 1)); ("2024", VNum (int 1)); ("apple", VNum (int 2));
              ("0123", VNum (int 1)); ("1999", VNum (int 3))])
  = ["1999"; "2024"; "zebra"; "apple"; "0123"].
Proof. vm_compute. reflexivity. Qed.

Example commonWords_sample :
  commonWords (feedbackFile store1) = [("great", VNum (int 1)); ("course", VNum (int 1))].
Proof. vm_compute. reflexivity. Qed.

Example sha256_abc :
  Sha256.sha256_hex "abc"
  = "ba7816bf8f01cfea414140de5dae2223b00361a396177a9cb410ff61f20015ad".
Proof. vm_compute. reflexivity. Qed.

Example sha256_empty :
  Sha256.sha256_hex ""
  = "e3b0c44298fc1c149afbf4c8996fb92427ae41e4649b934ca495991b7852b855".
Proof. vm_compute. reflexivity. Qed.

Example sha256_two_blocks :
  Sha256.sha256_hex "abcdbcdecdefdefgefghfghighijhijkijkljklmklmnlmnomnopnopq"
  = "248d6a61d20638b8e5c026930c3e6039a33ce45964ff2167f6ecedd419db06c1".
Proof. vm_compute. reflexivity. Qed.

(* ================================================================= *)
(** * Further properties of the server *)

(** ** Invariants of the entries *)

(** X1. In every state of the files the server can reach from the files it
    creates, the category of every entry is the id of a category of the
    collection. *)
Theorem reachable_categories_exist st f :
  reachable st -> In f (feedbackFile st) ->
  exists c, In c (categoriesFile st) /\ Feedback.category f = VStr (Category.id c).
Proof.
  intros Hreach Hin. apply reachable_integrity in Hreach.
  unfold referential_integrity in Hreach. rewrite Forall_forall in Hreach.
  apply Hreach. now apply list_elem_of_In.
Qed.

Lemma reachable_categories_exist_witness :
  reachable store1 /\
  exists f, In f (feedbackFile store1) /\
    exists c, In c (categoriesFile store1) /\ Feedback.category f = VStr (Category.id c).
Proof.
  split; [exact reachable_store1 |].
  eexists. split; [left; reflexivity |].
  apply (reachable_categories_exist store1 _ reachable_store1). left. reflexivity.
Defined.

Lemma parseInt_integer_or_NaN (v : value) :
  parseInt v = NaN \/ exists z, parseInt v = int z.
Proof.
  unfold parseInt, parseInt_string.
  destruct (strip_sign (trim_start (ToString v))) as [neg s1].
  destruct (starts_with "0x" s1 || starts_with "0X" s1);
    match goal with
    | |- context [String.eqb ?d ""] => destruct (String.eqb d "")
    end; eauto.
Qed.

(** The shapes the feedback file can take after one request. *)
Lemma feedback_after_request parse env req st :
  feedbackFile (run st (handle parse env req st)) = feedbackFile st \/
  (exists keep,
     feedbackFile (run st (handle parse env req st)) = List.filter keep (feedbackFile st)) \/
  (exists idx f g,
     feedbackFile st !! idx = Some f /\ same_frame f g /\
     feedbackFile (run st (handle parse env req st)) = <[idx := g]> (feedbackFile st)) \/
  (exists ua c r m cid,
     req = POST_feedback ua c r m /\
     effects (post_feedback env ua c r m st) <> [] /\
     feedbackFile (run st (handle parse env req st))
     = (feedbackFile st ++ [newFeedback env ua cid r m])%list).
Proof.
  destruct req as [| a | a n d | a i n d | a i | ua c r m | a q | a i
                   | a i s n c | a i | a ids | a]; simpl.
  - left. reflexivity.
  - left. unfold get_admin_categories. destruct a; reflexivity.
  - left. unfold post_admin_categories. destruct a; simpl; [| reflexivity].
    destruct (truthy n); reflexivity.
  - left. unfold put_admin_categories. destruct a; simpl; [| reflexivity].
    destruct (findIndex _ (categoriesFile st)) as [idx |]; [| reflexivity].
    destruct (categoriesFile st !! idx); reflexivity.
  - left. unfold delete_admin_categories. destruct a; simpl; [| reflexivity].
    destruct (existsb _ (categoriesFile st)); simpl; [| reflexivity].
    destruct (existsb _ (feedbackFile st)); reflexivity.
  - destruct (post_feedback_cases env ua c r m st) as [[Hnil _] | (cid & _ & _ & Heq)].
    + left. unfold run. now rewrite Hnil.
    + right. right. right. exists ua, c, r, m, cid.
      split; [reflexivity |]. rewrite Heq. split; [discriminate | reflexivity].
  - left. unfold get_admin_feedback, try_catch, bind.
    destruct (negb a); [reflexivity |].
    destruct (given (q_search q)); [destruct (filter_c _ _) |]; reflexivity.
  - left. unfold get_admin_feedback_by_id. destruct a; simpl; [| reflexivity].
    destruct (List.find _ (feedbackFile st)); reflexivity.
  - destruct (put_admin_feedback_cases a i s n c st)
      as [[Hnil _] | (idx & f & g & _ & _ & Hf & Hframe & _ & _ & _ & _ & _ & Heq)].
    + left. unfold run. now rewrite Hnil.
    + right. right. left. exists idx, f, g. rewrite Heq. auto.
  - unfold delete_admin_feedback. destruct a; simpl; [| now left].
    destruct (existsb _ (feedbackFile st)); simpl; [| now left].
    right. left. eexists. reflexivity.
  - unfold bulk_delete. destruct a; simpl; [| now left].
    destruct ids as [| | | | | [| x set] | |]; simpl; try (now left).
    right. left. eexists. reflexivity.
  - left. unfold get_admin_analytics. destruct a; reflexivity.
Qed.

(** What the validation of an accepted submission has established of its
    comment. *)
Lemma post_feedback_comment_checked env ua c r m st :
  effects (post_feedback env ua c r m st) <> [] ->
  truthy m = true /\ (forall s, m = VStr s -> (5 <= String.length s)%nat).
Proof.
  unfold post_feedback. intros Heff.
  destruct (truthy c); [| exfalso; apply Heff; reflexivity].
  destruct (truthy r); [| exfalso; apply Heff; reflexivity].
  destruct (truthy m) eqn:Hm; [| exfalso; apply Heff; reflexivity].
  split; [reflexivity |]. intros s ->.
  cbn [negb orb get_length bind] in Heff.
  unfold lt_number in Heff. cbn [ToNumber] in Heff. rewrite num_lt_int in Heff.
  destruct (Z.ltb_spec (Z.of_nat (String.length s)) 5) as [Hlt | Hge]; [| lia].
  exfalso. apply Heff. reflexivity.
Qed.

Lemma json_value_string (v : value) (s : string) : json_value v = VStr s -> v = VStr s.
Proof.
  destruct v as [| | b | n | t | items | props | name]; cbn [json_value]; try congruence.
  destruct n; discriminate.
Qed.

Lemma same_frame_checked (f g : Feedback.t) :
  same_frame f g -> checked_entry f -> checked_entry g.
Proof.
  intros (_ & Hr & Hc & _ & _). unfold checked_entry. now rewrite Hr, Hc.
Qed.

(** X2. In every state of the files the server can reach, the rating of
    every entry is an integer or [null], and a comment that is a string has
    at least 5 characters.  (A comment need not be a string: a number passes
    the validation, and one that is not finite is in the file as [null].) *)
Theorem reachable_entries_checked st :
  reachable st -> Forall checked_entry (feedbackFile st).
Proof.
  induction 1 as [| parse env req st Hreach IH]; [constructor |].
  destruct (feedback_after_request parse env req st)
    as [Heq | [[keep Heq] | [(idx & f & g & Hf & Hframe & Heq)
                            | (ua & c & r & m & cid & _ & Heff & Heq)]]];
    rewrite Heq.
  - assumption.
  - now apply Forall_filter_keep.
  - apply Forall_insert; [assumption |].
    apply (same_frame_checked f g Hframe).
    rewrite Forall_forall in IH. apply IH. apply list_elem_of_lookup. eauto.
  - apply Forall_app. split; [assumption |]. constructor; [| constructor].
    destruct (post_feedback_comment_checked env ua c r m st Heff) as [Hm Hlen].
    unfold checked_entry. cbn [newFeedback Feedback.rating Feedback.comment].
    split.
    + destruct (parseInt_integer_or_NaN r) as [-> | [z ->]]; [left | right; exists z];
        reflexivity.
    + intros s Hs. apply Hlen. now apply json_value_string.
Qed.

Lemma reachable_entries_checked_witness :
  reachable store1 /\ Forall checked_entry (feedbackFile store1).
Proof.
  split; [exact reachable_store1 | exact (reachable_entries_checked store1 reachable_store1)].
Defined.

(** A comment that is an infinity, as the body [1e400] is read, passes the
    checks and is in the file as [null]. *)
Example infinite_comment_stored_as_null :
  exists stored,
    effects (post_feedback env1 agent (VStr "general") (VNum (int 4))
               (VNum (Infinity false)) initial) = [WriteFeedback [stored]] /\
    Feedback.comment stored = VNull.
Proof. eexists. split; [vm_compute; reflexivity | reflexivity]. Qed.

(** ** Submissions of the expected shape *)

(** X3. For a body whose rating is an integer and whose comment is a string,
    whatever its category: a comment of fewer than 5 characters or a rating
    below 1 or above 5 is answered 400 and nothing is written. *)
Theorem typed_submission_rejected env ua category k s st :
  (String.length s < 5)%nat \/ k < 1 \/ 5 < k ->
  status (post_feedback env ua category (VNum (int k)) (VStr s) st) = 400 /\
  effects (post_feedback env ua category (VNum (int k)) (VStr s) st) = [].
Proof.
  intros Hbad. unfold post_feedback.
  destruct (truthy category); [| split; reflexivity].
  destruct (truthy (VNum (int k))); [| split; reflexivity].
  destruct (truthy (VStr s)); [| split; reflexivity].
  cbn [negb orb get_length bind]. unfold lt_number, gt_number, num_gt. cbn [ToNumber].
  rewrite !num_lt_int.
  destruct (Z.ltb_spec (Z.of_nat (String.length s)) 5); [split; reflexivity |].
  destruct (Z.ltb_spec k 1); [split; reflexivity |].
  destruct (Z.ltb_spec 5 k); [split; reflexivity |]. lia.
Qed.

Lemma typed_submission_rejected_witness :
  ((String.length "meh" < 5)%nat \/ 3 < 1 \/ 5 < 3) /\
  status (post_feedback env2 agent (VStr "general") (VNum (int 3)) (VStr "meh") store1) = 400 /\
  effects (post_feedback env2 agent (VStr "general") (VNum (int 3)) (VStr "meh") store1) = [].
Proof.
  assert (H : (String.length "meh" < 5)%nat \/ 3 < 1 \/ 5 < 3) by (left; cbn; lia).
  split; [exact H |].
  exact (typed_submission_rejected env2 agent (VStr "general") 3 "meh" store1 H).
Defined.

(** X4. For a body whose rating is an integer from 1 to 5 and whose comment
    is a string of at least 5 characters, an accepted submission appends one
    entry: its id is the fresh UUID, its category the id of a category of the
    collection, its rating and comment those of the body, its status open,
    its admin note empty, and every earlier entry is kept. *)
Theorem typed_submission_stored env ua category k s st l :
  1 <= k <= 5 -> (5 <= String.length s)%nat ->
  effects (post_feedback env ua category (VNum (int k)) (VStr s) st) = [WriteFeedback l] ->
  exists f c,
    l = (feedbackFile st ++ [f])%list /\
    In c (categoriesFile st) /\ Feedback.category f = VStr (Category.id c) /\
    Feedback.feedback_id f = randomUUID env /\
    Feedback.rating f = VNum (int k) /\ Feedback.comment f = VStr s /\
    Feedback.status f = VStr "open" /\ Feedback.admin_note f = "" /\
    Feedback.timestamp f = new_Date env.
Proof.
  intros Hk Hs Heff.
  destruct (post_feedback_cases env ua category (VNum (int k)) (VStr s) st)
    as [[Hnil _] | (cid & Hres & _ & Heq)]; [rewrite Hnil in Heff; discriminate |].
  rewrite Heq in Heff. inversion Heff; subst.
  apply resolve_category_Some in Hres as (c & Hin & <- & _).
  eexists _, c. split; [reflexivity |]. split; [assumption |].
  cbn [newFeedback Feedback.category Feedback.rating Feedback.comment Feedback.feedback_id
       Feedback.status Feedback.admin_note Feedback.timestamp].
  rewrite (parseInt_rating k Hk). repeat split; reflexivity.
Qed.

Lemma typed_submission_stored_witness :
  1 <= 4 <= 5 /\ (5 <= String.length "Great course")%nat /\
  exists l,
    effects (post_feedback env1 agent (VStr "general") (VNum (int 4)) (VStr "Great course")
               initial) = [WriteFeedback l] /\
    exists f c,
      l = (feedbackFile initial ++ [f])%list /\
      In c (categoriesFile initial) /\ Feedback.category f = VStr (Category.id c) /\
      Feedback.feedback_id f = randomUUID env1 /\
      Feedback.rating f = VNum (int 4) /\ Feedback.comment f = VStr "Great course" /\
      Feedback.status f = VStr "open" /\ Feedback.admin_note f = "" /\
      Feedback.timestamp f = new_Date env1.
Proof.
  assert (Hk : 1 <= 4 <= 5) by lia.
  assert (Hs : (5 <= String.length "Great course")%nat) by (cbn; lia).
  split; [exact Hk |]. split; [exact Hs |].
  eexists. split; [vm_compute; reflexivity |].
  apply (typed_submission_stored env1 agent (VStr "general") 4 "Great course" initial _ Hk Hs).
  vm_compute. reflexivity.
Defined.

(** ** Reading and deleting one entry *)

Lemma find_app_none {A : Type} (p : A -> bool) (l : list A) (x : A) :
  Forall (fun y => p y = false) l -> p x = true -> List.find p (l ++ [x]) = Some x.
Proof.
  induction 1 as [| y r Hy Hr IH]; simpl; intros Hx.
  - now rewrite Hx.
  - rewrite Hy. now apply IH.
Qed.

(** X5. After an accepted submission whose UUID no earlier entry carries,
    [GET /api/admin/feedback/:id] with the id the submission was answered
    with returns the entry just stored: the last entry of the file, which
    has that id. *)
Theorem get_after_post env ua c r m st :
  status (post_feedback env ua c r m st) = 201 ->
  Forall (fun f => Feedback.feedback_id f <> randomUUID env) (feedbackFile st) ->
  json (post_feedback env ua c r m st)
    = Submitted "Feedback submitted successfully" (randomUUID env) /\
  exists stored,
    feedbackFile (run st (post_feedback env ua c r m st))
      = (feedbackFile st ++ [stored])%list /\
    Feedback.feedback_id stored = randomUUID env /\
    get_admin_feedback_by_id true (randomUUID env) (run st (post_feedback env ua c r m st))
      = reply 200 (OneFeedback stored).
Proof.
  intros Hok Hfresh.
  destruct (post_feedback_cases env ua c r m st) as [[_ Hno] | (cid & _ & _ & Heq)];
    [contradiction |].
  rewrite Heq. split; [reflexivity |].
  exists (newFeedback env ua cid r m).
  split; [reflexivity |]. split; [reflexivity |].
  unfold get_admin_feedback_by_id, run. cbn.
  rewrite find_app_none; [reflexivity | | apply String.eqb_refl].
  eapply Forall_impl; [exact Hfresh |]. cbn beta. intros f Hf.
  now apply String.eqb_neq.
Qed.

Lemma get_after_post_witness :
  status (post_feedback env2 agent (VStr "general") (VNum (int 2)) (VStr "Too fast for me")
            store1) = 201 /\
  Forall (fun f => Feedback.feedback_id f <> randomUUID env2) (feedbackFile store1) /\
  exists stored,
    Feedback.comment stored = VStr "Too fast for me" /\
    get_admin_feedback_by_id true (randomUUID env2)
      (run store1 (post_feedback env2 agent (VStr "general") (VNum (int 2))
                     (VStr "Too fast for me") store1))
      = reply 200 (OneFeedback stored).
Proof.
  assert (Hok : status (post_feedback env2 agent (VStr "general") (VNum (int 2))
                          (VStr "Too fast for me") store1) = 201)
    by (vm_compute; reflexivity).
  assert (Hfresh : Forall (fun f => Feedback.feedback_id f <> randomUUID env2)
                     (feedbackFile store1)).
  { vm_compute. repeat constructor. discriminate. }
  split; [exact Hok |]. split; [exact Hfresh |].
  destruct (get_after_post env2 agent (VStr "general") (VNum (int 2))
              (VStr "Too fast for me") store1 Hok Hfresh)
    as (_ & stored & Hfile & _ & Hget).
  exists stored. split; [| exact Hget].
  vm_compute in Hfile. inversion Hfile. reflexivity.
Defined.

Lemma existsb_id_iff id (l : list Feedback.t) :
  existsb (fun f => String.eqb (Feedback.feedback_id f) id) l = true <->
  Exists (fun f => Feedback.feedback_id f = id) l.
Proof.
  rewrite existsb_exists, Exists_exists. split.
  - intros (f & Hin & Heq). apply String.eqb_eq in Heq.
    exists f. split; [now apply list_elem_of_In | assumption].
  - intros (f & Hin & Heq). exists f.
    split; [now apply list_elem_of_In | now apply String.eqb_eq].
Qed.

Lemma filter_other_ids id (l : list Feedback.t) :
  existsb (fun f => String.eqb (Feedback.feedback_id f) id)
    (List.filter (fun f => negb (String.eqb (Feedback.feedback_id f) id)) l) = false.
Proof.
  induction l as [| f r IH]; simpl; [reflexivity |].
  destruct (String.eqb (Feedback.feedback_id f) id) eqn:E; simpl; [assumption |].
  now rewrite E.
Qed.

Lemma delete_feedback_found id st :
  existsb (fun f => String.eqb (Feedback.feedback_id f) id) (feedbackFile st) = true ->
  delete_admin_feedback true id st =
    reply_after
      (WriteFeedback (List.filter (fun f => negb (String.eqb (Feedback.feedback_id f) id))
                                  (feedbackFile st)))
      200 (Deleted 1).
Proof. intros H. unfold delete_admin_feedback. rewrite H. reflexivity. Qed.

Lemma delete_feedback_missing id st :
  existsb (fun f => String.eqb (Feedback.feedback_id f) id) (feedbackFile st) = false ->
  delete_admin_feedback true id st = reply 404 (Error "Feedback not found").
Proof. intros H. unfold delete_admin_feedback. rewrite H. reflexivity. Qed.

(** X6. [DELETE /api/admin/feedback/:id] with an admin session answers 404
    and writes nothing when no entry has the id.  Otherwise it answers 200
    with [deleted: 1] and writes the collection without every entry of that
    id, the entries of other ids kept; afterwards reading or deleting that
    id is answered 404. *)
Theorem delete_feedback_spec id st :
  (~ Exists (fun f => Feedback.feedback_id f = id) (feedbackFile st) ->
     status (delete_admin_feedback true id st) = 404 /\
     effects (delete_admin_feedback true id st) = []) /\
  (Exists (fun f => Feedback.feedback_id f = id) (feedbackFile st) ->
     status (delete_admin_feedback true id st) = 200 /\
     json (delete_admin_feedback true id st) = Deleted 1 /\
     effects (delete_admin_feedback true id st) =
       [WriteFeedback
          (List.filter (fun f => negb (String.eqb (Feedback.feedback_id f) id))
                       (feedbackFile st))] /\
     (forall f, In f (feedbackFile (run st (delete_admin_feedback true id st))) <->
                In f (feedbackFile st) /\ Feedback.feedback_id f <> id) /\
     status (get_admin_feedback_by_id true id (run st (delete_admin_feedback true id st)))
       = 404 /\
     status (delete_admin_feedback true id (run st (delete_admin_feedback true id st)))
       = 404).
Proof.
  pose proof (existsb_id_iff id (feedbackFile st)) as Hex.
  destruct (existsb (fun f => String.eqb (Feedback.feedback_id f) id) (feedbackFile st))
    eqn:E.
  - split; [intros Hno; exfalso; apply Hno, Hex; reflexivity |].
    intros _. rewrite (delete_feedback_found id st E).
    cbn [status json effects reply_after run fold_left write feedbackFile].
    repeat match goal with |- _ /\ _ => split end; try reflexivity.
    + intros f. rewrite filter_In, Bool.negb_true_iff, String.eqb_neq. reflexivity.
    + unfold get_admin_feedback_by_id. cbn [negb feedbackFile].
      destruct (List.find _ _) as [f |] eqn:Hfind; [| reflexivity].
      apply find_some in Hfind as [Hin Heq]. apply filter_In in Hin as [_ Hne].
      rewrite Heq in Hne. discriminate.
    + rewrite delete_feedback_missing; [reflexivity |].
      cbn [feedbackFile]. apply filter_other_ids.
  - rewrite (delete_feedback_missing id st E).
    split; [intros _; split; reflexivity |].
    intros Hyes. apply Hex in Hyes. discriminate.
Qed.

Lemma delete_feedback_spec_witness :
  Exists (fun f => Feedback.feedback_id f = randomUUID env1) (feedbackFile store1) /\
  status (delete_admin_feedback true (randomUUID env1) store1) = 200 /\
  feedbackFile (run store1 (delete_admin_feedback true (randomUUID env1) store1)) = [] /\
  ~ Exists (fun f => Feedback.feedback_id f = "no-such-id") (feedbackFile store1) /\
  status (delete_admin_feedback true "no-such-id" store1) = 404.
Proof.
  assert (Hyes : Exists (fun f => Feedback.feedback_id f = randomUUID env1)
                   (feedbackFile store1)) by (left; reflexivity).
  assert (Hno : ~ Exists (fun f => Feedback.feedback_id f = "no-such-id")
                    (feedbackFile store1)).
  { intros H. apply Exists_exists in H as (f & Hin & Hid).
    apply list_elem_of_In in Hin. destruct Hin as [<- | []]. discriminate. }
  split; [exact Hyes |].
  destruct (proj2 (delete_feedback_spec (randomUUID env1) store1) Hyes)
    as (Hstatus & _ & _ & _ & _ & _).
  split; [exact Hstatus |]. split; [vm_compute; reflexivity |].
  split; [exact Hno |].
  exact (proj1 (proj1 (delete_feedback_spec "no-such-id" store1) Hno)).
Defined.

(** ** The categories *)

Lemma resolve_category_by_id (categories : list Category.t) (c : Category.t) :
  In c categories ->
  resolve_category categories (VStr (Category.id c)) = Normal (Some (Category.id c)).
Proof.
  intros Hin. unfold resolve_category.
  destruct (find_exists
              (fun c0 => strict_equal (VStr (Category.id c0)) (VStr (Category.id c)))
              categories c Hin) as [byId Hfind].
  { apply strict_equal_str_l. reflexivity. }
  rewrite Hfind. apply find_some in Hfind as [_ Heq].
  apply strict_equal_str_l in Heq. inversion Heq. reflexivity.
Qed.

(** X7. [POST /api/admin/categories] with an admin session and a name that
    is not falsy answers 201 and appends one category with the fresh UUID as
    id, the name and the description (the empty string when none is given)
    as JSON keeps them, leaving feedback.json alone; the public list then
    ends with it, and as soon as that id is not empty a submission that
    names it, with a rating from 1 to 5 and a comment of at least 5
    characters, is accepted and stored with that id as its category.  A falsy
    name is answered 400 and nothing is written. *)
Theorem create_category env name description st :
  (truthy name = false ->
     status (post_admin_categories env true name description st) = 400 /\
     effects (post_admin_categories env true name description st) = []) /\
  (truthy name = true ->
     let created := Category.mk (randomUUID env) (json_value name)
                      (json_value (js_or description (VStr ""))) in
     let st' := run st (post_admin_categories env true name description st) in
     status (post_admin_categories env true name description st) = 201 /\
     json (post_admin_categories env true name description st) = OneCategory created /\
     feedbackFile st' = feedbackFile st /\
     categoriesFile st' = (categoriesFile st ++ [created])%list /\
     json (get_categories st') = Categories (categoriesFile st ++ [created]) /\
     (randomUUID env <> "" ->
      forall env' ua k s,
        1 <= k <= 5 -> (5 <= String.length s)%nat ->
        exists stored,
          post_feedback env' ua (VStr (randomUUID env)) (VNum (int k)) (VStr s) st' =
            reply_after (WriteFeedback (feedbackFile st ++ [stored])) 201
              (Submitted "Feedback submitted successfully" (randomUUID env')) /\
          Feedback.category stored = VStr (randomUUID env) /\
          Feedback.feedback_id stored = randomUUID env')).
Proof.
  unfold post_admin_categories. cbn [negb]. split; intros Hname; rewrite Hname; cbn [negb].
  - split; reflexivity.
  - cbv zeta. cbn [status json reply_after run effects fold_left write feedbackFile
                   categoriesFile get_categories reply].
    repeat match goal with |- _ /\ _ => split end; try reflexivity.
    intros Hid env' ua k s Hk Hs.
    set (created := Category.mk (randomUUID env) (json_value name)
                      (json_value (js_or description (VStr "")))).
    exists (newFeedback env' ua (randomUUID env) (VNum (int k)) (VStr s)).
    split; [| split; reflexivity].
    rewrite (post_feedback_accepts env' ua (VStr (randomUUID env)) k s _ (randomUUID env));
      auto.
    + cbn. apply Bool.negb_true_iff. now apply String.eqb_neq.
    + cbn [categoriesFile].
      apply (resolve_category_by_id (categoriesFile st ++ [created]) created).
      apply in_or_app. right. left. reflexivity.
Qed.

Lemma create_category_witness :
  truthy (VStr "Course Content") = true /\
  randomUUID env2 <> "" /\
  (forall env' ua,
     status (post_feedback env' ua (VStr (randomUUID env2)) (VNum (int 5))
               (VStr "Very clear")
               (run store1 (post_admin_categories env2 true (VStr "Course Content")
                              VUndefined store1))) = 201) /\
  truthy (VStr "") = false /\
  status (post_admin_categories env2 true (VStr "") VUndefined store1) = 400.
Proof.
  destruct (create_category env2 (VStr "Course Content") VUndefined store1) as [_ Hyes].
  destruct (create_category env2 (VStr "") VUndefined store1) as [Hno _].
  assert (Hid : randomUUID env2 <> "") by discriminate.
  split; [reflexivity |]. split; [exact Hid |].
  split.
  - intros env' ua.
    destruct (Hyes eq_refl) as (_ & _ & _ & _ & _ & Hpost).
    destruct (Hpost Hid env' ua 5 "Very clear") as (stored & -> & _); [lia | cbn; lia |].
    reflexivity.
  - split; [reflexivity |]. exact (proj1 (Hno eq_refl)).
Defined.

Lemma findIndex_id_In id (l : list Category.t) :
  findIndex (fun c => String.eqb (Category.id c) id) l = None <-> ~ In id (category_ids l).
Proof.
  rewrite findIndex_existsb. unfold category_ids. split.
  - intros Hnone Hin. apply in_map_iff in Hin as (c & Hid & Hin).
    apply existsb_false_Forall in Hnone. rewrite Forall_forall in Hnone.
    apply list_elem_of_In, Hnone in Hin. apply String.eqb_neq in Hin. contradiction.
  - intros Hno. destruct (existsb _ l) eqn:E; [| reflexivity].
    apply existsb_exists in E as (c & Hin & Heq). apply String.eqb_eq in Heq.
    exfalso. apply Hno. apply in_map_iff. eauto.
Qed.

Lemma category_ids_insert (l : list Category.t) idx c d :
  l !! idx = Some c -> Category.id d = Category.id c ->
  category_ids (<[idx := d]> l) = category_ids l.
Proof.
  unfold category_ids. revert idx. induction l as [| x r IH]; intros [| idx] Hc Hid;
    simpl in *; try discriminate.
  - inversion Hc; subst. now rewrite Hid.
  - f_equal. now apply IH.
Qed.

Lemma findIndex_least {A : Type} (p : A -> bool) (l : list A) (i : nat) :
  findIndex p l = Some i ->
  forall j x, (j < i)%nat -> l !! j = Some x -> p x = false.
Proof.
  revert i. induction l as [| y r IH]; simpl; intros i H; [discriminate |].
  destruct (p y) eqn:Hp.
  - inversion H; subst. intros j x Hj. lia.
  - destruct (findIndex p r) as [i' |] eqn:Hr; simpl in H; [| discriminate].
    inversion H; subst. intros [| j] x Hj Hx.
    + inversion Hx; subst. exact Hp.
    + apply (IH i' eq_refl j x); [lia | exact Hx].
Qed.

(** X8. [PUT /api/admin/categories/:id] with an admin session answers 404
    and writes nothing for an id no category has.  Otherwise it rewrites the
    first category of that id in place, no category before it having the
    id: the ids of the collection and their order stay as they are, the name
    is replaced only by a value that is not falsy, and the description by
    whatever the body carries, [null] and the empty string included, both as
    JSON keeps them. *)
Theorem update_category id name description st :
  (~ In id (category_ids (categoriesFile st)) ->
     status (put_admin_categories true id name description st) = 404 /\
     effects (put_admin_categories true id name description st) = []) /\
  (In id (category_ids (categoriesFile st)) ->
     exists idx c d,
       categoriesFile st !! idx = Some c /\ Category.id c = id /\
       (forall j c', (j < idx)%nat -> categoriesFile st !! j = Some c' ->
                     Category.id c' <> id) /\
       status (put_admin_categories true id name description st) = 200 /\
       json (put_admin_categories true id name description st) = OneCategory d /\
       effects (put_admin_categories true id name description st)
         = [WriteCategories (<[idx := d]> (categoriesFile st))] /\
       Category.id d = id /\
       Category.name d = (if truthy name then json_value name else Category.name c) /\
       Category.description d =
         (if is_undefined description then Category.description c
          else json_value description) /\
       category_ids (<[idx := d]> (categoriesFile st)) = category_ids (categoriesFile st)).
Proof.
  pose proof (findIndex_id_In id (categoriesFile st)) as Hnone.
  unfold put_admin_categories. cbn [negb].
  destruct (findIndex _ (categoriesFile st)) as [idx |] eqn:Hidx.
  - split; [intros Hno; apply Hnone in Hno; discriminate |].
    intros _. destruct (findIndex_Some _ _ _ Hidx) as (c & Hc & Hid).
    apply String.eqb_eq in Hid. rewrite Hc.
    eexists idx, c, _. repeat match goal with |- _ /\ _ => split end;
      try reflexivity; try assumption.
    + intros j c' Hj Hc'. apply String.eqb_neq.
      exact (findIndex_least _ _ _ Hidx j c' Hj Hc').
    + destruct (truthy name), (is_undefined description); cbn; assumption.
    + destruct (truthy name), (is_undefined description); reflexivity.
    + destruct (truthy name), (is_undefined description); reflexivity.
    + apply (category_ids_insert _ idx c); [assumption |].
      destruct (truthy name), (is_undefined description); reflexivity.
  - split; [intros _; split; reflexivity |].
    intros Hin. exfalso. now apply (proj1 Hnone).
Qed.

Lemma update_category_witness :
  In "general" (category_ids (categoriesFile store1)) /\
  (exists c d,
     In c (categoriesFile store1) /\
     status (put_admin_categories true "general" (VStr "") VNull store1) = 200 /\
     json (put_admin_categories true "general" (VStr "") VNull store1) = OneCategory d /\
     Category.id d = "general" /\ Category.name d = Category.name c /\
     Category.description d = VNull) /\
  ~ In "missing" (category_ids (categoriesFile store1)) /\
  status (put_admin_categories true "missing" (VStr "x") VUndefined store1) = 404.
Proof.
  assert (Hin : In "general" (category_ids (categoriesFile store1))) by (left; reflexivity).
  assert (Hno : ~ In "missing" (category_ids (categoriesFile store1))).
  { intros [H | []]. discriminate. }
  split; [exact Hin |].
  destruct (proj2 (update_category "general" (VStr "") VNull store1) Hin)
    as (idx & c & d & Hc & _ & _ & Hstatus & Hjson & _ & Hid & Hname & Hdesc & _).
  split.
  - exists c, d. split; [apply list_elem_of_In, list_elem_of_lookup; eauto |].
    repeat split; assumption.
  - split; [exact Hno |].
    exact (proj1 (proj1 (update_category "missing" (VStr "x") VUndefined store1) Hno)).
Defined.

(** ** Which file a route writes *)

(** X9. No request writes more than once.  The routes under
    [/api/admin/categories] write categories.json only, the feedback routes
    that change data write feedback.json only, and the GET routes write
    nothing. *)
Theorem writes_by_route parse env req st :
  match req with
  | GET_categories | GET_admin_categories _ | GET_admin_feedback _ _
  | GET_admin_feedback_by_id _ _ | GET_admin_analytics _ =>
      effects (handle parse env req st) = []
  | POST_admin_categories _ _ _ | PUT_admin_categories _ _ _ _
  | DELETE_admin_categories _ _ =>
      writes_categories_only (handle parse env req st) /\
      feedbackFile (run st (handle parse env req st)) = feedbackFile st
  | POST_feedback _ _ _ _ | PUT_admin_feedback _ _ _ _ _ | DELETE_admin_feedback _ _
  | POST_admin_feedback_bulk_delete _ _ =>
      writes_feedback_only (handle parse env req st) /\
      categoriesFile (run st (handle parse env req st)) = categoriesFile st
  end.
Proof.
  unfold writes_categories_only, writes_feedback_only.
  destruct req as [| a | a n d | a i n d | a i | ua c r m | a q | a i
                   | a i s n c | a i | a ids | a]; simpl.
  - reflexivity.
  - unfold get_admin_categories. destruct a; reflexivity.
  - unfold post_admin_categories. destruct a; simpl; [| auto].
    destruct (truthy n); simpl; eauto.
  - unfold put_admin_categories. destruct a; simpl; [| auto].
    destruct (findIndex _ (categoriesFile st)) as [idx |]; [| auto].
    destruct (categoriesFile st !! idx); simpl; eauto.
  - unfold delete_admin_categories. destruct a; simpl; [| auto].
    destruct (existsb _ (categoriesFile st)); simpl; [| auto].
    destruct (existsb _ (feedbackFile st)); simpl; eauto.
  - destruct (post_feedback_cases env ua c r m st) as [[Hnil _] | (cid & _ & _ & Heq)].
    + unfold run. rewrite Hnil. auto.
    + rewrite Heq. simpl. eauto.
  - unfold get_admin_feedback, try_catch, bind.
    destruct (negb a); [reflexivity |].
    destruct (given (q_search q)); [destruct (filter_c _ _) |]; reflexivity.
  - unfold get_admin_feedback_by_id. destruct a; simpl; [| reflexivity].
    destruct (List.find _ (feedbackFile st)); reflexivity.
  - destruct (put_admin_feedback_cases a i s n c st)
      as [[Hnil _] | (idx & f & g & _ & _ & _ & _ & _ & _ & _ & _ & _ & Heq)].
    + unfold run. rewrite Hnil. auto.
    + rewrite Heq. simpl. eauto.
  - unfold delete_admin_feedback. destruct a; simpl; [| auto].
    destruct (existsb _ (feedbackFile st)); simpl; eauto.
  - unfold bulk_delete. destruct a; simpl; [| auto].
    destruct ids as [| | | | | [| x set] | |]; simpl; eauto.
  - unfold get_admin_analytics. destruct a; reflexivity.
Qed.

(** ** The shape of a hash *)

Lemma be_bytes_length (k : nat) (n : Z) : List.length (Sha256.be_bytes k n) = k.
Proof. induction k as [| k IH]; simpl; congruence. Qed.

Lemma be_bytes_range (k : nat) (n : Z) :
  Forall (fun b => 0 <= b < 256) (Sha256.be_bytes k n).
Proof.
  induction k as [| k IH]; simpl; constructor; [| assumption].
  apply Z.mod_pos_bound. lia.
Qed.

Lemma compress_length (h block : list Z) :
  List.length h = 8%nat -> List.length (Sha256.compress h block) = 8%nat.
Proof.
  intros Hh. unfold Sha256.compress.
  rewrite length_map, length_combine, Hh. reflexivity.
Qed.

Lemma digest_length (msg : list Z) : List.length (Sha256.digest msg) = 8%nat.
Proof.
  unfold Sha256.digest.
  generalize (Sha256.blocks (List.length (Sha256.pad msg)) (Sha256.pad msg)).
  assert (H0 : List.length Sha256.H0 = 8%nat) by reflexivity.
  revert H0. generalize Sha256.H0.
  intros h Hh bs. revert h Hh.
  induction bs as [| b bs IH]; simpl; intros h Hh; [assumption |].
  apply IH. now apply compress_length.
Qed.

Lemma hex_digit_is_hex (n : Z) : 0 <= n < 16 -> is_hex (Sha256.hex_digit n) = true.
Proof.
  intros Hn.
  assert (Hall : forallb (fun k => is_hex (Sha256.hex_digit (Z.of_nat k))) (seq 0 16) = true)
    by reflexivity.
  rewrite forallb_forall in Hall.
  rewrite <- (Z2Nat.id n) by lia. apply Hall. apply in_seq. lia.
Qed.

Lemma hex_of_bytes_shape (bs : list Z) :
  Forall (fun b => 0 <= b < 256) bs ->
  String.length (Sha256.hex_of_bytes bs) = (2 * List.length bs)%nat /\
  all_chars is_hex (Sha256.hex_of_bytes bs).
Proof.
  induction 1 as [| b r Hb Hr [IHlen IHhex]]; simpl; [split; [reflexivity | exact I] |].
  split; [rewrite IHlen; lia |].
  split; [apply hex_digit_is_hex; split;
          [apply Z.div_pos; lia | apply Z.div_lt_upper_bound; lia] |].
  split; [apply hex_digit_is_hex; apply Z.mod_pos_bound; lia | assumption].
Qed.

Lemma flat_map_be_bytes (ws : list Z) :
  List.length (flat_map (Sha256.be_bytes 4) ws) = (4 * List.length ws)%nat /\
  Forall (fun b => 0 <= b < 256) (flat_map (Sha256.be_bytes 4) ws).
Proof.
  induction ws as [| w r [IHlen IHrange]].
  - split; [reflexivity | constructor].
  - change (flat_map (Sha256.be_bytes 4) (w :: r))
      with (Sha256.be_bytes 4 w ++ flat_map (Sha256.be_bytes 4) r)%list.
    split.
    + rewrite length_app, be_bytes_length, IHlen. simpl. lia.
    + apply Forall_app. split; [apply be_bytes_range | assumption].
Qed.

(** X10. Whatever the user-agent and the clock, the hash of an entry is a
    string of exactly 64 characters, each a digit or a letter from a to f. *)
Theorem hash_shape env (user_agent : option string) :
  String.length (hashIdentifier env user_agent) = 64%nat /\
  all_chars is_hex (hashIdentifier env user_agent).
Proof.
  unfold hashIdentifier, Sha256.sha256_hex.
  match goal with
  | |- context [Sha256.digest ?m] =>
      pose proof (digest_length m) as Hd;
      destruct (flat_map_be_bytes (Sha256.digest m)) as [Hlen Hrange]
  end.
  match goal with
  | |- context [Sha256.hex_of_bytes ?bs] =>
      destruct (hex_of_bytes_shape bs Hrange) as [Hl Hh]
  end.
  split; [| exact Hh]. rewrite Hl, Hlen, Hd. reflexivity.
Qed.

(** ** The words of the analytics *)

Lemma starts_with_app (w b : string) : starts_with w (w +:+ b) = true.
Proof.
  induction w as [| c r IH]; [reflexivity |].
  change (String c r +:+ b) with (String c (r +:+ b)).
  cbn [starts_with]. now rewrite Ascii.eqb_refl.
Qed.

Lemma includes_unfold (s q : string) :
  includes s q =
    starts_with q s || match s with EmptyString => false | String _ r => includes r q end.
Proof. destruct s; reflexivity. Qed.

Lemma includes_here (w b : string) : includes (w +:+ b) w = true.
Proof. rewrite includes_unfold, starts_with_app. reflexivity. Qed.

Lemma includes_later (a s w : string) : includes s w = true -> includes (a +:+ s) w = true.
Proof.
  intros H. induction a as [| c r IH]; [assumption |].
  change (String c r +:+ s) with (String c (r +:+ s)).
  rewrite includes_unfold, IH. apply Bool.orb_true_r.
Qed.

(** Every match is a piece of the text: [pre] is what was read before the
    run [cur] began. *)
Lemma words_from_included (s cur pre : string) :
  Forall (fun w => includes (pre +:+ String.rev cur +:+ s) w = true) (words_from cur s).
Proof.
  assert (Hflush : forall cur pre rest,
            Forall (fun w => includes (pre +:+ String.rev cur +:+ rest) w = true)
                   (flush_run cur)).
  { intros c p rest. unfold flush_run.
    destruct (4 <=? String.length c)%nat; constructor; [| constructor].
    apply includes_later, includes_here. }
  revert cur pre. induction s as [| c r IH]; intros cur pre; simpl; [apply Hflush |].
  assert (Hstep : pre +:+ String.rev cur +:+ String c r
                  = pre +:+ String.rev (String c cur) +:+ r).
  { unfold String.rev at 2. cbn [String.rev_app]. rewrite rev_app_spec.
    now rewrite append_assoc. }
  destruct (is_word_char c).
  - rewrite Hstep. apply IH.
  - apply Forall_app. split; [apply Hflush |].
    rewrite Hstep.
    replace (pre +:+ String.rev (String c cur) +:+ r)
      with ((pre +:+ String.rev (String c cur)) +:+ String.rev "" +:+ r)
      by (now rewrite append_assoc).
    apply IH.
Qed.

(** X11. Every word the analytics route counts is a piece of the lower-cased
    text of the comments, joined by single spaces, that has at least four
    characters, all of them letters, digits or underscores. *)
Theorem counted_words_shape (feedback : list Feedback.t) :
  Forall (fun w =>
            includes (toLowerCase (join " " (map Feedback.comment feedback))) w = true /\
            (4 <= String.length w)%nat /\ all_chars is_word_char w)
         (words_of feedback).
Proof.
  unfold words_of, match_words.
  pose proof (words_from_included
                (toLowerCase (join " " (map Feedback.comment feedback))) "" "") as Hin.
  pose proof (match_words_spec
                (toLowerCase (join " " (map Feedback.comment feedback)))) as Hshape.
  unfold match_words in Hshape.
  rewrite Forall_forall in *. intros w Hw.
  destruct (Hshape w Hw) as [Hchars Hlen].
  split; [exact (Hin w Hw) | split; assumption].
Qed.

(** X12. When none of the counted words is a key that a plain object
    inherits ([constructor], [__proto__] and the like), the analytics route
    lists at most ten words, each once and with the exact number of its
    occurrences, by descending count, and no word it leaves out occurs more
    often than a word it lists. *)
Theorem common_words_exact (feedback : list Feedback.t) :
  Forall (fun w => inherited w = false) (words_of feedback) ->
  (List.length (commonWords feedback) <= 10)%nat /\
  NoDup (map fst (commonWords feedback)) /\
  (forall w v, In (w, v) (commonWords feedback) ->
     In w (words_of feedback) /\ v = VNum (int (occurrences w (words_of feedback)))) /\
  StronglySorted (fun a b => count_of a >= count_of b) (commonWords feedback) /\
  (forall w, In w (words_of feedback) ->
     In w (map fst (commonWords feedback)) \/
     (List.length (commonWords feedback) = 10%nat /\
      forall e, In e (commonWords feedback) ->
                count_of e >= occurrences w (words_of feedback))).
Proof. exact (common_words_of_plain_words feedback). Qed.

Lemma common_words_exact_witness :
  Forall (fun w => inherited w = false) (words_of (feedbackFile store1)) /\
  (List.length (commonWords (feedbackFile store1)) <= 10)%nat /\
  (forall w v, In (w, v) (commonWords (feedbackFile store1)) ->
     In w (words_of (feedbackFile store1)) /\
     v = VNum (int (occurrences w (words_of (feedbackFile store1))))).
Proof.
  assert (H : Forall (fun w => inherited w = false) (words_of (feedbackFile store1))).
  { vm_compute. repeat constructor. }
  destruct (common_words_exact (feedbackFile store1) H) as (Hlen & _ & Hexact & _).
  split; [exact H |]. split; [exact Hlen | exact Hexact].
Defined.

(** ** The admin session *)

Lemma post_feedback_statuses env ua c r m st :
  status (post_feedback env ua c r m st) = 201 \/
  status (post_feedback env ua c r m st) = 400 \/
  status (post_feedback env ua c r m st) = 500.
Proof.
  unfold post_feedback, try_catch, bind.
  repeat case_match; cbn; auto;
    repeat match goal with
    | E : Normal _ = Normal _ |- _ => inversion E; subst; clear E
    | E : Normal _ = Throw _ |- _ => discriminate E
    | E : Throw _ = Normal _ |- _ => discriminate E
    | E : context [match ?x with _ => _ end] |- _ => destruct x eqn:?; try discriminate
    | E : context [if ?x then _ else _] |- _ => destruct x eqn:?; try discriminate
    end; cbn; auto.
Qed.

Lemma login_accepts e (username password : value) :
  strict_equal username (VStr (Session.ADMIN_USERNAME e))
  && strict_equal password (VStr (Session.ADMIN_PASSWORD e)) = true <->
  Session.good_login e (Session.Login username password).
Proof.
  unfold Session.good_login.
  rewrite Bool.andb_true_iff, !strict_equal_str_r. split.
  - intros [-> ->]. reflexivity.
  - intros H. inversion H. auto.
Qed.

(** X13. Which requests are answered 401.  Of the routes under
    [/api/admin], the ten that read or change categories, feedback and
    analytics answer 401 exactly when the session has no admin flag, and
    then nothing is written.  The login answers 401 exactly when the
    credentials are not the configured ones, whatever the flag of the
    session; logout and check never answer 401, and neither do the two
    public routes. *)
Theorem unauthorized_iff_no_flag parse env req st :
  match admin_flag req with
  | Some a =>
      (status (handle parse env req st) = 401 <-> a = false) /\
      (a = false -> effects (handle parse env req st) = [])
  | None => status (handle parse env req st) <> 401
  end /\
  (forall e username password s,
     Session.status (Session.post_admin_login e username password s) = 401 <->
     ~ Session.good_login e (Session.Login username password)) /\
  (forall s, Session.status (Session.post_admin_logout s) <> 401 /\
             Session.status (Session.get_admin_check s) <> 401).
Proof.
  split; [| split].
  2:{ intros e username password s. rewrite <- login_accepts.
      unfold Session.post_admin_login.
      destruct (strict_equal username _ && strict_equal password _);
        cbn; split; congruence. }
  2:{ intros s. split; discriminate. }
  destruct req as [| a | a n d | a i n d | a i | ua c r m | a q | a i
                   | a i s n c | a i | a ids | a]; cbn [admin_flag handle].
  - discriminate.
  - unfold get_admin_categories. destruct a; cbn; repeat split; congruence.
  - unfold post_admin_categories. destruct a; cbn [negb];
      [destruct (truthy n) |]; cbn; repeat split; congruence.
  - unfold put_admin_categories. destruct a; cbn [negb].
    + destruct (findIndex _ (categoriesFile st)) as [idx |];
        [destruct (categoriesFile st !! idx) |]; cbn; repeat split; congruence.
    + cbn. repeat split; congruence.
  - unfold delete_admin_categories. destruct a; cbn [negb].
    + destruct (existsb _ (categoriesFile st)); cbn [negb];
        [destruct (existsb _ (feedbackFile st)) |]; cbn; repeat split; congruence.
    + cbn. repeat split; congruence.
  - destruct (post_feedback_statuses env ua c r m st) as [H | [H | H]]; rewrite H;
      discriminate.
  - unfold get_admin_feedback, try_catch, bind. destruct a; cbn [negb].
    + destruct (given (q_search q)); [destruct (filter_c _ _) |];
        cbn; repeat split; congruence.
    + cbn. repeat split; congruence.
  - unfold get_admin_feedback_by_id. destruct a; cbn [negb].
    + destruct (List.find _ (feedbackFile st)); cbn; repeat split; congruence.
    + cbn. repeat split; congruence.
  - unfold put_admin_feedback. destruct a; cbn [negb].
    + repeat case_match; cbn; repeat split; congruence.
    + cbn. repeat split; congruence.
  - unfold delete_admin_feedback. destruct a; cbn [negb].
    + destruct (existsb _ (feedbackFile st)); cbn; repeat split; congruence.
    + cbn. repeat split; congruence.
  - unfold bulk_delete. destruct a; cbn [negb].
    + destruct ids as [| | | | | [| x set] | |]; cbn; repeat split; congruence.
    + cbn. repeat split; congruence.
  - unfold get_admin_analytics. destruct a; cbn; repeat split; congruence.
Qed.

Lemma unauthorized_iff_no_flag_witness :
  admin_flag (GET_admin_analytics false) = Some false /\
  status (handle no_dates env1 (GET_admin_analytics false) store1) = 401 /\
  admin_flag (POST_feedback agent VNull VNull VNull) = None /\
  status (handle no_dates env1 (POST_feedback agent VNull VNull VNull) store1) <> 401 /\
  Session.status (Session.post_admin_login no_environment (VStr "admin") (VStr "guess")
                    {| Session.isAdmin := true |}) = 401.
Proof.
  split; [reflexivity |].
  split.
  - apply (proj1 (proj1 (unauthorized_iff_no_flag no_dates env1
                           (GET_admin_analytics false) store1))).
    reflexivity.
  - split; [reflexivity |]. split.
    + exact (proj1 (unauthorized_iff_no_flag no_dates env1
                      (POST_feedback agent VNull VNull VNull) store1)).
    + apply (proj1 (proj2 (unauthorized_iff_no_flag no_dates env1 GET_categories initial))).
      unfold Session.good_login. discriminate.
Defined.

Lemma session_after_snoc e events ev :
  Session.session_after e (events ++ [ev])
  = Session.step e (Session.session_after e events) ev.
Proof. unfold Session.session_after. now rewrite fold_left_app. Qed.

(** X14. The session of a client carries the admin flag exactly when the
    client has logged in with the configured user name and password, both as
    strings, and has neither logged out nor lost the session since; a login
    with other credentials is answered 401 and leaves the session as it
    was. *)
Theorem admin_flag_needs_login e events :
  (Session.isAdmin (Session.session_after e events) = true <->
   exists before ev later,
     events = (before ++ ev :: later)%list /\ Session.good_login e ev /\
     Forall (fun x => ~ Session.ends_session x) later) /\
  (forall username password s,
     ~ Session.good_login e (Session.Login username password) ->
     Session.status (Session.post_admin_login e username password s) = 401 /\
     Session.after (Session.post_admin_login e username password s) = s).
Proof.
  split.
  - induction events as [| ev events IH] using rev_ind.
    + split; [discriminate |].
      intros (before & ev & later & Heq & _). destruct before; discriminate.
    + rewrite session_after_snoc. split.
      * intros Hflag. destruct ev as [u p | | |]; cbn in Hflag; try discriminate.
        -- unfold Session.post_admin_login in Hflag.
           destruct (strict_equal u _ && strict_equal p _) eqn:Hgood.
           ++ exists events, (Session.Login u p), []. split; [reflexivity |].
              split; [now apply login_accepts | constructor].
           ++ cbn in Hflag. apply IH in Hflag as (before & g & later & -> & Hg & Hl).
              exists before, g, (later ++ [Session.Login u p])%list.
              split; [now rewrite <- app_assoc |]. split; [assumption |].
              apply Forall_app. split; [assumption |]. constructor; [| constructor].
              intros [H | H]; discriminate.
        -- apply IH in Hflag as (before & g & later & -> & Hg & Hl).
           exists before, g, (later ++ [Session.Check])%list.
           split; [now rewrite <- app_assoc |]. split; [assumption |].
           apply Forall_app. split; [assumption |]. constructor; [| constructor].
           intros [H | H]; discriminate.
      * intros (before & g & later & Heq & Hg & Hl).
        destruct later as [| x later _] using rev_ind.
        -- apply app_inj_tail in Heq as [_ <-]. rewrite Hg. cbn.
           unfold Session.post_admin_login.
           now rewrite (proj2 (login_accepts e _ _) eq_refl).
        -- rewrite app_comm_cons, app_assoc in Heq.
           apply app_inj_tail in Heq as [-> <-].
           apply Forall_app in Hl as [Hl Hx]. apply Forall_cons in Hx as [Hx _].
           assert (Hprev : Session.isAdmin (Session.session_after e (before ++ g :: later))
                           = true).
           { apply IH. exists before, g, later. auto. }
           destruct ev as [u p | | |]; cbn.
           ++ unfold Session.post_admin_login.
              destruct (strict_equal u _ && strict_equal p _); [reflexivity | assumption].
           ++ exfalso. apply Hx. now left.
           ++ assumption.
           ++ exfalso. apply Hx. now right.
  - intros u p s Hbad. unfold Session.post_admin_login.
    destruct (strict_equal u _ && strict_equal p _) eqn:Hgood; [| split; reflexivity].
    exfalso. apply Hbad. now apply login_accepts.
Qed.

Lemma admin_flag_needs_login_witness :
  Session.isAdmin
    (Session.session_after no_environment
       [Session.Login (VStr "admin") (VStr "guess"); Session.Login (VStr "admin") (VStr "admin123");
        Session.Check; Session.Login (VStr "root") (VStr "admin123")]) = true /\
  ~ Session.good_login no_environment (Session.Login (VStr "admin") (VStr "guess")) /\
  Session.status (Session.post_admin_login no_environment (VStr "admin") (VStr "guess")
                    Session.fresh) = 401.
Proof.
  destruct (admin_flag_needs_login no_environment
              [Session.Login (VStr "admin") (VStr "guess");
               Session.Login (VStr "admin") (VStr "admin123");
               Session.Check; Session.Login (VStr "root") (VStr "admin123")])
    as [Hiff Hbad].
  assert (Hno : ~ Session.good_login no_environment
                    (Session.Login (VStr "admin") (VStr "guess"))).
  { unfold Session.good_login. intros H. inversion H. }
  split.
  - apply Hiff.
    exists [Session.Login (VStr "admin") (VStr "guess")],
           (Session.Login (VStr "admin") (VStr "admin123")),
           [Session.Check; Session.Login (VStr "root") (VStr "admin123")].
    split; [reflexivity |]. split; [reflexivity |].
    repeat constructor; intros [H | H]; discriminate.
  - split; [exact Hno |].
    exact (proj1 (Hbad (VStr "admin") (VStr "guess") Session.fresh Hno)).
Defined.

(** ** The normalisation at start-up *)

Lemma fold_assoc_set (k : string) (es : list (string * value)) (acc : list (string * value)) :
  assoc k (fold_left (fun obj kv => assoc_set (fst kv) (snd kv) obj) es acc) =
    match assoc k (rev es) with
    | Some v => Some v
    | None => assoc k acc
    end.
Proof.
  induction es as [| [k0 v0] es IH] using rev_ind; [reflexivity |].
  rewrite fold_left_app, rev_app_distr. cbn [fold_left rev app assoc fst snd].
  rewrite assoc_assoc_set. destruct (String.eqb k k0); [reflexivity | apply IH].
Qed.

Lemma name_entries_Normal (categories : list Category.t) (es : list (string * value)) :
  Startup.name_entries categories = Normal es ->
  es = map (fun c => (Startup.name_key c, VStr (Category.id c))) categories /\
  Forall (fun c => Startup.is_string (Category.name c) = true) categories.
Proof.
  revert es. induction categories as [| c r IH]; intros es H.
  - inversion H. split; [reflexivity | constructor].
  - cbn [Startup.name_entries] in H.
    destruct (Category.name c) as [| | | | n | | |] eqn:Hname; try discriminate H.
    assert (Hk : Startup.name_key c = toLowerCase n)
      by (unfold Startup.name_key; now rewrite Hname).
    cbn in H. destruct (Startup.name_entries r) as [rest | e] eqn:Hr; [| discriminate H].
    destruct (IH rest eq_refl) as [-> Hall]. inversion H. split.
    + cbn [map]. now rewrite Hk.
    + constructor; [now rewrite Hname | assumption].
Qed.

Lemma name_entries_strings (categories : list Category.t) :
  Forall (fun c => Startup.is_string (Category.name c) = true) categories ->
  Startup.name_entries categories =
    Normal (map (fun c => (Startup.name_key c, VStr (Category.id c))) categories).
Proof.
  induction 1 as [| c r Hc Hr IH]; [reflexivity |].
  cbn [Startup.name_entries map]. rewrite IH.
  destruct (Category.name c) as [| | | | n | | |] eqn:Hname; try discriminate Hc.
  assert (Hk : Startup.name_key c = toLowerCase n)
    by (unfold Startup.name_key; now rewrite Hname).
  rewrite Hk. reflexivity.
Qed.

(** What [byName] holds of its own is the id of a category. *)
Lemma byName_own (categories : list Category.t) (k : string) (v : value) :
  assoc k (fromEntries
             (map (fun c => (Startup.name_key c, VStr (Category.id c))) categories)) = Some v ->
  exists c, In c categories /\ Startup.name_key c = k /\ v = VStr (Category.id c).
Proof.
  unfold fromEntries. rewrite fold_assoc_set. cbn [assoc].
  destruct (assoc k (rev _)) as [v' |] eqn:Hv; [| discriminate].
  intros H; inversion H; subst v'. apply assoc_In, in_rev, in_map_iff in Hv.
  destruct Hv as (c & Hc & Hin). inversion Hc. now exists c.
Qed.

Lemma normalize_entry_kept byName byId (f : Feedback.t) :
  array_includes byId (Feedback.category f) = true ->
  truthy (Feedback.status f) = true ->
  Startup.normalize_entry byName byId f = (f, false).
Proof.
  intros Hid Hst. unfold Startup.normalize_entry, Startup.normalize_category.
  rewrite Hid. cbn [negb andb]. unfold Startup.normalize_status. now rewrite Hst.
Qed.

Lemma existsb_snd_kept {A : Type} (g : A -> A * bool) (l : list A) :
  Forall (fun x => g x = (x, false)) l ->
  existsb snd (map g l) = false /\ map fst (map g l) = l.
Proof.
  induction 1 as [| x r Hx Hr [IH1 IH2]]; [split; reflexivity |].
  cbn [map existsb]. rewrite Hx, IH1, IH2. split; reflexivity.
Qed.

(** Files whose entries carry the ids of categories and a truthy status
    are left alone. *)
Lemma normalizeData_nothing_to_do (st : store) :
  referential_integrity st ->
  Forall (fun f => truthy (Feedback.status f) = true) (feedbackFile st) ->
  Startup.normalizeData st = [].
Proof.
  intros Hint Hst. unfold Startup.normalizeData.
  destruct (Startup.name_entries (categoriesFile st)) as [es | e]; [| reflexivity].
  cbv zeta.
  destruct (existsb_snd_kept
              (Startup.normalize_entry (fromEntries es)
                 (map (fun c => VStr (Category.id c)) (categoriesFile st)))
              (feedbackFile st)) as [-> _]; [| reflexivity].
  unfold referential_integrity in Hint.
  rewrite Forall_forall in Hint, Hst |- *. intros f Hf.
  apply list_elem_of_In in Hf.
  apply normalize_entry_kept.
  - destruct (Hint f) as (c & Hc & Href); [now apply list_elem_of_In |].
    unfold references in Href. rewrite Href. apply array_includes_str.
    apply in_map_iff. now exists c.
  - apply Hst. now apply list_elem_of_In.
Qed.

Lemma valid_status_truthy (v : value) : valid_status v -> truthy v = true.
Proof. intros [-> | [-> | ->]]; reflexivity. Qed.

(** X15. Starting the server again on files that the server itself wrote
    rewrites nothing: the normalisation at start-up finds every entry
    with the id of a category and a status, and leaves feedback.json
    as it is. *)
Theorem restart_keeps_written_files (st : store) :
  reachable st -> Startup.normalizeData st = [] /\ Startup.restart st = st.
Proof.
  intros Hreach.
  assert (H : Startup.normalizeData st = []).
  { apply normalizeData_nothing_to_do; [now apply reachable_integrity |].
    eapply Forall_impl; [apply reachable_status, Hreach |].
    intros f Hf. now apply valid_status_truthy. }
  split; [exact H |]. unfold Startup.restart. now rewrite H.
Qed.

Lemma restart_keeps_written_files_witness :
  Startup.normalizeData store1 = [] /\ Startup.restart store1 = store1.
Proof. apply (restart_keeps_written_files store1). exact reachable_store1. Defined.

Lemma normalize_entry_frame byName byId (f : Feedback.t) :
  let g := fst (Startup.normalize_entry byName byId f) in
  same_frame f g /\
  Feedback.admin_note g = Feedback.admin_note f /\
  Feedback.status g = (if truthy (Feedback.status f) then Feedback.status f else VStr "open") /\
  (array_includes byId (Feedback.category f) = true \/
   Startup.is_string (Feedback.category f) = false ->
   Feedback.category g = Feedback.category f).
Proof.
  unfold Startup.normalize_entry, Startup.normalize_category, Startup.normalize_status.
  destruct (array_includes byId (Feedback.category f)) eqn:Hid;
    destruct (Startup.is_string (Feedback.category f)) eqn:Hstr; cbn [negb andb];
    try destruct (truthy (property_get byName _)) eqn:Hname;
    cbn [Feedback.status Feedback.set_category];
    destruct (truthy (Feedback.status f)) eqn:Hst; cbn [negb fst];
    (split; [repeat split |]); repeat split; try reflexivity;
    intros [H | H]; congruence.
Qed.

Lemma Forall2_map_fst {A : Type} (R : A -> A -> Prop) (g : A -> A * bool) (l : list A) :
  (forall x, R x (fst (g x))) -> Forall2 R l (map fst (map g l)).
Proof. intros H. induction l as [| x r IH]; constructor; auto. Qed.

(** X16. What the normalisation at start-up can do to the files: it
    never writes categories.json, and when it writes feedback.json the
    entries are the same in number and order, each with its id, rating,
    comment, timestamp, hash and admin note; a status that counts as true
    is kept and any other becomes open; a category that is the id of a
    category, or not a string, is kept. *)
Theorem normalizeData_frame (st : store) (e : effect) :
  In e (Startup.normalizeData st) ->
  exists l,
    e = WriteFeedback l /\
    Forall2 (fun f g =>
               same_frame f g /\
               Feedback.admin_note g = Feedback.admin_note f /\
               Feedback.status g =
                 (if truthy (Feedback.status f) then Feedback.status f else VStr "open") /\
               (In (Feedback.category f)
                   (map (fun c => VStr (Category.id c)) (categoriesFile st)) \/
                Startup.is_string (Feedback.category f) = false ->
                Feedback.category g = Feedback.category f))
            (feedbackFile st) l.
Proof.
  unfold Startup.normalizeData.
  destruct (Startup.name_entries (categoriesFile st)) as [es | err]; [| contradiction].
  cbv zeta. destruct (existsb snd _); [| contradiction].
  intros [<- | []]. eexists. split; [reflexivity |].
  apply Forall2_map_fst. intros f.
  destruct (normalize_entry_frame (fromEntries es)
              (map (fun c => VStr (Category.id c)) (categoriesFile st)) f)
    as (Hframe & Hnote & Hstatus & Hcat).
  repeat split; try assumption; try apply Hframe.
  intros [Hin | Hstr]; apply Hcat; [left | now right].
  unfold array_includes. apply existsb_exists.
  exists (Feedback.category f). split; [assumption |].
  apply in_map_iff in Hin as (c & <- & _). now apply same_value_zero_str.
Qed.

Lemma normalizeData_frame_witness :
  exists l,
    In (WriteFeedback l) (Startup.normalizeData legacy_store) /\ List.length l = 2%nat.
Proof.
  assert (Hin : In (hd (WriteFeedback []) (Startup.normalizeData legacy_store))
                   (Startup.normalizeData legacy_store))
    by (vm_compute; left; reflexivity).
  destruct (normalizeData_frame legacy_store _ Hin) as (l & Hl & Hall).
  exists l. split; [rewrite <- Hl; exact Hin |].
  apply Forall2_length in Hall. now rewrite <- Hall.
Defined.

Lemma normalize_category_settled byName byId (f g : Feedback.t) :
  (forall k v, assoc k byName = Some v ->
               array_includes byId v = true /\ Startup.json_property v = v) ->
  Feedback.category g = Feedback.category (fst (Startup.normalize_category byName byId f)) ->
  Startup.normalize_category byName byId g = (g, false).
Proof.
  intros Hown. unfold Startup.normalize_category.
  destruct (negb (array_includes byId (Feedback.category f))
            && Startup.is_string (Feedback.category f)) eqn:Hcond.
  - destruct (truthy (property_get byName
                        (toLowerCase (ToString (Feedback.category f))))) eqn:Hid.
    + cbn [fst Feedback.category Feedback.set_category]. intros ->.
      unfold property_get in Hid |- *.
      destruct (assoc (toLowerCase (ToString (Feedback.category f))) byName) as [v |] eqn:Hv.
      * destruct (Hown _ _ Hv) as [Hin ->]. now rewrite Hin.
      * unfold inherited_value in Hid |- *.
        destruct (String.eqb _ "__proto__"); [now rewrite Bool.andb_false_r |].
        destruct (is_in _ object_prototype_methods); [now rewrite Bool.andb_false_r |].
        discriminate Hid.
    + cbn [fst]. intros ->. now rewrite Hcond, Hid.
  - cbn [fst]. intros ->. now rewrite Hcond.
Qed.

Lemma normalize_entry_settled byName byId (f : Feedback.t) :
  (forall k v, assoc k byName = Some v ->
               array_includes byId v = true /\ Startup.json_property v = v) ->
  Startup.normalize_entry byName byId (fst (Startup.normalize_entry byName byId f)) =
    (fst (Startup.normalize_entry byName byId f), false).
Proof.
  intros Hown. unfold Startup.normalize_entry at 2 3.
  destruct (Startup.normalize_category byName byId f) as [f1 c1] eqn:H1.
  destruct (Startup.normalize_status f1) as [f2 c2] eqn:H2. cbn [fst].
  assert (Hcat : Feedback.category f2 = Feedback.category f1 /\
                 truthy (Feedback.status f2) = true).
  { unfold Startup.normalize_status in H2.
    destruct (truthy (Feedback.status f1)) eqn:Hst; inversion H2; subst; now split. }
  destruct Hcat as [Hcat Hst]. unfold Startup.normalize_entry.
  rewrite (normalize_category_settled byName byId f f2 Hown) by now rewrite H1.
  unfold Startup.normalize_status. now rewrite Hst.
Qed.

(** X17. The normalisation at start-up is idempotent: on the files it
    leaves behind, whatever they were before, a second start of the server
    writes nothing. *)
Theorem restart_twice (st : store) :
  Startup.normalizeData (Startup.restart st) = [] /\
  Startup.restart (Startup.restart st) = Startup.restart st.
Proof.
  assert (H : Startup.normalizeData (Startup.restart st) = []).
  { unfold Startup.restart, Startup.normalizeData at 2.
    destruct (Startup.name_entries (categoriesFile st)) as [es | err] eqn:Hes.
    - cbv zeta. destruct (existsb snd _) eqn:Hchanged.
      + cbn [fold_left write]. unfold Startup.normalizeData.
        cbn [categoriesFile feedbackFile]. rewrite Hes. cbv zeta.
        destruct (existsb_snd_kept
                    (Startup.normalize_entry (fromEntries es)
                       (map (fun c => VStr (Category.id c)) (categoriesFile st)))
                    (map fst (map (Startup.normalize_entry (fromEntries es)
                       (map (fun c => VStr (Category.id c)) (categoriesFile st)))
                       (feedbackFile st)))) as [-> _]; [| reflexivity].
        rewrite map_map. apply Forall_forall. intros g Hg.
        apply list_elem_of_In, in_map_iff in Hg as (f & <- & _).
        apply normalize_entry_settled. intros k v Hv.
        apply name_entries_Normal in Hes as [-> _].
        apply byName_own in Hv as (c & Hc & _ & ->). split; [| reflexivity].
        apply array_includes_str, in_map_iff. now exists c.
      + cbn [fold_left]. unfold Startup.normalizeData. rewrite Hes. cbv zeta.
        now rewrite Hchanged.
    - cbn [fold_left]. unfold Startup.normalizeData. now rewrite Hes. }
  split; [exact H |]. unfold Startup.restart at 1. now rewrite H.
Qed.

Lemma assoc_app {A : Type} (k : string) (l1 l2 : list (string * A)) :
  assoc k (l1 ++ l2) = match assoc k l1 with Some v => Some v | None => assoc k l2 end.
Proof.
  induction l1 as [| [k0 a0] r IH]; [reflexivity |].
  cbn [app assoc]. destruct (String.eqb k k0); [reflexivity | apply IH].
Qed.

Lemma assoc_no_key {A : Type} (k : string) (l : list (string * A)) :
  Forall (fun e => fst e <> k) l -> assoc k l = None.
Proof.
  induction 1 as [| [k0 a0] r Hk Hr IH]; [reflexivity |].
  cbn [assoc]. destruct (String.eqb_spec k k0) as [-> | _]; [now elim Hk | exact IH].
Qed.

(** [byName] answers a key with the id of the last category filed under it. *)
Lemma byName_last (before later : list Category.t) (c : Category.t) :
  Forall (fun d => Startup.name_key d <> Startup.name_key c) later ->
  assoc (Startup.name_key c)
        (fromEntries
           (map (fun c => (Startup.name_key c, VStr (Category.id c)))
                (before ++ c :: later))) = Some (VStr (Category.id c)).
Proof.
  intros Hlater. unfold fromEntries. rewrite fold_assoc_set.
  rewrite <- map_rev, rev_app_distr. cbn [rev]. rewrite <- app_assoc, map_app, assoc_app.
  rewrite assoc_no_key.
  - cbn [app map assoc]. now rewrite String.eqb_refl.
  - apply Forall_forall. intros e He.
    apply list_elem_of_In, in_map_iff in He as (d & <- & Hd). cbn [fst].
    apply in_rev in Hd. rewrite Forall_forall in Hlater.
    apply Hlater. now apply list_elem_of_In.
Qed.

(** X18. An entry that carries the name of a category instead of an id,
    as the older files did, gets at start-up the id of the LAST category
    of categories.json with that name, compared without case (the names
    being strings, the id not empty and the name not itself an id); the
    rest of the entry, but for a missing status, stays. *)
Theorem normalize_takes_last_name (st : store) (before later : list Category.t)
    (c : Category.t) (i : nat) (f : Feedback.t) (given : string) :
  categoriesFile st = (before ++ c :: later)%list ->
  Forall (fun d => Startup.is_string (Category.name d) = true) (categoriesFile st) ->
  Startup.name_key c = toLowerCase given ->
  Forall (fun d => Startup.name_key d <> toLowerCase given) later ->
  Category.id c <> "" ->
  Forall (fun d => Category.id d <> given) (categoriesFile st) ->
  feedbackFile st !! i = Some f ->
  Feedback.category f = VStr given ->
  exists l g,
    Startup.normalizeData st = [WriteFeedback l] /\
    l !! i = Some g /\
    Feedback.category g = VStr (Category.id c) /\
    same_frame f g.
Proof.
  intros Hcats Hnames Hkey Hlater Hid Hfresh Hi Hcat.
  unfold Startup.normalizeData. rewrite (name_entries_strings _ Hnames). cbv zeta.
  set (byName := fromEntries _).
  set (byId := map (fun c => VStr (Category.id c)) (categoriesFile st)).
  assert (Hf : Startup.normalize_category byName byId f =
               (Feedback.set_category (VStr (Category.id c)) f, true)).
  { unfold Startup.normalize_category. rewrite Hcat.
    assert (Hno : array_includes byId (VStr given) = false).
    { apply Bool.not_true_is_false. intros Hin.
      apply array_includes_str, in_map_iff in Hin as (d & Hd & Hin).
      rewrite Forall_forall in Hfresh. apply (Hfresh d); [now apply list_elem_of_In |].
      now inversion Hd. }
    rewrite Hno. cbn [negb andb Startup.is_string].
    change (ToString (VStr given)) with given.
    unfold property_get, byName. rewrite Hcats, <- Hkey, byName_last.
    - cbn [truthy Startup.json_property].
      destruct (String.eqb_spec (Category.id c) ""); [contradiction | reflexivity].
    - now rewrite Hkey. }
  assert (Hg : exists g, Startup.normalize_entry byName byId f = (g, true) /\
                         Feedback.category g = VStr (Category.id c) /\ same_frame f g).
  { unfold Startup.normalize_entry. rewrite Hf. unfold Startup.normalize_status.
    cbn [Feedback.status Feedback.set_category].
    destruct (truthy (Feedback.status f)); eexists; (split; [reflexivity |]);
      (split; [reflexivity | repeat split]). }
  destruct Hg as (g & Hentry & Hgcat & Hframe).
  replace (existsb snd (map (Startup.normalize_entry byName byId) (feedbackFile st)))
    with true.
  - eexists. exists g. split; [reflexivity |]. split; [| now split].
    rewrite !list_lookup_fmap, Hi. cbn. now rewrite Hentry.
  - symmetry. apply existsb_exists. exists (g, true). split; [| reflexivity].
    rewrite <- Hentry. apply in_map. apply list_elem_of_In.
    eapply list_elem_of_lookup_2; eassumption.
Qed.

Lemma normalize_takes_last_name_witness :
  exists l g,
    Startup.normalizeData legacy_store = [WriteFeedback l] /\
    l !! 0%nat = Some g /\
    Feedback.category g = VStr "c-2".
Proof.
  destruct (normalize_takes_last_name legacy_store
              [Category.mk "c-1" (VStr "Course content") (VStr "")] []
              (Category.mk "c-2" (VStr "COURSE CONTENT") (VStr "")) 0
              (Feedback.mk "f-1" (VStr "Course Content") (VNum (int 5)) (VStr "Very clear")
                 VUndefined "" 1690000000000 "00")
              "Course Content")
    as (l & g & Hl & Hg & Hcat & _).
  - reflexivity.
  - repeat constructor.
  - reflexivity.
  - constructor.
  - discriminate.
  - repeat constructor; discriminate.
  - reflexivity.
  - reflexivity.
  - exists l, g. repeat split; assumption.
Defined.

Lemma find_c_first (key : string) (before later : list Category.t) (c : Category.t) :
  Forall (fun d => Startup.is_string (Category.name d) = true /\ Startup.name_key d <> key)
         before ->
  Startup.is_string (Category.name c) = true ->
  Startup.name_key c = key ->
  find_c (fun c => let* lc := call_toLowerCase (Category.name c) in
                   Normal (String.eqb lc key))
         (before ++ c :: later) = Normal (Some c).
Proof.
  intros Hbefore Hstr Hkey. induction Hbefore as [| d r [Hd Hne] Hr IH]; cbn [app find_c].
  - unfold Startup.name_key in Hkey.
    destruct (Category.name c); try discriminate Hstr. cbn [call_toLowerCase bind].
    now rewrite Hkey, String.eqb_refl.
  - unfold Startup.name_key in Hne.
    destruct (Category.name d); try discriminate Hd. cbn [call_toLowerCase bind].
    destruct (String.eqb_spec (toLowerCase s) key); [contradiction | exact IH].
Qed.

(** X19. A submission that names its category by a display name is stored
    with, as its category, the id of the FIRST category of categories.json
    with that name, compared without case: the names before it must be
    strings, those after it are not looked at.  The normalisation at
    start-up takes the last one. *)
Theorem submission_takes_first_name env ua (k : Z) (s given : string) (st : store)
    (before later : list Category.t) (c : Category.t) :
  1 <= k <= 5 -> (5 <= String.length s)%nat -> given <> "" ->
  categoriesFile st = (before ++ c :: later)%list ->
  Forall (fun d => Startup.is_string (Category.name d) = true /\
                   Startup.name_key d <> toLowerCase given) before ->
  Startup.is_string (Category.name c) = true ->
  Startup.name_key c = toLowerCase given ->
  Forall (fun d => Category.id d <> given) (categoriesFile st) ->
  Category.id c <> "" ->
  exists stored,
    post_feedback env ua (VStr given) (VNum (int k)) (VStr s) st =
      reply_after (WriteFeedback (feedbackFile st ++ [stored])) 201
        (Submitted "Feedback submitted successfully" (randomUUID env)) /\
    Feedback.category stored = VStr (Category.id c) /\
    Feedback.feedback_id stored = randomUUID env /\
    Feedback.rating stored = VNum (int k) /\
    Feedback.comment stored = VStr s.
Proof.
  intros Hk Hs Hgiven Hcats Hbefore Hstr Hkey Hfresh Hid.
  exists (newFeedback env ua (Category.id c) (VNum (int k)) (VStr s)).
  split; [| repeat split].
  - apply post_feedback_accepts; try assumption.
    + cbn. apply Bool.negb_true_iff. now apply String.eqb_neq.
    + unfold resolve_category. rewrite find_nothing.
      * change (ToString (VStr given)) with given.
        rewrite Hcats, (find_c_first (toLowerCase given)); auto.
      * eapply Forall_impl; [exact Hfresh |]. cbn beta. intros d Hd.
        apply Bool.not_true_is_false. intros Heq.
        apply strict_equal_str_l in Heq. inversion Heq as [Hsame]. now apply Hd.
  - cbn [newFeedback Feedback.rating]. now rewrite parseInt_rating.
Qed.

Lemma submission_takes_first_name_witness :
  exists stored,
    effects (post_feedback env1 agent (VStr "Course Content") (VNum (int 4))
               (VStr "Great course") legacy_store) =
      [WriteFeedback (feedbackFile legacy_store ++ [stored])] /\
    Feedback.category stored = VStr "c-1".
Proof.
  destruct (submission_takes_first_name env1 agent 4 "Great course" "Course Content"
              legacy_store [] [Category.mk "c-2" (VStr "COURSE CONTENT") (VStr "")]
              (Category.mk "c-1" (VStr "Course content") (VStr "")))
    as (stored & Hpost & Hcat & _).
  - lia.
  - cbn; lia.
  - discriminate.
  - reflexivity.
  - constructor.
  - reflexivity.
  - reflexivity.
  - repeat constructor; discriminate.
  - discriminate.
  - exists stored. split; [now rewrite Hpost | exact Hcat].
Defined.

(** ** The distributions of the analytics route *)

Lemma tally_fold (key : Feedback.t -> value) (feedback : list Feedback.t)
    (acc : list (string * value)) :
  fold_left (fun acc f => count_word acc (ToString (key f))) feedback acc =
    fold_left count_word (map (fun f => ToString (key f)) feedback) acc.
Proof. revert acc. induction feedback as [| f r IH]; intros acc; [reflexivity | apply IH]. Qed.

Lemma count_word_plain (acc : list (string * value)) (ws : list string) (w : string) :
  inherited w = false -> counted acc ws ->
  count_word acc w = assoc_set w (VNum (int (occurrences w ws + 1))) acc.
Proof.
  unfold inherited. intros Hplain [_ Hacc].
  apply Bool.orb_false_iff in Hplain as [Hproto Hmethod].
  unfold count_word, object_set, object_get. rewrite Hproto, Hmethod, (Hacc w).
  pose proof (occurrences_nonneg w ws) as Hn.
  destruct (Z.ltb_spec 0 (occurrences w ws)) as [Hpos | Hzero].
  - unfold js_or. cbn [truthy int].
    replace (occurrences w ws =? 0) with false by lia. cbn [negb].
    unfold js_add. cbn [is_stringish orb ToNumber]. now rewrite num_add_int.
  - replace (occurrences w ws) with 0 by lia. reflexivity.
Qed.

Lemma sum_counts_assoc_set (k : string) (n : Z) (acc : list (string * value)) :
  sum_counts (assoc_set k (VNum (int n)) acc) =
    sum_counts acc + n -
    match assoc k acc with Some v => count_of (k, v) | None => 0 end.
Proof.
  induction acc as [| [k0 v0] r IH]; cbn [assoc_set assoc sum_counts fold_right].
  - unfold count_of. cbn. lia.
  - destruct (String.eqb_spec k k0) as [-> | Hne]; cbn [sum_counts fold_right].
    + unfold count_of. cbn [snd int]. lia.
    + fold (sum_counts (assoc_set k (VNum (int n)) r)). fold (sum_counts r).
      rewrite IH. lia.
Qed.

Lemma sum_counts_fold (ws : list string) :
  forall acc done,
    Forall (fun w => inherited w = false) ws ->
    counted acc done -> sum_counts acc = Z.of_nat (List.length done) ->
    sum_counts (fold_left count_word ws acc) = Z.of_nat (List.length (done ++ ws)).
Proof.
  induction ws as [| w ws IH]; cbn [fold_left]; intros acc done Hplain Hacc Hsum.
  - now rewrite app_nil_r.
  - apply Forall_cons in Hplain as [Hw Hws].
    replace (done ++ w :: ws)%list with ((done ++ [w]) ++ ws)%list
      by (now rewrite <- app_assoc).
    apply IH; [assumption | now apply count_word_counted |].
    rewrite (count_word_plain acc done w Hw Hacc), sum_counts_assoc_set, Hsum.
    destruct Hacc as [_ Hacc]. rewrite (Hacc w), length_app. cbn [List.length].
    pose proof (occurrences_nonneg w done).
    destruct (Z.ltb_spec 0 (occurrences w done)); unfold count_of; cbn [snd int]; lia.
Qed.

Lemma counted_nil : counted [] [].
Proof. split; [constructor | reflexivity]. Qed.

Lemma tally_keys_plain (key : Feedback.t -> value) (feedback : list Feedback.t) :
  Forall (fun f => inherited (ToString (key f)) = false) feedback ->
  Forall (fun w => inherited w = false) (map (fun f => ToString (key f)) feedback).
Proof.
  intros Hplain. apply Forall_forall. intros w Hw.
  apply list_elem_of_In, in_map_iff in Hw as (f & <- & Hf).
  rewrite Forall_forall in Hplain. apply Hplain. now apply list_elem_of_In.
Qed.

Lemma tally_counted (key : Feedback.t -> value) (feedback : list Feedback.t) :
  Forall (fun f => inherited (ToString (key f)) = false) feedback ->
  counted (tally key feedback) (map (fun f => ToString (key f)) feedback).
Proof.
  intros Hplain. unfold tally. rewrite tally_fold.
  apply (fold_count_word _ [] [] (tally_keys_plain key feedback Hplain) counted_nil).
Qed.

Lemma tally_sum (key : Feedback.t -> value) (feedback : list Feedback.t) :
  Forall (fun f => inherited (ToString (key f)) = false) feedback ->
  sum_counts (tally key feedback) = Z.of_nat (List.length feedback).
Proof.
  intros Hplain. unfold tally. rewrite tally_fold.
  rewrite (sum_counts_fold _ [] [] (tally_keys_plain key feedback Hplain)
             counted_nil eq_refl).
  cbn [app]. now rewrite length_map.
Qed.

(** X20. The three distributions of the analytics route (by category, by
    rating, by status) are exact as long as no key is one that a plain
    object inherits: each key that occurs is listed once with the number
    of entries that have it, no other key is listed, and the counts add up
    to totalFeedback. *)
Theorem distribution_exact (feedback : list Feedback.t) :
  (Forall (fun f => inherited (ToString (Feedback.category f)) = false) feedback ->
   counted (categoryStats feedback) (map (fun f => ToString (Feedback.category f)) feedback) /\
   sum_counts (categoryStats feedback) = Z.of_nat (List.length feedback)) /\
  (Forall (fun f => inherited (ToString (Feedback.rating f)) = false) feedback ->
   counted (ratingStats feedback) (map (fun f => ToString (Feedback.rating f)) feedback) /\
   sum_counts (ratingStats feedback) = Z.of_nat (List.length feedback)) /\
  (Forall (fun f => inherited (ToString (js_or (Feedback.status f) (VStr "open"))) = false)
          feedback ->
   counted (statusStats feedback)
           (map (fun f => ToString (js_or (Feedback.status f) (VStr "open"))) feedback) /\
   sum_counts (statusStats feedback) = Z.of_nat (List.length feedback)).
Proof.
  repeat split; try (now apply tally_counted); now apply tally_sum.
Qed.

Lemma distribution_exact_witness :
  sum_counts (categoryStats (feedbackFile legacy_store)) = 2 /\
  assoc "c-1" (categoryStats (feedbackFile legacy_store)) = Some (VNum (int 1)).
Proof.
  destruct (distribution_exact (feedbackFile legacy_store)) as [Hcategory _].
  destruct Hcategory as [[_ Hcount] Hsum].
  - repeat constructor.
  - split; [exact Hsum | exact (Hcount "c-1")].
Defined.

Lemma status_key (f : Feedback.t) :
  valid_status (Feedback.status f) ->
  exists s, Feedback.status f = VStr s /\
            ToString (js_or (Feedback.status f) (VStr "open")) = s /\
            inherited s = false.
Proof.
  intros [H | [H | H]]; rewrite H; eexists; (split; [reflexivity |]); split; reflexivity.
Qed.

Lemma occurrences_status (s : string) (feedback : list Feedback.t) :
  Forall (fun f => valid_status (Feedback.status f)) feedback ->
  occurrences s (map (fun f => ToString (js_or (Feedback.status f) (VStr "open"))) feedback)
  = with_status s feedback.
Proof.
  unfold occurrences, with_status.
  induction 1 as [| f r Hf Hr IH]; [reflexivity |].
  cbn [map count_occ List.filter].
  destruct (status_key f Hf) as (t & Ht & -> & _). rewrite Ht.
  destruct (string_dec t s) as [-> | Hne].
  - replace (strict_equal (VStr s) (VStr s)) with true
      by (symmetry; now apply strict_equal_str_l).
    cbn [List.length]. lia.
  - replace (strict_equal (VStr t) (VStr s)) with false; [exact IH |].
    symmetry. apply Bool.not_true_is_false. intros Heq.
    apply strict_equal_str_l in Heq. congruence.
Qed.

(** X21. On files the server wrote, statusStats holds for each status the
    number of entries with that status, leaves out a status that no entry
    has, lists nothing but open, in_progress and completed, and its counts
    add up to totalFeedback. *)
Theorem status_distribution (st : store) :
  reachable st ->
  (forall s, assoc s (statusStats (feedbackFile st)) =
             if 0 <? with_status s (feedbackFile st)
             then Some (VNum (int (with_status s (feedbackFile st)))) else None) /\
  (forall s, In s (map fst (statusStats (feedbackFile st))) -> valid_status (VStr s)) /\
  with_status "open" (feedbackFile st) + with_status "in_progress" (feedbackFile st)
    + with_status "completed" (feedbackFile st) = Z.of_nat (List.length (feedbackFile st)) /\
  sum_counts (statusStats (feedbackFile st)) = Z.of_nat (List.length (feedbackFile st)).
Proof.
  intros Hreach. pose proof (reachable_status st Hreach) as Hvalid.
  assert (Hplain : Forall (fun f => inherited (ToString (js_or (Feedback.status f)
                                                               (VStr "open"))) = false)
                          (feedbackFile st)).
  { eapply Forall_impl; [exact Hvalid |]. cbn beta. intros f Hf.
    destruct (status_key f Hf) as (s & _ & -> & Hs). exact Hs. }
  destruct (tally_counted _ _ Hplain) as [Hnd Hcount].
  pose proof (tally_sum _ _ Hplain) as Hsum.
  assert (Hassoc : forall s, assoc s (statusStats (feedbackFile st)) =
             if 0 <? with_status s (feedbackFile st)
             then Some (VNum (int (with_status s (feedbackFile st)))) else None).
  { intros s. unfold statusStats. rewrite Hcount. now rewrite occurrences_status. }
  split; [exact Hassoc |]. split; [| split; [| exact Hsum]].
  - intros s Hs. apply in_map_iff in Hs as ([k v] & <- & Hin). cbn [fst].
    apply In_assoc in Hin; [| exact Hnd].
    fold (statusStats (feedbackFile st)) in Hin. rewrite Hassoc in Hin.
    destruct (Z.ltb_spec 0 (with_status k (feedbackFile st))) as [Hpos |]; [| discriminate].
    unfold with_status in Hpos.
    destruct (List.filter _ (feedbackFile st)) as [| f r] eqn:Hfilter; [cbn in Hpos; lia |].
    assert (Hf : In f (List.filter (fun f => strict_equal (Feedback.status f) (VStr k))
                                   (feedbackFile st))) by (rewrite Hfilter; now left).
    apply filter_In in Hf as [Hf Heq]. apply strict_equal_str_r in Heq.
    rewrite Forall_forall in Hvalid. rewrite <- Heq.
    apply Hvalid. now apply list_elem_of_In.
  - clear Hplain Hnd Hcount Hsum Hassoc. unfold with_status.
    induction Hvalid as [| f r Hf Hr IH]; [reflexivity |].
    cbn [List.filter List.length].
    destruct Hf as [-> | [-> | ->]]; cbn [strict_equal]; cbn; cbn in IH; lia.
Qed.

Lemma status_distribution_witness :
  assoc "open" (statusStats (feedbackFile store1)) = Some (VNum (int 1)) /\
  sum_counts (statusStats (feedbackFile store1)) = 1.
Proof.
  destruct (status_distribution store1 reachable_store1) as (Hassoc & _ & _ & Hsum).
  split; [exact (Hassoc "open") | exact Hsum].
Defined.

(** X22. categoryMap, the map from id to name that the analytics route
    sends along, answers the id of a category with the name of the last
    category of categories.json that has this id: with distinct ids, each
    id gives the name of its category. *)
Theorem categoryMap_lookup (categories before later : list Category.t) (c : Category.t) :
  categories = (before ++ c :: later)%list ->
  Forall (fun d => Category.id d <> Category.id c) later ->
  property_get (categoryMap categories) (Category.id c) = Category.name c.
Proof.
  intros -> Hlater. unfold property_get, categoryMap, fromEntries.
  rewrite fold_assoc_set, <- map_rev, rev_app_distr. cbn [rev].
  rewrite <- app_assoc, map_app, assoc_app, assoc_no_key.
  - cbn [app map assoc]. now rewrite String.eqb_refl.
  - apply Forall_forall. intros e He.
    apply list_elem_of_In, in_map_iff in He as (d & <- & Hd). cbn [fst].
    apply in_rev in Hd. rewrite Forall_forall in Hlater.
    apply Hlater. now apply list_elem_of_In.
Qed.

Lemma categoryMap_lookup_witness :
  property_get (categoryMap (categoriesFile legacy_store)) "c-1" = VStr "Course content".
Proof.
  apply (categoryMap_lookup (categoriesFile legacy_store) []
           [Category.mk "c-2" (VStr "COURSE CONTENT") (VStr "")]
           (Category.mk "c-1" (VStr "Course content") (VStr ""))).
  - reflexivity.
  - repeat constructor. discriminate.
Defined.

(** ** The feedback form of the home page *)

Lemma filled_invariant (actions : list HomePage.action) :
  Forall (fun a => HomePage.offered a = true) actions ->
  (HomePage.category (HomePage.filled actions) = "" \/
   In (HomePage.category (HomePage.filled actions)) HomePage.categories) /\
  0 <= HomePage.rating (HomePage.filled actions) <= 5.
Proof.
  unfold HomePage.filled.
  induction actions as [| a actions IH] using rev_ind; intros Hall.
  - split; [now left | cbn; lia].
  - apply Forall_app in Hall as [Hactions Ha]. apply Forall_cons in Ha as [Ha _].
    destruct (IH Hactions) as [Hcat Hrating]. rewrite fold_left_app. cbn [fold_left].
    destruct a as [v | star | text]; cbn [HomePage.update HomePage.category HomePage.rating];
      try (split; assumption).
    + split; [| assumption]. cbn [HomePage.offered] in Ha.
      apply is_in_In in Ha as [<- | Hin]; [now left | now right].
    + split; [assumption |]. cbn [HomePage.offered existsb] in Ha.
      repeat (apply Bool.orb_true_iff in Ha as [Ha | Ha]; [apply Z.eqb_eq in Ha; lia |]).
      discriminate Ha.
Qed.

Lemma handleSubmit_Post (d : HomePage.formData) (c r m : value) :
  HomePage.handleSubmit d = HomePage.Post c r m ->
  c = VStr (HomePage.category d) /\ r = VNum (int (HomePage.rating d)) /\
  m = VStr (HomePage.comment d) /\
  HomePage.category d <> "" /\ HomePage.rating d <> 0 /\
  (5 <= String.length (HomePage.comment d))%nat.
Proof.
  unfold HomePage.handleSubmit. cbn [truthy int].
  destruct (String.eqb_spec (HomePage.category d) "") as [| Hc]; [discriminate |].
  destruct (Z.eqb_spec (HomePage.rating d) 0) as [| Hr]; [discriminate |].
  destruct (String.eqb (HomePage.comment d) ""); [discriminate |]. cbn [negb orb].
  destruct (Z.ltb_spec (Z.of_nat (String.length (HomePage.comment d))) 5) as [| Hlen];
    [discriminate |].
  intros H; inversion H. repeat split; try assumption. lia.
Qed.

(** Past the three validations of [POST /api/feedback] only the category
    decides. *)
Lemma post_feedback_validated env ua category k s st :
  truthy category = true -> 1 <= k <= 5 -> (5 <= String.length s)%nat ->
  post_feedback env ua category (VNum (int k)) (VStr s) st =
    try_catch (
      let* categoryId := resolve_category (categoriesFile st) category in
      match categoryId with
      | None => Normal (reply 400 (Error "Invalid category"))
      | Some cid =>
          if String.eqb cid ""
          then Normal (reply 400 (Error "Invalid category"))
          else Normal (reply_after
                         (WriteFeedback
                            (feedbackFile st ++
                             [newFeedback env ua cid (VNum (int k)) (VStr s)]))
                         201
                         (Submitted "Feedback submitted successfully" (randomUUID env)))
      end).
Proof.
  intros Hc Hk Hs. unfold post_feedback.
  rewrite Hc. cbn [truthy int negb orb].
  replace (k =? 0) with false by lia.
  rewrite (length_nonempty s Hs). cbn [negb get_length bind].
  unfold lt_number, gt_number, num_gt. cbn [ToNumber].
  rewrite !num_lt_int.
  replace (Z.of_nat (String.length s) <? 5) with false by lia.
  replace (k <? 1) with false by lia. replace (5 <? k) with false by lia.
  reflexivity.
Qed.

(** The lookup of the category throws only on a name that is not a
    string. *)
Lemma resolve_category_throws (categories : list Category.t) (category : value)
    (e : string) :
  resolve_category categories category = Throw e ->
  Exists (fun d => Startup.is_string (Category.name d) = false) categories.
Proof.
  unfold resolve_category. destruct (List.find _ categories); [discriminate |].
  intros H.
  assert (Hfind : exists e', find_c (fun c =>
                     let* lc := call_toLowerCase (Category.name c) in
                     Normal (String.eqb lc (toLowerCase (ToString category))))
                   categories = Throw e').
  { destruct (find_c _ categories) as [byName | e']; [discriminate H | eauto]. }
  clear H. destruct Hfind as [e' Hfind].
  induction categories as [| d r IH]; [discriminate Hfind |].
  cbn [find_c] in Hfind.
  destruct (Category.name d) eqn:Hname;
    try (apply Exists_cons_hd; rewrite Hname; reflexivity).
  cbn [call_toLowerCase bind] in Hfind.
  destruct (String.eqb _ _); [discriminate Hfind |].
  apply Exists_cons_tl. now apply IH.
Qed.

(** X23. Whatever a visitor does to the form of the home page, what it
    posts passes the server's checks of the fields, of the length of the
    comment and of the rating: the answer is 201, with an entry stored that
    has the id of a category as its category, the star that was clicked as
    its rating and the text as its comment, or 400 Invalid category, or 500
    when a name in categories.json is not a string. *)
Theorem form_passes_validation (actions : list HomePage.action) env ua (st : store)
    (c r m : value) :
  Forall (fun a => HomePage.offered a = true) actions ->
  HomePage.handleSubmit (HomePage.filled actions) = HomePage.Post c r m ->
  (exists cat stored,
     In cat (categoriesFile st) /\
     post_feedback env ua c r m st =
       reply_after (WriteFeedback (feedbackFile st ++ [stored])) 201
         (Submitted "Feedback submitted successfully" (randomUUID env)) /\
     Feedback.category stored = VStr (Category.id cat) /\
     Feedback.rating stored = VNum (int (HomePage.rating (HomePage.filled actions))) /\
     Feedback.comment stored = VStr (HomePage.comment (HomePage.filled actions))) \/
  post_feedback env ua c r m st = reply 400 (Error "Invalid category") \/
  (post_feedback env ua c r m st = reply 500 (Error "Internal server error") /\
   Exists (fun d => Startup.is_string (Category.name d) = false) (categoriesFile st)).
Proof.
  intros Hall Hpost.
  destruct (filled_invariant actions Hall) as [_ Hrating].
  apply handleSubmit_Post in Hpost as (-> & -> & -> & Hc & Hr & Hm).
  set (d := HomePage.filled actions) in *.
  rewrite post_feedback_validated; [| | lia | assumption].
  2:{ cbn. apply Bool.negb_true_iff. now apply String.eqb_neq. }
  destruct (resolve_category (categoriesFile st) (VStr (HomePage.category d)))
    as [[cid |] | e] eqn:Hres; cbn [bind try_catch]; [| now right; left |].
  - destruct (String.eqb cid ""); [now right; left |]. left.
    apply resolve_category_Some in Hres as (cat & Hin & <- & _).
    exists cat, (newFeedback env ua (Category.id cat) (VNum (int (HomePage.rating d)))
                   (VStr (HomePage.comment d))).
    split; [assumption |]. split; [reflexivity |]. split; [reflexivity |].
    split; [| reflexivity].
    cbn [newFeedback Feedback.rating]. rewrite parseInt_rating by lia. reflexivity.
  - right. right. split; [reflexivity |].
    apply resolve_category_throws in Hres. exact Hres.
Qed.

Lemma form_passes_validation_witness :
  post_feedback env1 agent (VStr "Others") (VNum (int 3)) (VStr "Good course") initial =
    reply 400 (Error "Invalid category").
Proof.
  destruct (form_passes_validation
              [HomePage.Select "Others"; HomePage.ClickStar 3; HomePage.Edit "Good course"]
              env1 agent initial (VStr "Others") (VNum (int 3)) (VStr "Good course"))
    as [(cat & stored & _ & H & _) | [H | [H _]]].
  - repeat constructor.
  - reflexivity.
  - vm_compute in H. discriminate H.
  - exact H.
  - vm_compute in H. discriminate H.
Defined.



(** ** The analytics tab of the dashboard *)

Lemma lookup_count (stats : list (string * value)) (ws : list string) (k : string) :
  counted stats ws -> inherited k = false ->
  js_or (property_get stats k) (VNum (int 0)) = VNum (int (occurrences k ws)).
Proof.
  intros [_ Hacc] Hk. unfold property_get. rewrite (Hacc k).
  pose proof (occurrences_nonneg k ws) as Hn.
  destruct (Z.ltb_spec 0 (occurrences k ws)) as [Hpos | Hzero].
  - unfold js_or. cbn [truthy int].
    now replace (occurrences k ws =? 0) with false by lia.
  - unfold inherited in Hk. apply Bool.orb_false_iff in Hk as [Hproto Hmethod].
    unfold inherited_value. rewrite Hproto, Hmethod.
    replace (occurrences k ws) with 0 by lia. reflexivity.
Qed.

Lemma js_gt_int (a b : Z) : js_gt (VNum (int a)) (VNum (int b)) = (b <? a).
Proof. unfold js_gt, num_gt. cbn [is_stringish andb ToNumber]. apply num_lt_int. Qed.

Lemma pick_greater (stats : list (string * value)) (ws : list string) (a b : string * value) :
  counted stats ws -> inherited (fst a) = false -> inherited (fst b) = false ->
  Dashboard.pick stats a b =
    if occurrences (fst b) ws <? occurrences (fst a) ws then a else b.
Proof.
  intros Hc Ha Hb. unfold Dashboard.pick.
  now rewrite (lookup_count stats ws _ Hc Ha), (lookup_count stats ws _ Hc Hb), js_gt_int.
Qed.

Lemma reduce_pick (stats : list (string * value)) (ws : list string)
    (l : list (string * value)) :
  counted stats ws ->
  forall a,
    Forall (fun x => inherited (fst x) = false) (a :: l) ->
    In (fold_left (Dashboard.pick stats) l a) (a :: l) /\
    forall x, In x (a :: l) ->
              occurrences (fst x) ws
              <= occurrences (fst (fold_left (Dashboard.pick stats) l a)) ws.
Proof.
  intros Hc. induction l as [| b l IH]; intros a Hplain; cbn [fold_left].
  - split; [now left |]. intros x [<- | []]. lia.
  - apply Forall_cons in Hplain as [Ha Hplain].
    pose proof Hplain as Hbl. apply Forall_cons in Hplain as [Hb Hl].
    rewrite (pick_greater stats ws a b Hc Ha Hb).
    destruct (Z.ltb_spec (occurrences (fst b) ws) (occurrences (fst a) ws)) as [Hlt | Hge].
    + destruct (IH a) as [Hin Hmax]; [now constructor |]. split.
      * destruct Hin as [<- | Hin]; [now left | now right; right].
      * intros x [<- | [<- | Hx]].
        -- apply Hmax. now left.
        -- specialize (Hmax a (or_introl eq_refl)). lia.
        -- apply Hmax. now right.
    + destruct (IH b Hbl) as [Hin Hmax]. split; [now right |].
      intros x [<- | Hx]; [| now apply Hmax].
      specialize (Hmax b (or_introl eq_refl)). lia.
Qed.

(** X25. The rating the dashboard shows as the most common one.  With no
    feedback it shows 0.  Otherwise, when no rating has a key that a
    plain object inherits, it shows a rating that occurs, and none occurs
    more often; N/A can appear only for a rating whose text is empty. *)
Theorem most_common_rating (feedback : list Feedback.t) :
  Forall (fun f => inherited (ToString (Feedback.rating f)) = false) feedback ->
  (feedback = [] -> Dashboard.mostCommonRating (ratingStats feedback) = VStr "0") /\
  (feedback <> [] ->
   exists k,
     In k (map (fun f => ToString (Feedback.rating f)) feedback) /\
     Dashboard.mostCommonRating (ratingStats feedback) = js_or (VStr k) (VStr "N/A") /\
     forall k',
       occurrences k' (map (fun f => ToString (Feedback.rating f)) feedback)
       <= occurrences k (map (fun f => ToString (Feedback.rating f)) feedback)).
Proof.
  intros Hplain. split; [intros ->; reflexivity |]. intros Hsome.
  set (ws := map (fun f => ToString (Feedback.rating f)) feedback).
  pose proof (tally_counted Feedback.rating feedback Hplain) as Hc.
  fold ws in Hc. fold (ratingStats feedback) in Hc.
  set (stats := ratingStats feedback) in *.
  assert (Hkeys : forall k v, In (k, v) (object_entries stats) -> In k ws).
  { intros k v Hin. apply (Permutation_in _ (object_entries_perm stats)) in Hin.
    destruct Hc as [Hnd Hacc]. apply In_assoc in Hin; [| exact Hnd].
    rewrite Hacc in Hin. apply occurrences_In.
    destruct (Z.ltb_spec 0 (occurrences k ws)); [assumption | discriminate]. }
  assert (Hws : forall k, In k ws -> inherited k = false).
  { intros k Hk. apply in_map_iff in Hk as (f & <- & Hf).
    rewrite Forall_forall in Hplain. apply Hplain. now apply list_elem_of_In. }
  destruct (reduce_pick stats ws (object_entries stats) Hc ("0", VNum (int 0)))
    as [_ Hmax].
  { constructor; [reflexivity |]. apply Forall_forall. intros [k v] Hin.
    apply list_elem_of_In in Hin. cbn [fst]. eapply Hws, Hkeys, Hin. }
  set (r := fold_left (Dashboard.pick stats) (object_entries stats) ("0", VNum (int 0))) in *.
  assert (Hlisted : forall k, In k ws -> occurrences k ws <= occurrences (fst r) ws).
  { intros k Hk. apply occurrences_In in Hk. destruct Hc as [_ Hacc].
    pose proof (Hacc k) as Hassoc.
    replace (0 <? occurrences k ws) with true in Hassoc by lia.
    apply assoc_In in Hassoc.
    apply (Permutation_in _ (Permutation_sym (object_entries_perm stats))) in Hassoc.
    apply (Hmax (k, VNum (int (occurrences k ws)))). now right. }
  exists (fst r). split; [| split; [reflexivity |]].
  - destruct feedback as [| f0 rest]; [congruence |].
    assert (H0 : In (ToString (Feedback.rating f0)) ws) by now left.
    pose proof (Hlisted _ H0). apply occurrences_In in H0. apply occurrences_In. lia.
  - intros k'. pose proof (occurrences_nonneg (fst r) ws).
    destruct (Z.ltb_spec 0 (occurrences k' ws)) as [Hpos | Hzero]; [| lia].
    apply Hlisted. now apply occurrences_In.
Qed.

Lemma most_common_rating_witness :
  exists k, Dashboard.mostCommonRating (ratingStats (feedbackFile legacy_store))
            = js_or (VStr k) (VStr "N/A") /\
            0 < occurrences k ["5"; "3"].
Proof.
  destruct (most_common_rating (feedbackFile legacy_store)) as [_ H].
  - repeat constructor.
  - destruct H as (k & Hin & Hshow & _); [discriminate |].
    exists k. split; [exact Hshow |]. now apply occurrences_In.
Defined.
